(** * libpeeler: a shallow embedding of the peeling driver and format decoders

    The development follows the layout of the C sources:

    - [internal.h]: big-endian readers, the error slot, the handler record;
    - [hqx.c]: the BinHex 4.0 pipeline (text envelope, six-to-eight, RLE90,
      container with three CRC fields);
    - [bin.c]: MacBinary header validation, fork reading, fork selection;
    - [cpt.c]: the Compact Pro run-length stage, fork streams, directory
      walk and [peel_cpt];
    - [sit.c]: StuffIt CRC-16, RLE90, LZW, fork dispatch, the classic and
      the SIT5 directory walk and [peel_sit];
    - [peeler.c]: detection, the wrapper loop and recursive re-peeling.

    Conventions.  A byte is a [Z] in [0, 256); a buffer ([const uint8_t *]
    with its [size_t] length) is a [list Z].  A pointer into the archive is
    the list of bytes from that address to the end of the archive.  A function
    that reports through [peel_err_t **err] or leaves through [decode_abort]
    returns a [result]; allocation is assumed to succeed, so the
    out-of-memory exits of the C code have no counterpart.  A function whose
    call may not return answers an [option]: [None] stands for a call that
    does not return.  [uint16_t] and
    [uint32_t] arithmetic is written with its wrap-around; [size_t] sums of
    offsets and 32-bit lengths are exact (they stay far below [2^64]). *)

From stdpp Require Import base list gmap.
From Stdlib Require Import ZArith Lia Ascii.
From Stdlib Require String.
Import String.StringSyntax.
Delimit Scope string_scope with string.
Bind Scope string_scope with String.string.
Abbreviation string := String.string.
Local Open Scope Z_scope.

(** ** internal.h *)

Definition bytes := list Z.

(** [p[i]] for a pointer [p] modelled as the bytes from [p] on. *)
Definition at_ (p : bytes) (i : Z) : Z := nth (Z.to_nat i) p 0.

(** [p + n] *)
Definition advance (p : bytes) (n : Z) : bytes := drop (Z.to_nat n) p.

(** The [n] bytes at [p], as read by [memcpy] or [memcmp]. *)
Definition span (p : bytes) (n : Z) : bytes := take (Z.to_nat n) p.

Definition len {A} (p : list A) : Z := Z.of_nat (length p).

Definition bytes_eqb (a b : bytes) : bool := bool_decide (a = b).

(** A C string literal as bytes (without the terminating NUL). *)
Definition lit (s : string) : bytes :=
  map (fun c => Z.of_N (N_of_ascii c)) (String.list_ascii_of_string s).

(** [strnlen(s, n)] on a buffer that is NUL-terminated within its array. *)
Fixpoint c_strnlen (s : bytes) (n : nat) : nat :=
  match n, s with
  | S k, c :: rest => if c =? 0 then O else S (c_strnlen rest k)
  | _, _ => O
  end.

(** The characters of a C string: the bytes before the first NUL. *)
Definition c_str (s : bytes) : bytes := take (c_strnlen s (length s)) s.

Definition u8 (x : Z) : Z := x mod 256.
Definition u16 (x : Z) : Z := x mod 65536.
Definition u32 (x : Z) : Z := x mod 4294967296.

Definition rd16be (p : bytes) : Z :=
  u16 (Z.lor (Z.shiftl (at_ p 0) 8) (at_ p 1)).

Definition rd32be (p : bytes) : Z :=
  Z.lor (Z.lor (Z.lor (u32 (Z.shiftl (at_ p 0) 24))
                      (u32 (Z.shiftl (at_ p 1) 16)))
               (u32 (Z.shiftl (at_ p 2) 8)))
        (at_ p 3).

(** [wr16be], [wr32be]: the bytes stored at [p]. *)
Definition wr16be (v : Z) : bytes := [u8 (Z.shiftr v 8); u8 v].

Definition wr32be (v : Z) : bytes :=
  [u8 (Z.shiftr v 24); u8 (Z.shiftr v 16); u8 (Z.shiftr v 8); u8 v].

(** A buffer of [uint8_t]: every element is a byte. *)
Definition is_bytes (p : bytes) : Prop := Forall (fun b => 0 <= b < 256) p.

(** The messages of [make_err] and [decode_abort], one constructor per call
    site that the embedded functions reach. *)
Inductive peel_err_t : Type :=
  | HqxPreambleNotFound          (* "BinHex: preamble not found" *)
  | HqxNoStartColon              (* "BinHex: no starting colon found" *)
  | HqxInvalidChar (ch : Z)      (* "BinHex: invalid character '%c' (0x%02X)" *)
  | HqxIllegalRleCount           (* "BinHex: illegal RLE count of 1" *)
  | HqxPrematureEnd (needed : Z) (* "BinHex: premature end of stream (needed %zu more bytes)" *)
  | HqxInvalidNameLen (n : Z)    (* "BinHex: invalid filename length %u" *)
  | HqxHeaderCrc                 (* "BinHex: header CRC mismatch" *)
  | HqxEmptyForkCrc (fork_name : string)
      (* "BinHex: %s fork CRC mismatch (empty fork, expected 0x0000)" *)
  | HqxForkCrc (fork_name : string) (* "BinHex: %s fork CRC mismatch" *)
  | BinTooShort (n : Z)          (* "MacBinary: input too short (%zu bytes)" *)
  | BinInvalidHeader             (* "MacBinary: invalid header" *)
  | BinForkTooLong               (* "MacBinary: fork length exceeds maximum" *)
  | BinDataTruncated             (* "MacBinary: data fork truncated" *)
  | BinRsrcTruncated             (* "MacBinary: resource fork truncated" *)
  | SitTooManyFiles              (* "SIT: too many files in archive (limit %d)" *)
  | SitMethod0Short (packed raw : Z) (* "SIT: method 0 packed (%u) < raw (%u)" *)
  | SitUnsupportedMethod (m : Z) (* "SIT: unsupported compression method %d" *)
  | SitForkCrc (expected actual : Z)
      (* "SIT: fork CRC mismatch (expected 0x%04X, got 0x%04X)" *)
  | SitClassicTooSmall           (* "SIT classic: archive too small" *)
  | SitClassicForkPastEnd        (* "SIT classic: fork data extends past archive end" *)
  | SitNoSignature               (* "SIT: no valid StuffIt signature found" *)
  | Sit5TooSmall (avail : Z)     (* "SIT5: archive too small (%zu bytes)" *)
  | Sit5EntryMagic (cursor : Z)  (* "SIT5: invalid entry magic at offset %u" *)
  | Sit5EntryVersion (v : Z)     (* "SIT5: unsupported entry version %d" *)
  | Sit5Header1PastEnd           (* "SIT5: header1 extends past archive end" *)
  | Sit5HeaderCrc (cursor : Z)   (* "SIT5: header CRC mismatch at offset %u" *)
  | Sit5Header2PastEnd           (* "SIT5: header2 extends past archive end" *)
  | Sit5RsrcInfoPastEnd          (* "SIT5: resource info past archive end" *)
  | Sit5Encrypted                (* "SIT5: encrypted entries are not supported" *)
  | Sit5DataPastEnd              (* "SIT5: data fork extends past archive end" *)
  | EngineError (msg : string).  (* a message of a decoder taken as a parameter *)

Inductive result (A : Type) : Type :=
  | Ok (a : A)
  | Err (e : peel_err_t).
Arguments Ok {A} a.
Arguments Err {A} e.

Definition rbind {A B} (r : result A) (k : A -> result B) : result B :=
  match r with
  | Ok a => k a
  | Err e => Err e
  end.

(** [peel_file_meta_t], [peel_file_t]; a [peel_buf_t] is its bytes. *)
Record peel_file_meta_t : Type := {
  name : bytes;          (* the characters of [char name[256]] *)
  mac_type : Z;
  mac_creator : Z;
  finder_flags : Z
}.

Record peel_file_t : Type := {
  meta : peel_file_meta_t;
  data_fork : bytes;
  resource_fork : bytes
}.

Definition peel_file_list_t := list peel_file_t.

(** ** CRC-16/XMODEM ([crc16_ccitt], declared in internal.h) *)

Module Crc16.

(** Modelled from the spec: [n] shifts of the CRC register, most significant
    bit first, with the polynomial 0x1021 folded in when a one falls out. *)
Fixpoint crc_bits (n : nat) (crc : Z) : Z :=
  match n with
  | O => crc
  | S k =>
      let crc' :=
        if Z.testbit crc 15
        then Z.lxor (u16 (Z.shiftl crc 1)) 0x1021
        else u16 (Z.shiftl crc 1) in
      crc_bits k crc'
  end.

(** Modelled from the spec: the body of [crc16_ccitt_update] is missing
    from the sources, which hold only its declaration.  The spec fixes the
    algorithm: CRC-16/XMODEM, polynomial 0x1021, initial value 0, no
    reflection, no final XOR. *)
Definition crc16_ccitt_update (crc : Z) (data : bytes) : Z :=
  fold_left (fun c b => crc_bits 8 (Z.lxor c (Z.shiftl b 8))) data crc.

(** Modelled from the spec: [crc16_ccitt] is the update from register 0. *)
Definition crc16_ccitt (data : bytes) : Z := crc16_ccitt_update 0 data.

End Crc16.

(** ** sit.c: constants, CRC-16, fork decompression *)

Module Sit.

Definition SIT_CLASSIC_HDR_SIZE := 22.
Definition SIT_ENTRY_HDR_SIZE := 112.
Definition SIT5_MIN_SIZE := 100.
Definition SIT_FOLDER_START := 0x20.
Definition SIT_FOLDER_END := 0x21.
Definition SIT_MAX_DEPTH := 10.
Definition SIT5_MAX_DIRS := 32.
Definition SIT5_ENTRY_MAGIC := 0xA5A5A5A5.
Definition LZW_MAX_BITS := 14.
Definition LZW_TABLE_CAP := Z.shiftl 1 LZW_MAX_BITS.
Definition LZW_CLEAR_CODE := 256.
Definition LZW_FIRST_NEW := 257.
Definition SIT_MAX_FILES := 65536.
Definition UINT16_MAX := 65535.

(** [sit_fork_info_t] *)
Record sit_fork_info_t : Type := {
  raw_len : Z;
  packed_len : Z;
  crc : Z;
  method : Z;
  data : bytes           (* the archive from the fork's first byte on *)
}.

(** [sit_entry_t] *)
Record sit_entry_t : Type := {
  ent_name : bytes;      (* the characters of [char name[512]] *)
  ent_mac_type : Z;
  ent_mac_creator : Z;
  ent_finder_flags : Z;
  ent_data_fork : sit_fork_info_t;
  ent_rsrc_fork : sit_fork_info_t;
  has_rsrc : bool
}.

Definition sit_crc_table : list Z := [
  0x0000; 0xC0C1; 0xC181; 0x0140; 0xC301; 0x03C0; 0x0280; 0xC241;
  0xC601; 0x06C0; 0x0780; 0xC741; 0x0500; 0xC5C1; 0xC481; 0x0440;
  0xCC01; 0x0CC0; 0x0D80; 0xCD41; 0x0F00; 0xCFC1; 0xCE81; 0x0E40;
  0x0A00; 0xCAC1; 0xCB81; 0x0B40; 0xC901; 0x09C0; 0x0880; 0xC841;
  0xD801; 0x18C0; 0x1980; 0xD941; 0x1B00; 0xDBC1; 0xDA81; 0x1A40;
  0x1E00; 0xDEC1; 0xDF81; 0x1F40; 0xDD01; 0x1DC0; 0x1C80; 0xDC41;
  0x1400; 0xD4C1; 0xD581; 0x1540; 0xD701; 0x17C0; 0x1680; 0xD641;
  0xD201; 0x12C0; 0x1380; 0xD341; 0x1100; 0xD1C1; 0xD081; 0x1040;
  0xF001; 0x30C0; 0x3180; 0xF141; 0x3300; 0xF3C1; 0xF281; 0x3240;
  0x3600; 0xF6C1; 0xF781; 0x3740; 0xF501; 0x35C0; 0x3480; 0xF441;
  0x3C00; 0xFCC1; 0xFD81; 0x3D40; 0xFF01; 0x3FC0; 0x3E80; 0xFE41;
  0xFA01; 0x3AC0; 0x3B80; 0xFB41; 0x3900; 0xF9C1; 0xF881; 0x3840;
  0x2800; 0xE8C1; 0xE981; 0x2940; 0xEB01; 0x2BC0; 0x2A80; 0xEA41;
  0xEE01; 0x2EC0; 0x2F80; 0xEF41; 0x2D00; 0xEDC1; 0xEC81; 0x2C40;
  0xE401; 0x24C0; 0x2580; 0xE541; 0x2700; 0xE7C1; 0xE681; 0x2640;
  0x2200; 0xE2C1; 0xE381; 0x2340; 0xE101; 0x21C0; 0x2080; 0xE041;
  0xA001; 0x60C0; 0x6180; 0xA141; 0x6300; 0xA3C1; 0xA281; 0x6240;
  0x6600; 0xA6C1; 0xA781; 0x6740; 0xA501; 0x65C0; 0x6480; 0xA441;
  0x6C00; 0xACC1; 0xAD81; 0x6D40; 0xAF01; 0x6FC0; 0x6E80; 0xAE41;
  0xAA01; 0x6AC0; 0x6B80; 0xAB41; 0x6900; 0xA9C1; 0xA881; 0x6840;
  0x7800; 0xB8C1; 0xB981; 0x7940; 0xBB01; 0x7BC0; 0x7A80; 0xBA41;
  0xBE01; 0x7EC0; 0x7F80; 0xBF41; 0x7D00; 0xBDC1; 0xBC81; 0x7C40;
  0xB401; 0x74C0; 0x7580; 0xB541; 0x7700; 0xB7C1; 0xB681; 0x7640;
  0x7200; 0xB2C1; 0xB381; 0x7340; 0xB101; 0x71C0; 0x7080; 0xB041;
  0x5000; 0x90C1; 0x9181; 0x5140; 0x9301; 0x53C0; 0x5280; 0x9241;
  0x9601; 0x56C0; 0x5780; 0x9741; 0x5500; 0x95C1; 0x9481; 0x5440;
  0x9C01; 0x5CC0; 0x5D80; 0x9D41; 0x5F00; 0x9FC1; 0x9E81; 0x5E40;
  0x5A00; 0x9AC1; 0x9B81; 0x5B40; 0x9901; 0x59C0; 0x5880; 0x9841;
  0x8801; 0x48C0; 0x4980; 0x8941; 0x4B00; 0x8BC1; 0x8A81; 0x4A40;
  0x4E00; 0x8EC1; 0x8F81; 0x4F40; 0x8D01; 0x4DC0; 0x4C80; 0x8C41;
  0x4400; 0x84C1; 0x8581; 0x4540; 0x8701; 0x47C0; 0x4680; 0x8641;
  0x8201; 0x42C0; 0x4380; 0x8341; 0x4100; 0x81C1; 0x8081; 0x4040].

Definition sit_crc_update (crc : Z) (buf : bytes) : Z :=
  fold_left
    (fun c b => Z.lxor (at_ sit_crc_table (Z.land (Z.lxor c b) 0xFF))
                       (Z.shiftr c 8))
    buf crc.

Definition sit_crc (buf : bytes) : Z := sit_crc_update 0 buf.

(** *** Method 1: RLE90

    The loop of [case 1] in [decompress_fork].  [src] is the unread part of
    the [packed_len] input bytes, [out] the bytes produced so far. *)
Fixpoint rle90 (src : bytes) (raw_len : Z) (out : bytes) (last_byte : Z)
  : bytes :=
  if len out <? raw_len then
    match src with
    | [] => out
    | b :: rest =>
        if negb (b =? 0x90) then
          rle90 rest raw_len (out ++ [b]) b
        else
          match rest with
          | [] => out
          | n :: rest' =>
              if n =? 0 then
                rle90 rest' raw_len (out ++ [0x90]) last_byte
              else if 1 <? n then
                let repeats :=
                  if raw_len <? len out + (n - 1)
                  then raw_len - len out else n - 1 in
                rle90 rest' raw_len
                      (out ++ replicate (Z.to_nat repeats) last_byte) last_byte
              else
                rle90 rest' raw_len out last_byte
          end
    end
  else out.

(** *** Method 2: LZW *)

(** A zero-initialised C array indexed by code. *)
Definition aget (a : gmap Z Z) (i : Z) : Z := default 0 (a !! i).

(** [lzw_state_t].  The staging buffer is kept as its valid bytes, so
    [stage_len] is a length and not a field. *)
Record lzw_state_t : Type := {
  src : bytes;
  src_bytes : Z;
  bit_pos : Z;
  prev_code : gmap Z Z;
  suffix : gmap Z Z;
  head : gmap Z Z;
  chain_len : gmap Z Z;
  tbl_next : Z;
  code_bits : Z;
  prev : Z;
  block_count : Z;
  stage : bytes;
  stage_rd : Z
}.

Definition stage_len (z : lzw_state_t) : Z := len (stage z).

Definition lzw_create (s : bytes) (n : Z) : lzw_state_t :=
  let roots := seqZ 0 256 in
  {| src := s; src_bytes := n; bit_pos := 0;
     prev_code := foldr (fun i m => <[i := UINT16_MAX]> m) ∅ roots;
     suffix := foldr (fun i m => <[i := i]> m) ∅ roots;
     head := foldr (fun i m => <[i := i]> m) ∅ roots;
     chain_len := foldr (fun i m => <[i := 1]> m) ∅ roots;
     tbl_next := LZW_FIRST_NEW; code_bits := 9; prev := -1;
     block_count := 0; stage := []; stage_rd := 0 |}.

(** The little-endian word that [memcpy(&acc, src + byte_off, avail)] leaves
    in [acc] on a little-endian host. *)
Definition le_acc (p : bytes) (avail : Z) : Z :=
  foldr (fun b acc => Z.lor b (Z.shiftl acc 8)) 0 (span p avail).

Definition lzw_next_code (z : lzw_state_t) : option (Z * lzw_state_t) :=
  let byte_off := Z.shiftr (bit_pos z) 3 in
  if src_bytes z <=? byte_off then None
  else
    let avail := Z.min (src_bytes z - byte_off) 4 in
    let acc := le_acc (advance (src z) byte_off) avail in
    let shift := Z.land (bit_pos z) 7 in
    let mask := Z.shiftl 1 (code_bits z) - 1 in
    let code := Z.land (Z.shiftr acc shift) mask in
    Some (code,
          {| src := src z; src_bytes := src_bytes z;
             bit_pos := bit_pos z + code_bits z;
             prev_code := prev_code z; suffix := suffix z; head := head z;
             chain_len := chain_len z; tbl_next := tbl_next z;
             code_bits := code_bits z; prev := prev z;
             block_count := block_count z + 1;
             stage := stage z; stage_rd := stage_rd z |}).

(** The backward walk through the dictionary chain: at most [pos] bytes are
    stored, the last of them first. *)
Fixpoint lzw_walk (z : lzw_state_t) (pos : nat) (cur : Z) (acc : bytes)
  : bytes :=
  if cur =? UINT16_MAX then acc
  else match pos with
       | O => acc
       | S pos' =>
           lzw_walk z pos' (aget (prev_code z) cur) (aget (suffix z) cur :: acc)
       end.

Definition set_stage (z : lzw_state_t) (s : bytes) : lzw_state_t :=
  {| src := src z; src_bytes := src_bytes z; bit_pos := bit_pos z;
     prev_code := prev_code z; suffix := suffix z; head := head z;
     chain_len := chain_len z; tbl_next := tbl_next z;
     code_bits := code_bits z; prev := prev z;
     block_count := block_count z; stage := s; stage_rd := 0 |}.

Definition lzw_expand (z : lzw_state_t) (code : Z) : lzw_state_t :=
  let n := Z.min (aget (chain_len z) code) LZW_TABLE_CAP in
  set_stage z (lzw_walk z (Z.to_nat n) code []).

(** The KwKwK branch of [lzw_decode]: the chain of [prev], then [first_ch]. *)
Definition lzw_expand_kwkwk (z : lzw_state_t) (first_ch : Z) : lzw_state_t :=
  let n := Z.min (aget (chain_len z) (prev z) + 1) LZW_TABLE_CAP in
  set_stage z (lzw_walk z (Z.to_nat n - 1) (prev z) [first_ch]).

Definition lzw_add_entry (z : lzw_state_t) (prev_val first_byte : Z)
  : lzw_state_t :=
  if LZW_TABLE_CAP <=? tbl_next z then z
  else
    let idx := tbl_next z in
    let next := idx + 1 in
    {| src := src z; src_bytes := src_bytes z; bit_pos := bit_pos z;
       prev_code := <[idx := u16 prev_val]> (prev_code z);
       suffix := <[idx := first_byte]> (suffix z);
       head := <[idx := aget (head z) prev_val]> (head z);
       chain_len := <[idx := u16 (aget (chain_len z) prev_val + 1)]> (chain_len z);
       tbl_next := next;
       code_bits :=
         if (next <? LZW_TABLE_CAP) && (Z.land next (next - 1) =? 0)
            && (code_bits z <? LZW_MAX_BITS)
         then code_bits z + 1 else code_bits z;
       prev := prev z; block_count := block_count z;
       stage := stage z; stage_rd := stage_rd z |}.

(** The state after a clear code: the rest of the 8-code block is skipped. *)
Definition lzw_clear (z : lzw_state_t) : lzw_state_t :=
  {| src := src z; src_bytes := src_bytes z;
     bit_pos :=
       if negb (Z.land (block_count z) 7 =? 0)
       then bit_pos z + code_bits z * (8 - Z.land (block_count z) 7)
       else bit_pos z;
     prev_code := prev_code z; suffix := suffix z; head := head z;
     chain_len := chain_len z; tbl_next := LZW_FIRST_NEW;
     code_bits := 9; prev := -1; block_count := 0;
     stage := stage z; stage_rd := stage_rd z |}.

Definition set_prev (z : lzw_state_t) (p : Z) : lzw_state_t :=
  {| src := src z; src_bytes := src_bytes z; bit_pos := bit_pos z;
     prev_code := prev_code z; suffix := suffix z; head := head z;
     chain_len := chain_len z; tbl_next := tbl_next z;
     code_bits := code_bits z; prev := p;
     block_count := block_count z; stage := stage z; stage_rd := stage_rd z |}.

Definition set_stage_rd (z : lzw_state_t) (rd : Z) : lzw_state_t :=
  {| src := src z; src_bytes := src_bytes z; bit_pos := bit_pos z;
     prev_code := prev_code z; suffix := suffix z; head := head z;
     chain_len := chain_len z; tbl_next := tbl_next z;
     code_bits := code_bits z; prev := prev z;
     block_count := block_count z; stage := stage z; stage_rd := rd |}.

(** One turn of the [while (got < want)] loop of [lzw_decode], with
    [room = want - got > 0]: the new state and the bytes stored at
    [dst + got], or [None] when the loop is left by [break]. *)
Definition lzw_decode_iter (z : lzw_state_t) (room : Z)
  : option (lzw_state_t * bytes) :=
  if stage_rd z <? stage_len z then
    let n := Z.min (stage_len z - stage_rd z) room in
    Some (set_stage_rd z (stage_rd z + n),
          span (advance (stage z) (stage_rd z)) n)
  else
    match lzw_next_code z with
    | None => None
    | Some (code, z1) =>
        if code =? LZW_CLEAR_CODE then Some (lzw_clear z1, [])
        else if prev z1 <? 0 then
          Some (set_prev z1 code, if code <? 256 then [u8 code] else [])
        else
          let first_ch :=
            if code <? tbl_next z1 then aget (head z1) code
            else aget (head z1) (prev z1) in
          let z2 := lzw_add_entry z1 (prev z1) first_ch in
          let z3 :=
            if code <? tbl_next z2 then lzw_expand z2 code
            else lzw_expand_kwkwk z2 first_ch in
          Some (set_prev z3 code, [])
    end.

(** The loop of [lzw_decode], cut after [fuel] turns; [None] only when the
    fuel runs out before the loop ends. *)
Fixpoint lzw_decode_loop (fuel : nat) (z : lzw_state_t) (want : Z)
    (out : bytes) : option (lzw_state_t * bytes) :=
  if len out <? want then
    match fuel with
    | O => None
    | S fuel' =>
        match lzw_decode_iter z (want - len out) with
        | None => Some (z, out)
        | Some (z', chunk) => lzw_decode_loop fuel' z' want (out ++ chunk)
        end
    end
  else Some (z, out).

(** Every turn either stores a byte or reads a code of at least one bit, so
    this many turns are enough (see [lzw_decode_loop_enough]). *)
Definition lzw_fuel (z : lzw_state_t) (want : Z) : nat :=
  Z.to_nat (want + Z.max 0 (8 * src_bytes z - bit_pos z)).

Definition lzw_decode (z : lzw_state_t) (want : Z)
  : option (lzw_state_t * bytes) :=
  lzw_decode_loop (lzw_fuel z want) z want [].

(** *** Fork dispatch, the directory walks, [peel_sit]

    The decoders of methods 13 and 15 ([peel_sit13], [peel_sit15], in
    sit13.c and sit15.c) are not embedded; the functions that call them take
    them as parameters, and every statement below holds whatever they
    compute. *)
Section Engines.

Variable peel_sit13 : bytes -> Z -> Z -> result bytes.
Variable peel_sit15 : bytes -> Z -> Z -> result bytes.

Definition check_fork_crc (expect_crc : Z) (out : bytes) : result bytes :=
  let actual := sit_crc out in
  if negb (actual =? expect_crc) then Err (SitForkCrc expect_crc actual)
  else Ok out.

Definition decompress_fork (fi : sit_fork_info_t) : result bytes :=
  let p := data fi in
  if method fi =? 13 then
    rbind (peel_sit13 p (packed_len fi) (raw_len fi))
          (check_fork_crc (crc fi))
  else if method fi =? 15 then
    peel_sit15 p (packed_len fi) (raw_len fi)
  else if method fi =? 0 then
    if packed_len fi <? raw_len fi
    then Err (SitMethod0Short (packed_len fi) (raw_len fi))
    else check_fork_crc (crc fi) (span p (raw_len fi))
  else if method fi =? 1 then
    check_fork_crc (crc fi) (rle90 (span p (packed_len fi)) (raw_len fi) [] 0)
  else if method fi =? 2 then
    let lzw := lzw_create p (packed_len fi) in
    check_fork_crc (crc fi)
      (match lzw_decode lzw (raw_len fi) with
       | Some (_, out) => out
       | None => []       (* not reached: [lzw_decode_defined] *)
       end)
  else Err (SitUnsupportedMethod (method fi)).

Definition classic_sigs : list bytes :=
  map lit ["SIT!"; "ST46"; "ST50"; "ST60"; "ST65";
           "STin"; "STi2"; "STi3"; "STi4"]%string.

(** The loop [for (off = first; off <= limit; ++off)] of a magic scan:
    [p] is [src + off], [n] the number of offsets still to try. *)
Fixpoint scan (test : bytes -> bool) (p : bytes) (off : Z) (n : nat)
  : option Z :=
  match n with
  | O => None
  | S n' => if test p then Some off else scan test (advance p 1) (off + 1) n'
  end.

Definition classic_magic_at (p : bytes) : bool :=
  bytes_eqb (span (advance p 10) 4) (lit "rLau")
  && existsb (fun sig => bytes_eqb (span p 4) sig) classic_sigs.

Definition find_classic_magic (s : bytes) : option Z :=
  if len s <? SIT_CLASSIC_HDR_SIZE then None
  else scan classic_magic_at s 0 (Z.to_nat (len s - 14 + 1)).

Definition sit5_magic_at (p : bytes) : bool :=
  bytes_eqb (span p 16) (lit "StuffIt (c)1997-")
  && bytes_eqb (span (advance p 20) 58)
       (lit " Aladdin Systems, Inc., http://www.aladdinsys.com/StuffIt/").

Definition find_sit5_magic (s : bytes) : option Z :=
  if len s <? 80 then None
  else scan sit5_magic_at s 0 (Z.to_nat (len s - 80 + 1)).

(** The path loop of [parse_classic]: folder names with ['/'] after each,
    until the next one would not fit in [char path[512]]. *)
Fixpoint classic_dirs_path (dirs : list bytes) (path : bytes) : bytes :=
  match dirs with
  | [] => path
  | d :: rest =>
      let s := c_str d in
      if 512 <=? len path + len s + 1 then path
      else classic_dirs_path rest (path ++ s ++ [47])
  end.

Definition classic_path (dirs : list bytes) (fname : bytes) : bytes :=
  let path := classic_dirs_path dirs [] in
  path ++ take (c_strnlen fname (Z.to_nat (511 - len path))) fname.

Definition entry_list_push (entries : list sit_entry_t) (e : sit_entry_t)
  : result (list sit_entry_t) :=
  if SIT_MAX_FILES <=? len entries then Err SitTooManyFiles
  else Ok (entries ++ [e]).

(** What one turn of the [while (done < file_count)] loop of
    [parse_classic] does. *)
Inductive classic_turn_t : Type :=
  | TurnBreak                          (* [break]: the header is cut short *)
  | TurnFail (e : peel_err_t)          (* [return false] *)
  | TurnNext (cursor : Z) (dirs : list bytes) (entries : list sit_entry_t).

(** The body of the loop, at [cursor] with the folder stack
    [dirs[0 .. depth)] and the entries pushed so far. *)
Definition classic_turn (blob : bytes) (archive_off : Z)
    (cursor : Z) (dirs : list bytes) (entries : list sit_entry_t)
  : classic_turn_t :=
  let base := advance blob archive_off in
  let avail := len blob - archive_off in
  if avail <? cursor + SIT_ENTRY_HDR_SIZE then TurnBreak
  else
    let hdr := advance base cursor in
    let rm := at_ hdr 0 in
    let dm := at_ hdr 1 in
    if (rm =? SIT_FOLDER_START) || (dm =? SIT_FOLDER_START) then
      let nlen := at_ hdr 2 in
      let dirs' :=
        if (len dirs <? SIT_MAX_DEPTH) && (nlen <? 64)
        then dirs ++ [span (advance hdr 3) nlen] else dirs in
      TurnNext (u32 (cursor + SIT_ENTRY_HDR_SIZE)) dirs' entries
    else if (rm =? SIT_FOLDER_END) || (dm =? SIT_FOLDER_END) then
      TurnNext (u32 (cursor + SIT_ENTRY_HDR_SIZE)) (removelast dirs) entries
    else if negb (Z.land rm 0xE0 =? 0) || negb (Z.land dm 0xE0 =? 0) then
      TurnNext (u32 (cursor + SIT_ENTRY_HDR_SIZE)) dirs entries
    else
      let nlen := if 64 <=? at_ hdr 2 then 63 else at_ hdr 2 in
      let fname := span (advance hdr 3) nlen in
      let path := classic_path dirs fname in
      let ftype := rd32be (advance hdr 66) in
      let fcreator := rd32be (advance hdr 70) in
      let fflags := rd16be (advance hdr 74) in
      let rulen := rd32be (advance hdr 84) in
      let dulen := rd32be (advance hdr 88) in
      let rclen := rd32be (advance hdr 92) in
      let dclen := rd32be (advance hdr 96) in
      let rcrc := rd16be (advance hdr 100) in
      let dcrc := rd16be (advance hdr 102) in
      let rsrc_ptr := advance base (cursor + SIT_ENTRY_HDR_SIZE) in
      let data_ptr := advance rsrc_ptr rclen in
      let data_off := archive_off + cursor + SIT_ENTRY_HDR_SIZE + rclen in
      if len blob <? data_off + dclen then TurnFail SitClassicForkPastEnd
      else
        let ent :=
          {| ent_name := path;
             ent_mac_type := ftype;
             ent_mac_creator := fcreator;
             ent_finder_flags := fflags;
             ent_data_fork :=
               {| raw_len := dulen; packed_len := dclen; crc := dcrc;
                  method := Z.land dm 0x0F; data := data_ptr |};
             ent_rsrc_fork :=
               {| raw_len := rulen; packed_len := rclen; crc := rcrc;
                  method := Z.land rm 0x0F; data := rsrc_ptr |};
             has_rsrc := 0 <? rulen |} in
        match entry_list_push entries ent with
        | Err e => TurnFail e
        | Ok entries' =>
            TurnNext (u32 (cursor + SIT_ENTRY_HDR_SIZE + rclen + dclen))
                     dirs entries'
        end.

(** The loop itself; [todo] is [file_count - done], which every turn that
    stays in the loop lowers by one. *)
Fixpoint parse_classic_loop (todo : nat) (blob : bytes) (archive_off : Z)
    (cursor : Z) (dirs : list bytes) (entries : list sit_entry_t)
  : result (list sit_entry_t) :=
  match todo with
  | O => Ok entries
  | S todo' =>
      match classic_turn blob archive_off cursor dirs entries with
      | TurnBreak => Ok entries
      | TurnFail e => Err e
      | TurnNext cursor' dirs' entries' =>
          parse_classic_loop todo' blob archive_off cursor' dirs' entries'
      end
  end.

Definition parse_classic (blob : bytes) (archive_off : Z)
    (entries : list sit_entry_t) : result (list sit_entry_t) :=
  let base := advance blob archive_off in
  let avail := len blob - archive_off in
  if avail <? SIT_CLASSIC_HDR_SIZE then Err SitClassicTooSmall
  else
    let file_count := rd16be (advance base 4) in
    parse_classic_loop (Z.to_nat file_count) blob archive_off
      SIT_CLASSIC_HDR_SIZE [] entries.

(** [build_path]: the characters stored in [dst] before its terminator
    (nothing is stored when [cap] is 0).  [dir] and [name] are C strings. *)
Definition build_path (cap : Z) (dir name : bytes) : bytes :=
  if cap =? 0 then []
  else
    match dir with
    | c :: _ =>
        if c =? 0 then take (c_strnlen name (Z.to_nat (cap - 1))) name
        else
          let dl := c_strnlen dir (Z.to_nat (cap - 1)) in
          let head :=
            take dl dir ++ (if Z.of_nat dl <? cap - 1 then [47] else []) in
          let p := len head in
          let nl := c_strnlen name (Z.to_nat (cap - 1 - p)) in
          head ++ take nl name
    | [] => take (c_strnlen name (Z.to_nat (cap - 1))) name
    end.

(** [sit5_dir_entry_t] *)
Record sit5_dir_entry_t : Type := {
  dmap_offset : Z;
  dmap_path : bytes      (* the characters of [char path[512]] *)
}.

(** The walk of [parse_sit5]: the cursor, the entries still due, the
    directory map [dmap[0 .. dmap_cnt)] and the entries pushed so far. *)
Record sit5_walk_t : Type := {
  walk_cursor : Z;
  walk_remaining : Z;
  walk_dmap : list sit5_dir_entry_t;
  walk_entries : list sit_entry_t
}.

(** What one turn of the [while] loop of [parse_sit5] does. *)
Inductive sit5_turn_t : Type :=
  | Sit5Fail (e : peel_err_t)          (* [return false] *)
  | Sit5Next (w : sit5_walk_t).        (* [continue], or the end of the body *)

(** [char ppath[512] = ""] after the search of the directory map for
    [parent_off]. *)
Definition sit5_parent_path (dmap : list sit5_dir_entry_t) (parent_off : Z)
  : bytes :=
  if parent_off =? 0 then []
  else
    match List.find (fun d => dmap_offset d =? parent_off) dmap with
    | Some d => take 511 (dmap_path d)
    | None => []
    end.

(** The fork that [memset] leaves in an entry. *)
Definition zero_fork : sit_fork_info_t :=
  {| raw_len := 0; packed_len := 0; crc := 0; method := 0; data := [] |}.

(** The body of the loop.  The copy of header 1 whose CRC is computed has
    [h1_len] bytes, and the C code stores zero at its offsets 32 and 33.  For
    [h1_len < 34] these stores fall outside the block that [malloc] gave
    (which is taken to give one also for [h1_len = 0]); the copy is then
    what the stores inside it leave, and nothing else that the function
    reads is taken to change. *)
Definition sit5_turn (blob : bytes) (archive_off : Z) (w : sit5_walk_t)
  : sit5_turn_t :=
  let base := advance blob archive_off in
  let avail := len blob - archive_off in
  let cursor := walk_cursor w in
  let remaining := walk_remaining w in
  let h1 := advance base cursor in
  if negb (rd32be h1 =? SIT5_ENTRY_MAGIC) then Sit5Fail (Sit5EntryMagic cursor)
  else if negb (at_ h1 4 =? 1) then Sit5Fail (Sit5EntryVersion (at_ h1 4))
  else
    let h1_len := rd16be (advance h1 6) in
    if avail <? cursor + h1_len then Sit5Fail Sit5Header1PastEnd
    else
      let tmp := <[33%nat := 0]> (<[32%nat := 0]> (span h1 h1_len)) in
      let computed := sit_crc tmp in
      let stored := rd16be (advance h1 32) in
      if negb (computed =? stored) then Sit5Fail (Sit5HeaderCrc cursor)
      else
        let h2_off := u32 (cursor + h1_len) in
        let flags := at_ h1 9 in
        let parent_off := rd32be (advance h1 26) in
        let namelen := rd16be (advance h1 30) in
        let d_raw_len := rd32be (advance h1 34) in
        let d_packed_len := rd32be (advance h1 38) in
        let d_crc := rd16be (advance h1 42) in
        let cl := if 255 <? namelen then 255 else namelen in
        let cl := if avail <? cursor + 48 + cl then avail - cursor - 48 else cl in
        let namebuf := span (advance h1 48) cl in
        if avail <? h2_off + 32 then Sit5Fail Sit5Header2PastEnd
        else
          let h2 := advance base h2_off in
          let flags2 := rd16be h2 in
          let ftype := rd32be (advance h2 4) in
          let fcreator := rd32be (advance h2 8) in
          let fflags := rd16be (advance h2 12) in
          let skip_extra := if at_ h1 4 =? 1 then 22 else 18 in
          let rsrc_present := negb (Z.land flags2 0x01 =? 0) in
          (* [after_prefix - base] *)
          let after_prefix := h2_off + 14 + skip_extra in
          if rsrc_present && (len blob <? archive_off + after_prefix + 14)
          then Sit5Fail Sit5RsrcInfoPastEnd
          else
            let info := advance base after_prefix in
            let r_raw_len := if rsrc_present then rd32be info else 0 in
            let r_packed_len :=
              if rsrc_present then rd32be (advance info 4) else 0 in
            let r_crc := if rsrc_present then rd16be (advance info 8) else 0 in
            let r_algo := if rsrc_present then at_ info 12 else 0 in
            (* [payload_ptr - base] *)
            let payload :=
              if rsrc_present then after_prefix + 14 + at_ info 13
              else after_prefix in
            if negb (Z.land flags 0x40 =? 0) then
              let child_count := rd16be (advance h1 46) in
              if d_raw_len =? 0xFFFFFFFF then
                Sit5Next {| walk_cursor := h2_off;
                            walk_remaining := u32 (u32 (remaining + 1) - 1);
                            walk_dmap := walk_dmap w;
                            walk_entries := walk_entries w |}
              else
                let ppath := sit5_parent_path (walk_dmap w) parent_off in
                let folder_full := build_path 512 ppath namebuf in
                let dmap :=
                  if len (walk_dmap w) <? SIT5_MAX_DIRS
                  then walk_dmap w
                       ++ [ {| dmap_offset := cursor;
                               dmap_path := take 511 folder_full |} ]
                  else walk_dmap w in
                Sit5Next {| walk_cursor := u32 payload;
                            walk_remaining := u32 (remaining + child_count);
                            walk_dmap := dmap;
                            walk_entries := walk_entries w |}
            else if d_raw_len =? 0xFFFFFFFF then
              Sit5Next {| walk_cursor := h2_off;
                          walk_remaining := remaining;
                          walk_dmap := walk_dmap w;
                          walk_entries := walk_entries w |}
            else
              let d_algo := at_ h1 46 in
              let d_passlen := at_ h1 47 in
              if negb (Z.land flags 0x20 =? 0) && negb (d_raw_len =? 0)
                 && negb (d_passlen =? 0)
              then Sit5Fail Sit5Encrypted
              else
                let ppath := sit5_parent_path (walk_dmap w) parent_off in
                let full_name := build_path 512 ppath namebuf in
                let r_base := advance base payload in
                (* [d_base - base] *)
                let d_off :=
                  payload + (if rsrc_present then r_packed_len else 0) in
                let d_base := advance base d_off in
                if len blob <? archive_off + d_off + d_packed_len
                then Sit5Fail Sit5DataPastEnd
                else
                  let with_rsrc := rsrc_present && (0 <? r_raw_len) in
                  let ent :=
                    {| ent_name := take 511 full_name;
                       ent_mac_type := ftype;
                       ent_mac_creator := fcreator;
                       ent_finder_flags := fflags;
                       ent_data_fork :=
                         {| raw_len := d_raw_len; packed_len := d_packed_len;
                            crc := d_crc; method := Z.land d_algo 0x0F;
                            data := d_base |};
                       ent_rsrc_fork :=
                         if with_rsrc
                         then {| raw_len := r_raw_len;
                                 packed_len := r_packed_len; crc := r_crc;
                                 method := Z.land r_algo 0x0F;
                                 data := r_base |}
                         else zero_fork;
                       has_rsrc := with_rsrc |} in
                  match entry_list_push (walk_entries w) ent with
                  | Err e => Sit5Fail e
                  | Ok entries =>
                      Sit5Next {| walk_cursor := u32 (d_off + d_packed_len);
                                  walk_remaining := u32 (remaining - 1);
                                  walk_dmap := walk_dmap w;
                                  walk_entries := entries |}
                  end.

(** The condition of the loop. *)
Definition sit5_in_loop (blob : bytes) (archive_off : Z) (w : sit5_walk_t)
  : bool :=
  (0 <? walk_remaining w) && negb (walk_cursor w =? 0)
  && (walk_cursor w + 48 <=? len blob - archive_off).

(** The loop itself, cut after [fuel] turns: [None] when it has not
    returned by then.  The body has no bound of its own: a turn at a
    skipped entry (data length 0xFFFFFFFF) whose header 1 has length 0
    leaves the walk as it found it, and the loop then never ends
    ([parse_sit5_loop_stuck]). *)
Fixpoint parse_sit5_loop (fuel : nat) (blob : bytes) (archive_off : Z)
    (w : sit5_walk_t) : option (result (list sit_entry_t)) :=
  if sit5_in_loop blob archive_off w then
    match fuel with
    | O => None
    | S fuel' =>
        match sit5_turn blob archive_off w with
        | Sit5Fail e => Some (Err e)
        | Sit5Next w' => parse_sit5_loop fuel' blob archive_off w'
        end
    end
  else Some (Ok (walk_entries w)).

(** [parse_sit5].  In an archive of less than 4 GiB every turn that
    changes the walk moves the cursor forward, so a walk that returns does
    so within [len blob + 1] turns, and more turns change nothing
    ([parse_sit5_enough]); [None] is the answer for a walk that does not
    return. *)
Definition parse_sit5 (blob : bytes) (archive_off : Z)
    (entries : list sit_entry_t) : option (result (list sit_entry_t)) :=
  let base := advance blob archive_off in
  let avail := len blob - archive_off in
  if avail <? SIT5_MIN_SIZE then Some (Err (Sit5TooSmall avail))
  else
    let entry_count := rd16be (advance base 92) in
    let cursor := rd32be (advance base 94) in
    parse_sit5_loop (Z.to_nat (len blob + 1)) blob archive_off
      {| walk_cursor := cursor; walk_remaining := entry_count;
         walk_dmap := []; walk_entries := entries |}.

Definition has_fork_data (e : sit_entry_t) : bool :=
  (0 <? raw_len (ent_data_fork e))
  || (has_rsrc e && (0 <? raw_len (ent_rsrc_fork e))).

(** The second loop of [build_file_list], from entry [i] with [fi] files
    done ([files], in order). *)
Fixpoint build_file_loop (entries : list sit_entry_t) (fi file_count : Z)
    (files : list peel_file_t) : result peel_file_list_t :=
  match entries with
  | [] => Ok files
  | ent :: rest =>
      if negb (fi <? file_count) then Ok files
      else if negb (has_fork_data ent) then
        build_file_loop rest fi file_count files
      else
        let m :=
          {| name := take 255 (ent_name ent);
             mac_type := ent_mac_type ent;
             mac_creator := ent_mac_creator ent;
             finder_flags := ent_finder_flags ent |} in
        rbind (if 0 <? raw_len (ent_data_fork ent)
               then decompress_fork (ent_data_fork ent) else Ok [])
          (fun d =>
        rbind (if has_rsrc ent && (0 <? raw_len (ent_rsrc_fork ent))
               then decompress_fork (ent_rsrc_fork ent) else Ok [])
          (fun r =>
        build_file_loop rest (fi + 1) file_count
          (files ++ [{| meta := m; data_fork := d; resource_fork := r |}])))
  end.

Definition build_file_list (entries : list sit_entry_t)
  : result peel_file_list_t :=
  match entries with
  | [] => Ok []
  | _ =>
      let file_count := len (filter (fun e => has_fork_data e = true) entries) in
      build_file_loop entries 0 file_count []
  end.

Definition sit_detect (s : bytes) : bool :=
  match find_classic_magic s with
  | Some _ => true
  | None => match find_sit5_magic s with Some _ => true | None => false end
  end.

(** [peel_sit]; [None] when the SIT5 walk does not return. *)
Definition peel_sit (s : bytes) : option (result peel_file_list_t) :=
  let classic_off := find_classic_magic s in
  let sit5_off := find_sit5_magic s in
  let parsed :=
    match classic_off, sit5_off with
    | Some c, None => Some (parse_classic s c [])
    | Some c, Some f =>
        if c <=? f then Some (parse_classic s c []) else parse_sit5 s f []
    | None, Some f => parse_sit5 s f []
    | None, None => Some (Err SitNoSignature)
    end in
  option_map (fun entries => rbind entries build_file_list) parsed.

End Engines.

End Sit.

(** ** hqx.c: BinHex 4.0 *)

Module Hqx.

Definition HQX_PREAMBLE : bytes := lit "(This file must be converted with BinHex".
Definition RLE_MARKER := 0x90.
Definition HQX_NAME_MAX := 63.
Definition FINDER_CLEAR_MASK := 0x4084.

Definition hqx_alphabet : bytes :=
  lit "!" ++ [34] ++
  lit "#$%&'()*+,-012345689@ABCDEFGHIJKLMNPQRSTUVXYZ[`abcdefhijklmpqr".

(** [hqx_decoder_t]; [src] is the input from [src_pos] on.  The reverse
    table [rev] is the function [hqx_rev]. *)
Record hqx_decoder_t : Type := {
  src : bytes;
  accum : Z;
  accum_bits : Z;
  rle_marker_seen : bool;
  rle_prev : Z;
  rle_pending : Z
}.

(** [hqx_header_t] *)
Record hqx_header_t : Type := {
  hdr_name : bytes;
  name_len : Z;
  hdr_mac_type : Z;
  hdr_mac_creator : Z;
  hdr_finder_flags : Z;
  data_len : Z;
  rsrc_len : Z
}.

Fixpoint skip_while (f : Z -> bool) (p : bytes) : bytes :=
  match p with
  | c :: rest => if f c then skip_while f rest else p
  | [] => []
  end.

Definition is_eol (c : Z) : bool := (c =? 10) || (c =? 13).

(** The search loop of [hqx_find_preamble]: [p] is [src + i], [n] the number
    of positions still to try.  The result is [src + j]. *)
Fixpoint hqx_preamble_scan (p : bytes) (n : nat) : option bytes :=
  match n with
  | O => None
  | S n' =>
      if bytes_eqb (span p (len HQX_PREAMBLE)) HQX_PREAMBLE then
        Some (skip_while is_eol
                (skip_while (fun c => negb (is_eol c))
                   (advance p (len HQX_PREAMBLE))))
      else hqx_preamble_scan (advance p 1) n'
  end.

Definition hqx_find_preamble (s : bytes) : option bytes :=
  if len s <? len HQX_PREAMBLE then None
  else hqx_preamble_scan s (Z.to_nat (len s - len HQX_PREAMBLE + 1)).

(** The input just after the first colon at or after [p]. *)
Fixpoint hqx_find_start_colon (p : bytes) : option bytes :=
  match p with
  | [] => None
  | c :: rest => if c =? 58 then Some rest else hqx_find_start_colon rest
  end.

Definition hqx_decoder_init (payload : bytes) : hqx_decoder_t :=
  {| src := payload; accum := 0; accum_bits := 0;
     rle_marker_seen := false; rle_prev := 0; rle_pending := 0 |}.

(** The reverse lookup table built by [hqx_decoder_init]. *)
Fixpoint index_of (c : Z) (l : bytes) (i : Z) : Z :=
  match l with
  | [] => 0xFF
  | x :: rest => if x =? c then i else index_of c rest (i + 1)
  end.

Definition hqx_rev (ch : Z) : Z := index_of ch hqx_alphabet 0.

Definition is_space (ch : Z) : bool :=
  (ch =? 13) || (ch =? 10) || (ch =? 9) || (ch =? 32).

(** [hqx_next_char]: the character, or [None] at the closing colon or at the
    end of the input, and the input after the bytes consumed. *)
Fixpoint hqx_next_char (p : bytes) : option Z * bytes :=
  match p with
  | [] => (None, [])
  | ch :: rest =>
      if ch =? 58 then (None, rest)
      else if is_space ch then hqx_next_char rest
      else (Some ch, rest)
  end.

Definition with_src (dec : hqx_decoder_t) (p : bytes) : hqx_decoder_t :=
  {| src := p; accum := accum dec; accum_bits := accum_bits dec;
     rle_marker_seen := rle_marker_seen dec; rle_prev := rle_prev dec;
     rle_pending := rle_pending dec |}.

(** The loop [while (dec->accum_bits < 8)] of [hqx_raw_byte], for at most
    [n] turns; the flag tells that the loop was left by [return -1].  Six
    bits come in at every turn, so two turns always end it
    ([hqx_fill_two_turns]). *)
Fixpoint hqx_fill (n : nat) (dec : hqx_decoder_t)
  : result (bool * hqx_decoder_t) :=
  if accum_bits dec <? 8 then
    match n with
    | O => Ok (false, dec)
    | S n' =>
        match hqx_next_char (src dec) with
        | (None, rest) => Ok (true, with_src dec rest)
        | (Some ch, rest) =>
            let val := hqx_rev ch in
            if 63 <? val then Err (HqxInvalidChar ch)
            else
              hqx_fill n'
                {| src := rest;
                   accum := u32 (Z.lor (Z.shiftl (accum dec) 6) val);
                   accum_bits := accum_bits dec + 6;
                   rle_marker_seen := rle_marker_seen dec;
                   rle_prev := rle_prev dec;
                   rle_pending := rle_pending dec |}
        end
    end
  else Ok (false, dec).

(** [hqx_raw_byte]: the byte (or [None] for -1) and the decoder after it. *)
Definition hqx_raw_byte (dec : hqx_decoder_t)
  : result (option Z * hqx_decoder_t) :=
  rbind (hqx_fill 2 dec) (fun filled =>
    match filled with
    | (true, d) => Ok (None, d)
    | (false, d) =>
        let bits := accum_bits d - 8 in
        Ok (Some (Z.land (Z.shiftr (accum d) bits) 0xFF),
            {| src := src d; accum := accum d; accum_bits := bits;
               rle_marker_seen := rle_marker_seen d; rle_prev := rle_prev d;
               rle_pending := rle_pending d |})
    end).

Definition set_rle (dec : hqx_decoder_t) (seen : bool) (prev pending : Z)
  : hqx_decoder_t :=
  {| src := src dec; accum := accum dec; accum_bits := accum_bits dec;
     rle_marker_seen := seen; rle_prev := prev; rle_pending := pending |}.

(** The branch [if (dec->rle_marker_seen)] of [hqx_decoded_byte], on the
    count byte [raw]. *)
Definition hqx_after_marker (dec : hqx_decoder_t) (raw : Z)
  : result (option Z * hqx_decoder_t) :=
  if raw =? 0 then
    Ok (Some RLE_MARKER, set_rle dec false RLE_MARKER (rle_pending dec))
  else if raw =? 1 then Err HqxIllegalRleCount
  else Ok (Some (rle_prev dec), set_rle dec false (rle_prev dec) (raw - 2)).

(** [hqx_decoded_byte].  The [for (;;)] loop is written out: a second turn
    is taken only after a marker byte, starts with [rle_marker_seen] set,
    and so returns. *)
Definition hqx_decoded_byte (dec : hqx_decoder_t)
  : result (option Z * hqx_decoder_t) :=
  if 0 <? rle_pending dec then
    Ok (Some (rle_prev dec),
        set_rle dec (rle_marker_seen dec) (rle_prev dec) (rle_pending dec - 1))
  else
    rbind (hqx_raw_byte dec) (fun r1 =>
      match r1 with
      | (None, d1) => Ok (None, d1)
      | (Some raw, d1) =>
          if rle_marker_seen d1 then hqx_after_marker d1 raw
          else if u8 raw =? RLE_MARKER then
            let d2 := set_rle d1 true (rle_prev d1) (rle_pending d1) in
            rbind (hqx_raw_byte d2) (fun r2 =>
              match r2 with
              | (None, d3) => Ok (None, d3)
              | (Some raw2, d3) => hqx_after_marker d3 raw2
              end)
          else Ok (Some raw, set_rle d1 false (u8 raw) (rle_pending d1))
      end).

(** [hqx_read_bytes]: [n] decoded bytes, or the abort at the first missing
    one. *)
Fixpoint hqx_read_bytes (dec : hqx_decoder_t) (n : nat)
  : result (bytes * hqx_decoder_t) :=
  match n with
  | O => Ok ([], dec)
  | S n' =>
      rbind (hqx_decoded_byte dec) (fun r =>
        match r with
        | (None, _) => Err (HqxPrematureEnd (Z.of_nat n))
        | (Some b, d) =>
            rbind (hqx_read_bytes d n') (fun r' =>
              Ok (u8 b :: fst r', snd r'))
        end)
  end.

Definition hqx_parse_header (dec : hqx_decoder_t)
  : result (hqx_header_t * hqx_decoder_t) :=
  rbind (hqx_read_bytes dec 1) (fun r0 =>
    let name_len_byte := at_ (fst r0) 0 in
    if (name_len_byte =? 0) || (HQX_NAME_MAX <? name_len_byte)
    then Err (HqxInvalidNameLen name_len_byte)
    else
      let payload_len := name_len_byte + 19 in
      rbind (hqx_read_bytes (snd r0) (Z.to_nat (payload_len + 2))) (fun r1 =>
        let buf := name_len_byte :: fst r1 in
        if negb (Crc16.crc16_ccitt buf =? 0) then Err HqxHeaderCrc
        else
          let n := name_len_byte in
          Ok ({| hdr_name := span (advance buf 1) (Z.min n HQX_NAME_MAX);
                 name_len := n;
                 hdr_mac_type := rd32be (advance buf (2 + n));
                 hdr_mac_creator := rd32be (advance buf (6 + n));
                 hdr_finder_flags := rd16be (advance buf (10 + n));
                 data_len := rd32be (advance buf (12 + n));
                 rsrc_len := rd32be (advance buf (16 + n)) |},
              snd r1))).

(** The chunk loop of [hqx_read_fork]: [k] bounds the number of chunks. *)
Fixpoint hqx_read_chunks (k : nat) (dec : hqx_decoder_t) (remaining : Z)
    (acc : bytes) : result (bytes * hqx_decoder_t) :=
  if 0 <? remaining then
    match k with
    | O => Ok (acc, dec)
    | S k' =>
        let batch := Z.min remaining 4096 in
        rbind (hqx_read_bytes dec (Z.to_nat batch)) (fun r =>
          hqx_read_chunks k' (snd r) (remaining - batch) (acc ++ fst r))
    end
  else Ok (acc, dec).

Definition hqx_read_fork (dec : hqx_decoder_t) (fork_len : Z)
    (fork_name : string) : result (bytes * hqx_decoder_t) :=
  if fork_len =? 0 then
    rbind (hqx_read_bytes dec 2) (fun r =>
      let stored_crc := rd16be (fst r) in
      if negb (stored_crc =? 0) then Err (HqxEmptyForkCrc fork_name)
      else Ok ([], snd r))
  else
    rbind (hqx_read_chunks (Z.to_nat ((fork_len + 4095) / 4096)) dec fork_len [])
      (fun r =>
    rbind (hqx_read_bytes (snd r) 2) (fun c =>
      let crc := Crc16.crc16_ccitt (fst r) in
      let crc := Crc16.crc16_ccitt_update crc (fst c) in
      if negb (crc =? 0) then Err (HqxForkCrc fork_name)
      else Ok (fst r, snd c))).

Definition hqx_file (hdr : hqx_header_t) (d r : bytes) : peel_file_t :=
  {| meta :=
       {| name := c_str (span (hdr_name hdr) (name_len hdr));
          mac_type := hdr_mac_type hdr;
          mac_creator := hdr_mac_creator hdr;
          finder_flags :=
            Z.land (hdr_finder_flags hdr) (u16 (Z.lnot FINDER_CLEAR_MASK)) |};
     data_fork := d;
     resource_fork := r |}.

Definition hqx_decode (s : bytes) : result peel_file_t :=
  match hqx_find_preamble s with
  | None => Err HqxPreambleNotFound
  | Some after_preamble =>
      match hqx_find_start_colon after_preamble with
      | None => Err HqxNoStartColon
      | Some payload =>
          let dec := hqx_decoder_init payload in
          rbind (hqx_parse_header dec) (fun h =>
          rbind (hqx_read_fork (snd h) (data_len (fst h)) "data") (fun d =>
          rbind (hqx_read_fork (snd d) (rsrc_len (fst h)) "resource") (fun r =>
            Ok (hqx_file (fst h) (fst d) (fst r)))))
      end
  end.

Definition hqx_detect (s : bytes) : bool :=
  match hqx_find_preamble s with Some _ => true | None => false end.

Definition peel_hqx (s : bytes) : result bytes :=
  rbind (hqx_decode s) (fun file => Ok (data_fork file)).

Definition peel_hqx_file (s : bytes) : result peel_file_t := hqx_decode s.

End Hqx.

(** ** bin.c: MacBinary *)

Module Bin.

Definition MB_BLOCK := 128.
Definition MB_NAME_MAX := 63.
Definition FINDER_CLEAR_MASK :=
  Z.lor (Z.lor (Z.lor (Z.lor (Z.shiftl 1 0) (Z.shiftl 1 1)) (Z.shiftl 1 8))
               (Z.shiftl 1 9)) (Z.shiftl 1 10).

(** [bin_header_t] *)
Record bin_header_t : Type := {
  hdr_name : bytes;
  name_len : Z;
  hdr_mac_type : Z;
  hdr_mac_creator : Z;
  hdr_finder_flags : Z;
  data_len : Z;
  rsrc_len : Z;
  sec_hdr_len : Z
}.

Definition pad128 (n : Z) : Z := (MB_BLOCK - n mod MB_BLOCK) mod MB_BLOCK.

Definition sit5_banner_16 : bytes := lit "StuffIt (c)1997-".
Definition sit5_banner_58 : bytes :=
  lit " Aladdin Systems, Inc., http://www.aladdinsys.com/StuffIt/".

Definition sigs : list bytes :=
  map lit ["SIT!"; "ST46"; "ST50"; "ST60"; "ST65";
           "STin"; "STi2"; "STi3"; "STi4"]%string.

Definition looks_like_sit (buf : bytes) : bool :=
  if (80 <=? len buf)
     && bytes_eqb (span buf 16) sit5_banner_16
     && bytes_eqb (span (advance buf 20) 58) sit5_banner_58
  then true
  else if 14 <=? len buf then
    existsb (fun sig => bytes_eqb (span buf 4) sig
                        && bytes_eqb (span (advance buf 10) 4) (lit "rLau"))
            sigs
  else false.

Definition bin_validate (hdr : bytes) : bool :=
  if negb (at_ hdr 0 =? 0) then false
  else if negb (at_ hdr 74 =? 0) then false
  else
    let name_len := at_ hdr 1 in
    if (name_len =? 0) || (MB_NAME_MAX <? name_len) then false
    else
      let crc_calc := Crc16.crc16_ccitt (span hdr 124) in
      let crc_stored := rd16be (advance hdr 124) in
      if negb (crc_calc =? crc_stored) && negb (at_ hdr 82 =? 0) then false
      else true.

Definition bin_parse_header (hdr : bytes) : bin_header_t :=
  let n := at_ hdr 1 in
  {| hdr_name := span (advance hdr 2) (Z.min n MB_NAME_MAX);
     name_len := n;
     hdr_mac_type := rd32be (advance hdr 65);
     hdr_mac_creator := rd32be (advance hdr 69);
     hdr_finder_flags := u16 (Z.lor (Z.shiftl (at_ hdr 73) 8) (at_ hdr 101));
     data_len := rd32be (advance hdr 83);
     rsrc_len := rd32be (advance hdr 87);
     sec_hdr_len := rd16be (advance hdr 120) |}.

Definition bin_decode (s : bytes) : result peel_file_t :=
  if len s <? MB_BLOCK then Err (BinTooShort (len s))
  else if negb (bin_validate s) then Err BinInvalidHeader
  else
    let hdr := bin_parse_header s in
    if (0x7FFFFFFF <? data_len hdr) || (0x7FFFFFFF <? rsrc_len hdr)
    then Err BinForkTooLong
    else
      let pos :=
        if 0 <? sec_hdr_len hdr
        then MB_BLOCK + (sec_hdr_len hdr + pad128 (sec_hdr_len hdr))
        else MB_BLOCK in
      if len s <? pos + data_len hdr then Err BinDataTruncated
      else
        let data_fork :=
          if 0 <? data_len hdr then span (advance s pos) (data_len hdr)
          else [] in
        let pos := pos + (data_len hdr + pad128 (data_len hdr)) in
        if len s <? pos + rsrc_len hdr then Err BinRsrcTruncated
        else
          let rsrc_fork :=
            if 0 <? rsrc_len hdr then span (advance s pos) (rsrc_len hdr)
            else [] in
          Ok {| meta :=
                  {| name := c_str (span (hdr_name hdr) (name_len hdr));
                     mac_type := hdr_mac_type hdr;
                     mac_creator := hdr_mac_creator hdr;
                     finder_flags :=
                       Z.land (hdr_finder_flags hdr)
                              (u16 (Z.lnot FINDER_CLEAR_MASK)) |};
                data_fork := data_fork;
                resource_fork := rsrc_fork |}.

Definition bin_detect (s : bytes) : bool :=
  if len s <? MB_BLOCK then false else bin_validate s.

(** [peel_bin].  A fork buffer has a null [data] pointer exactly when it is
    empty, so [file.data_fork.data && ...] is the test for a nonempty fork. *)
Definition peel_bin (s : bytes) : result bytes :=
  rbind (bin_decode s) (fun file =>
    let data_is_sit :=
      negb (len (data_fork file) =? 0) && looks_like_sit (data_fork file) in
    if data_is_sit || (len (resource_fork file) =? 0)
    then Ok (data_fork file)
    else Ok (resource_fork file)).

Definition peel_bin_file (s : bytes) : result peel_file_t := bin_decode s.

End Bin.

(** ** cpt.c: the run-length stage of Compact Pro *)

Module Cpt.

(** The byte supplier [cp_getbyte_fn] with its context: [next] is the
    callback.  It answers the byte stored through [out], or [None] for the
    return value 0, and the context as the call leaves it: a supplier may
    change its context also when it has no byte to give, as [cp_lzh_next]
    does when it gives up in the middle of a code. *)
Class ByteSource (Src : Type) : Type := {
  next : Src -> option Z * Src
}.

(** [cp_memsrc_t] with [cp_memsrc_next]: the bytes between [pos] and [end];
    at the end the source is left as it is. *)
#[global] Instance cp_memsrc : ByteSource bytes := {|
  next m := match m with [] => (None, []) | b :: rest => (Some b, rest) end
|}.

Section Rle.

Context {Src : Type} `{ByteSource Src}.

(** [cp_rle_t] *)
Record cp_rle_t : Type := {
  src_ctx : Src;
  prev_byte : Z;
  run_left : Z;
  escape_pending : bool
}.

Definition cp_rle_init (ctx : Src) : cp_rle_t :=
  {| src_ctx := ctx; prev_byte := 0; run_left := 0; escape_pending := false |}.

(** [cp_rle_read]: [room] is [max - written]; every turn of the loop that
    does not return stores one byte.  The result is the bytes stored at
    [dst] (their number is the return value) and the state left behind. *)
Fixpoint cp_rle_read (room : nat) (r : cp_rle_t) : bytes * cp_rle_t :=
  match room with
  | O => ([], r)
  | S room' =>
      let emit (b : Z) (r' : cp_rle_t) :=
        let '(out, r'') := cp_rle_read room' r' in (u8 b :: out, r'') in
      if 0 <? run_left r then
        emit (prev_byte r)
             {| src_ctx := src_ctx r; prev_byte := prev_byte r;
                run_left := run_left r - 1;
                escape_pending := escape_pending r |}
      else
        let fetched :=
          if escape_pending r
          then (Some 0x81,
                {| src_ctx := src_ctx r; prev_byte := prev_byte r;
                   run_left := run_left r; escape_pending := false |})
          else let '(b, ctx) := next (src_ctx r) in
               (b, {| src_ctx := ctx; prev_byte := prev_byte r;
                      run_left := run_left r;
                      escape_pending := escape_pending r |}) in
        match fetched with
        | (None, r1) => ([], r1)
        | (Some byte_val, r1) =>
            if negb (byte_val =? 0x81) then
              emit byte_val
                   {| src_ctx := src_ctx r1; prev_byte := byte_val;
                      run_left := run_left r1;
                      escape_pending := escape_pending r1 |}
            else
              match next (src_ctx r1) with
              | (None, ctx2) =>
                  ([], {| src_ctx := ctx2; prev_byte := prev_byte r1;
                          run_left := run_left r1;
                          escape_pending := escape_pending r1 |})
              | (Some nxt, ctx2) =>
                  if nxt =? 0x82 then
                    match next ctx2 with
                    | (None, ctx3) =>
                        ([], {| src_ctx := ctx3; prev_byte := prev_byte r1;
                                run_left := run_left r1;
                                escape_pending := escape_pending r1 |})
                    | (Some count, ctx3) =>
                        if count =? 0 then
                          emit 0x81
                               {| src_ctx := ctx3; prev_byte := 0x82;
                                  run_left := 1;
                                  escape_pending := escape_pending r1 |}
                        else
                          emit (prev_byte r1)
                               {| src_ctx := ctx3; prev_byte := prev_byte r1;
                                  run_left :=
                                    if 2 <=? count then count - 2 else 0;
                                  escape_pending := escape_pending r1 |}
                    end
                  else if nxt =? 0x81 then
                    emit 0x81
                         {| src_ctx := ctx2; prev_byte := 0x81;
                            run_left := run_left r1; escape_pending := true |}
                  else
                    emit 0x81
                         {| src_ctx := ctx2; prev_byte := nxt;
                            run_left := 1;
                            escape_pending := escape_pending r1 |}
              end
        end
  end.

End Rle.

Definition cpt_detect (s : bytes) : bool :=
  if len s <? 8 then false
  else if negb (at_ s 0 =? 0x01) || negb (at_ s 1 =? 0x01) then false
  else
    let dir_off := rd32be (advance s 4) in
    if (dir_off <? 8) || (0x10000000 <? dir_off) then false else true.

(** *** Fork streams, the directory and [peel_cpt] *)

Definition CP_MAGIC := 0x01.
Definition CP_VOLUME_SINGLE := 0x01.
Definition CP_FLAG_ENCRYPT := 0x0001.
Definition CP_FLAG_RSRC_LZH := 0x0002.
Definition CP_FLAG_DATA_LZH := 0x0004.
Definition CP_DIR_MARKER := 0x80.

(** [cp_memsrc_init]: the [length] bytes at [offset] of the archive.  When
    the range does not fit, the C function returns -1 and leaves the source
    as [memset] made it, which is a source at its end. *)
Definition cp_memsrc_init (archive : bytes) (offset length : Z) : bytes :=
  if (len archive <? offset) || (len archive - offset <? length) then []
  else span (advance archive offset) length.

Section Fork.

Context {Src : Type} `{ByteSource Src}.

(** [cp_fork_t]: the run-length decoder on its byte supplier, which is the
    memory source or the LZH decoder on the memory source. *)
Record cp_fork_t : Type := {
  rle : @cp_rle_t Src;
  remain : Z;
  done : bool
}.

(** What [cp_fork_init_rle] and [cp_fork_init_lzh] share, given the byte
    supplier they set up. *)
Definition cp_fork_init (ctx : Src) (uncomp_len : Z) : cp_fork_t :=
  {| rle := cp_rle_init ctx; remain := uncomp_len;
     done := uncomp_len =? 0 |}.

(** [cp_fork_read]: the bytes stored at [dst] and the stream after them. *)
Definition cp_fork_read (f : cp_fork_t) (max : Z) : bytes * cp_fork_t :=
  if done f || (remain f =? 0) then ([], f)
  else
    let max := if remain f <? max then remain f else max in
    let '(out, r) := cp_rle_read (Z.to_nat max) (rle f) in
    let n := len out in
    if n <=? 0 then ([], {| rle := r; remain := remain f; done := true |})
    else
      let left := remain f - n in
      (out, {| rle := r; remain := left;
               done := if left =? 0 then true else done f |}).

(** The loop [for (;;)] of [cp_decompress_fork], cut after [fuel] turns;
    every turn but the last takes at least one byte off [remain]. *)
Fixpoint cp_fork_drain (fuel : nat) (f : cp_fork_t) (out : bytes)
  : option bytes :=
  match fuel with
  | O => None
  | S fuel' =>
      let '(chunk, f') := cp_fork_read f 8192 in
      if len chunk <=? 0 then Some out
      else cp_fork_drain fuel' f' (out ++ chunk)
  end.

End Fork.

(** [cp_entry_t] *)
Record cp_entry_t : Type := {
  cp_name : bytes;       (* the characters of [char name[256]] *)
  volume : Z;
  file_offset : Z;
  type : Z;
  creator : Z;
  create_date : Z;
  mod_date : Z;
  cp_finder_flags : Z;
  data_crc : Z;
  flags : Z;
  rsrc_uncomp : Z;
  data_uncomp : Z;
  rsrc_comp : Z;
  data_comp : Z
}.

(** [cp_join_path]: the characters stored in [dst] before its terminator.
    [parent] is a C string; [seg] is copied with [memcpy], NUL bytes
    included. *)
Definition cp_join_path (parent seg : bytes) (seg_len : Z) : bytes :=
  let head :=
    match parent with
    | c :: _ =>
        if c =? 0 then []
        else
          let plen := c_strnlen parent 255 in
          take plen parent ++ (if (plen <? 255)%nat then [47] else [])
    | [] => []
    end in
  let dp := len head in
  let seg_len := if 255 - dp <? seg_len then 255 - dp else seg_len in
  if 0 <? seg_len then head ++ span seg seg_len else head.

(** The messages of [peel_cpt], one constructor per [make_err] and
    [decode_abort]. *)
Inductive cpt_err_t : Type :=
  | CptTooShort (n : Z)          (* "CPT: input too short (%zu bytes)" *)
  | CptBadMagic (b0 b1 : Z)      (* "CPT: bad magic (0x%02X 0x%02X)" *)
  | CptDirOffset (dir_off : Z)   (* "CPT: directory offset out of range (%u)" *)
  | CptParseDirectory            (* "CPT: failed to parse directory" *)
  | CptEncrypted (name : bytes)  (* "CPT: file '%s' is encrypted (unsupported)" *)
  | CptRsrcPastEnd (name : bytes)
      (* "CPT: resource fork of '%s' extends past archive" *)
  | CptDataPastEnd (name : bytes)
      (* "CPT: data fork of '%s' extends past archive" *).

(** What [cp_walk_entries] returns: -1, or 0 with the entry list and the
    cursor it leaves. *)
Inductive cp_walk_t : Type :=
  | WalkFail
  | WalkOk (entries : list cp_entry_t) (cursor : Z).

(** [cp_walk_entries] at [cursor] with [remaining] entries to read under
    [parent].  The recursion into a folder and the turns of the loop are
    both counted by [fuel]; [None] is the answer only when it runs out,
    which [len data + 1] units never do ([cp_walk_entries_enough]). *)
Fixpoint cp_walk_entries (fuel : nat) (data : bytes)
    (ar : list cp_entry_t) (cursor remaining : Z) (parent : bytes)
  : option cp_walk_t :=
  if remaining <=? 0 then Some (WalkOk ar cursor)
  else
    match fuel with
    | O => None
    | S fuel' =>
        let size := len data in
        if size <=? cursor then Some WalkFail
        else
          let nl_flag := at_ data cursor in
          let nlen := Z.land nl_flag 0x7F in
          let is_dir := negb (Z.land nl_flag CP_DIR_MARKER =? 0) in
          if size <? cursor + 1 + nlen then Some WalkFail
          else
            let cplen := if nlen <? 255 then nlen else 255 in
            let seg := span (advance data (cursor + 1)) cplen in
            let cursor := cursor + 1 + nlen in
            let full := cp_join_path parent seg cplen in
            if is_dir then
              if size <? cursor + 2 then Some WalkFail
              else
                let child_cnt := rd16be (advance data cursor) in
                match cp_walk_entries fuel' data ar (cursor + 2) child_cnt
                        full with
                | None => None
                | Some WalkFail => Some WalkFail
                | Some (WalkOk ar' cursor') =>
                    cp_walk_entries fuel' data ar' cursor'
                      (remaining - (child_cnt + 1)) parent
                end
            else
              if size <? cursor + 45 then Some WalkFail
              else
                let m := advance data cursor in
                let fe :=
                  {| cp_name := c_str full;
                     volume := at_ m 0;
                     file_offset := rd32be (advance m 1);
                     type := rd32be (advance m 5);
                     creator := rd32be (advance m 9);
                     create_date := rd32be (advance m 13);
                     mod_date := rd32be (advance m 17);
                     cp_finder_flags := rd16be (advance m 21);
                     data_crc := rd32be (advance m 23);
                     flags := rd16be (advance m 27);
                     rsrc_uncomp := rd32be (advance m 29);
                     data_uncomp := rd32be (advance m 33);
                     rsrc_comp := rd32be (advance m 37);
                     data_comp := rd32be (advance m 41) |} in
                cp_walk_entries fuel' data (ar ++ [fe]) (cursor + 45)
                  (remaining - 1) parent
    end.

(** [cp_parse_directory]: the entries, or [None] for -1. *)
Definition cp_parse_directory (data : bytes) (dir_off : Z)
  : option (list cp_entry_t) :=
  let size := len data in
  if size <? dir_off + 7 then None
  else
    let total := rd16be (advance data (dir_off + 4)) in
    let comment_len := at_ data (dir_off + 6) in
    let cursor := dir_off + 7 + comment_len in
    if size <? cursor then None
    else
      match cp_walk_entries (Z.to_nat (size + 1)) data [] cursor total [] with
      | Some (WalkOk ar _) => Some ar
      | _ => None
      end.

(** The LZH decoder of cpt.c is not embedded: [peel_cpt] and the functions
    it calls take it as a byte supplier [Lzh] that [cp_lzh_init] sets up on
    the memory source. *)
Section Extract.

Context {Lzh : Type} `{ByteSource Lzh}.
Variable cp_lzh_init : bytes -> Lzh.

(** [cp_decompress_fork].  The loop ends within [uncomp_len + 1] turns
    ([cp_fork_drain_ends]), so the last case is not reached. *)
Definition cp_decompress_fork (archive : bytes)
    (comp_offset comp_len uncomp_len : Z) (use_lzh : bool) : bytes :=
  let m := cp_memsrc_init archive comp_offset comp_len in
  let fuel := Z.to_nat (uncomp_len + 1) in
  let drained :=
    if use_lzh
    then cp_fork_drain fuel (cp_fork_init (cp_lzh_init m) uncomp_len) []
    else cp_fork_drain fuel (cp_fork_init m uncomp_len) [] in
  match drained with
  | Some out => out
  | None => []
  end.

Definition cp_has_fork (e : cp_entry_t) : bool :=
  (0 <? data_uncomp e) || (0 <? rsrc_uncomp e).

(** The loop of [peel_cpt] over the entries, from entry [i] with [fi] files
    done ([files], in order). *)
Fixpoint cp_file_loop (s : bytes) (entries : list cp_entry_t)
    (fi file_count : Z) (files : list peel_file_t)
  : cpt_err_t + peel_file_list_t :=
  match entries with
  | [] => inr files
  | e :: rest =>
      if negb (fi <? file_count) then inr files
      else if (data_uncomp e =? 0) && (rsrc_uncomp e =? 0) then
        cp_file_loop s rest fi file_count files
      else if negb (Z.land (flags e) CP_FLAG_ENCRYPT =? 0) then
        inl (CptEncrypted (cp_name e))
      else
        let rsrc_offset := file_offset e in
        let data_offset := rsrc_offset + rsrc_comp e in
        if len s <? rsrc_offset + rsrc_comp e then
          inl (CptRsrcPastEnd (cp_name e))
        else if len s <? data_offset + data_comp e then
          inl (CptDataPastEnd (cp_name e))
        else
          let r :=
            if 0 <? rsrc_uncomp e
            then cp_decompress_fork s rsrc_offset (rsrc_comp e)
                   (rsrc_uncomp e)
                   (negb (Z.land (flags e) CP_FLAG_RSRC_LZH =? 0))
            else [] in
          let d :=
            if 0 <? data_uncomp e
            then cp_decompress_fork s data_offset (data_comp e)
                   (data_uncomp e)
                   (negb (Z.land (flags e) CP_FLAG_DATA_LZH =? 0))
            else [] in
          cp_file_loop s rest (fi + 1) file_count
            (files ++ [ {| meta := {| name := cp_name e;
                                      mac_type := type e;
                                      mac_creator := creator e;
                                      finder_flags := cp_finder_flags e |};
                           data_fork := d; resource_fork := r |} ])
  end.

(** [peel_cpt]: the error reported, or the file list.  When no entry has a
    fork, [calloc] is asked for zero files; it is taken to return a pointer,
    as an allocation that succeeds does. *)
Definition peel_cpt (s : bytes) : cpt_err_t + peel_file_list_t :=
  if len s <? 8 then inl (CptTooShort (len s))
  else if negb (at_ s 0 =? CP_MAGIC) || negb (at_ s 1 =? CP_VOLUME_SINGLE)
  then inl (CptBadMagic (at_ s 0) (at_ s 1))
  else
    let dir_off := rd32be (advance s 4) in
    if (dir_off <? 8) || (0x10000000 <? dir_off) || (len s <=? dir_off)
    then inl (CptDirOffset dir_off)
    else
      match cp_parse_directory s dir_off with
      | None => inl CptParseDirectory
      | Some [] => inr []
      | Some entries =>
          let file_count := len (List.filter cp_has_fork entries) in
          cp_file_loop s entries 0 file_count []
      end.

End Extract.

End Cpt.

(** ** peeler.c: the driver *)

Module Peeler.

Definition MAX_PEEL_DEPTH := 32.

(** [peel_format_t].  An entry of the handler table carries exactly one of
    the two peel functions, the other pointer being null; [kind] and the
    function it selects are one value here.  A peel function answers [None]
    for a call that does not return. *)
Inductive peel_fmt_kind_t : Type :=
  | PEEL_FMT_WRAPPER (peel_wrapper : bytes -> option (result bytes))
  | PEEL_FMT_ARCHIVE
      (peel_archive : bytes -> option (result peel_file_list_t)).

Record peel_format_t : Type := {
  fmt_name : string;
  kind : peel_fmt_kind_t;
  detect : bytes -> bool
}.

Definition is_wrapper (fmt : peel_format_t) : bool :=
  match kind fmt with
  | PEEL_FMT_WRAPPER _ => true
  | PEEL_FMT_ARCHIVE _ => false
  end.

(** The file that [calloc] leaves before any field is set. *)
Definition zero_file : peel_file_t :=
  {| meta := {| name := []; mac_type := 0; mac_creator := 0;
                finder_flags := 0 |};
     data_fork := []; resource_fork := [] |}.

(** [wrap_single_file]: the buffer, handed over or copied, becomes the data
    fork of one file without metadata. *)
Definition wrap_single_file (s : bytes) : peel_file_list_t :=
  [ {| meta := meta zero_file; data_fork := s;
       resource_fork := resource_fork zero_file |} ].

(** How the wrapper loop of [peel_depth] is left. *)
Inductive loop_exit : Type :=
  | LoopFailed (e : peel_err_t)            (* a peel function set [*err] *)
  | LoopArchive (files : peel_file_list_t) (* an archive was extracted *)
  | LoopDone (cur : bytes).                (* [break], or the loop bound *)

Section Driver.

Variable g_formats : list peel_format_t.

Definition detect_format (s : bytes) : option peel_format_t :=
  List.find (fun fmt => detect fmt s) g_formats.

Definition peel_detect (s : bytes) : option string :=
  option_map fmt_name (detect_format s).

(** The loop [for (wrap_depth = 0; wrap_depth < MAX_PEEL_DEPTH; ...)] of
    [peel_depth]; [turns] is [MAX_PEEL_DEPTH - wrap_depth].  [None] when a
    peel function that the loop calls does not return. *)
Fixpoint peel_depth_loop (turns : nat) (cur : bytes) : option loop_exit :=
  match turns with
  | O => Some (LoopDone cur)
  | S turns' =>
      match detect_format cur with
      | None => Some (LoopDone cur)
      | Some fmt =>
          match kind fmt with
          | PEEL_FMT_WRAPPER peel_wrapper =>
              match peel_wrapper cur with
              | None => None
              | Some (Err e) => Some (LoopFailed e)
              | Some (Ok decoded) => peel_depth_loop turns' decoded
              end
          | PEEL_FMT_ARCHIVE peel_archive =>
              match peel_archive cur with
              | None => None
              | Some (Err e) => Some (LoopFailed e)
              | Some (Ok files) => Some (LoopArchive files)
              end
          end
      end
  end.

(** The format found in a file's data fork, when it is a wrapper. *)
Definition wrapper_in (f : peel_file_t) : option peel_format_t :=
  if 0 <? len (data_fork f) then
    match detect_format (data_fork f) with
    | Some fmt => if is_wrapper fmt then Some fmt else None
    | None => None
    end
  else None.

(** The loop of [recursive_peel_files] over [list.files], with the files
    collected so far in [res].  [rec] is [peel_depth]; it answers [None]
    when it does not return, or was given too little fuel. *)
Fixpoint recursive_peel_loop
    (rec : bytes -> Z -> option (result peel_file_list_t))
    (files : list peel_file_t) (depth : Z) (res : list peel_file_t)
  : option (result peel_file_list_t) :=
  match files with
  | [] => Some (Ok res)
  | f :: rest =>
      match wrapper_in f with
      | None => recursive_peel_loop rec rest depth (res ++ [f])
      | Some _ =>
          match rec (data_fork f) (depth + 1) with
          | None => None
          | Some (Err sub_err) =>
              recursive_peel_loop rec rest depth (res ++ [f])
          | Some (Ok sub) => recursive_peel_loop rec rest depth (res ++ sub)
          end
      end
  end.

Definition recursive_peel_files
    (rec : bytes -> Z -> option (result peel_file_list_t))
    (list : peel_file_list_t) (depth : Z)
  : option (result peel_file_list_t) :=
  match list with
  | [] => Some (Ok list)
  | _ => recursive_peel_loop rec list depth []
  end.

(** [peel_depth].  The recursion through [recursive_peel_files] is on
    [fuel].  [None] is the answer when a peel function does not return, or
    when the fuel is used up; [MAX_PEEL_DEPTH + 1 - depth] units never are
    ([peel_depth_total], [peel_depth_enough]). *)
Fixpoint peel_depth (fuel : nat) (s : bytes) (depth : Z)
  : option (result peel_file_list_t) :=
  match fuel with
  | O => None
  | S fuel' =>
      if MAX_PEEL_DEPTH <=? depth then Some (Ok (wrap_single_file s))
      else
        match peel_depth_loop (Z.to_nat MAX_PEEL_DEPTH) s with
        | None => None
        | Some (LoopFailed e) => Some (Err e)
        | Some (LoopArchive files) =>
            recursive_peel_files (peel_depth fuel') files depth
        | Some (LoopDone cur) => Some (Ok (wrap_single_file cur))
        end
  end.

Definition peel (s : bytes) : option (result peel_file_list_t) :=
  peel_depth (Z.to_nat (MAX_PEEL_DEPTH + 1)) s 0.

End Driver.

(** A peel function all of whose calls return. *)
Definition returns {A : Type} (f : bytes -> result A)
  : bytes -> option (result A) :=
  fun s => Some (f s).

(** The handler table [g_formats].  [peel_cpt] and the StuffIt decoders of
    methods 13 and 15 are parameters. *)
Section Table.

Variable peel_sit13 : bytes -> Z -> Z -> result bytes.
Variable peel_sit15 : bytes -> Z -> Z -> result bytes.
Variable peel_cpt : bytes -> option (result peel_file_list_t).

Definition g_formats : list peel_format_t := [
  {| fmt_name := "hqx"; kind := PEEL_FMT_WRAPPER (returns Hqx.peel_hqx);
     detect := Hqx.hqx_detect |};
  {| fmt_name := "bin"; kind := PEEL_FMT_WRAPPER (returns Bin.peel_bin);
     detect := Bin.bin_detect |};
  {| fmt_name := "sit";
     kind := PEEL_FMT_ARCHIVE (Sit.peel_sit peel_sit13 peel_sit15);
     detect := Sit.sit_detect |};
  {| fmt_name := "cpt"; kind := PEEL_FMT_ARCHIVE peel_cpt;
     detect := Cpt.cpt_detect |}
].

End Table.

End Peeler.

(** ** Reachable states and test vectors *)

Module Reach.

(** The states the LZW decoder passes through on the input [s] of [n]
    bytes: the state made by [lzw_create], and the state after every turn
    of the loop of [lzw_decode]. *)
Inductive lzw_reachable (s : bytes) (n : Z) : Sit.lzw_state_t -> Prop :=
  | lzw_start : lzw_reachable s n (Sit.lzw_create s n)
  | lzw_turn z room z' chunk :
      lzw_reachable s n z ->
      0 < room ->
      Sit.lzw_decode_iter z room = Some (z', chunk) ->
      lzw_reachable s n z'.

(** The states the loop of [parse_classic] passes through on the archive at
    [archive_off] in [blob]: entries still expected, cursor, folder stack,
    entries pushed. *)
Inductive classic_walk (blob : bytes) (archive_off : Z)
  : nat -> Z -> list bytes -> list Sit.sit_entry_t -> Prop :=
  | walk_start :
      classic_walk blob archive_off
        (Z.to_nat (rd16be (advance (advance blob archive_off) 4)))
        Sit.SIT_CLASSIC_HDR_SIZE [] []
  | walk_turn todo cursor dirs entries cursor' dirs' entries' :
      classic_walk blob archive_off (S todo) cursor dirs entries ->
      Sit.classic_turn blob archive_off cursor dirs entries
        = Sit.TurnNext cursor' dirs' entries' ->
      classic_walk blob archive_off todo cursor' dirs' entries'.

(** The bounds the LZW decoder keeps on its dictionary and code width. *)
Definition lzw_ok (z : Sit.lzw_state_t) : Prop :=
  Sit.LZW_FIRST_NEW <= Sit.tbl_next z <= Sit.LZW_TABLE_CAP
  /\ 9 <= Sit.code_bits z <= Sit.LZW_MAX_BITS
  /\ 0 <= Sit.stage_rd z.

(** What the spec calls a recognized StuffIt signature at the start of a
    buffer: one of the nine classic magics with "rLau" at offset 10, or the
    80-byte SIT5 banner, whose bytes 0..15 and 20..77 are fixed. *)
Definition spec_classic_signature (buf : bytes) : Prop :=
  exists sig mid rest,
    In sig (map lit ["SIT!"; "ST46"; "ST50"; "ST60"; "ST65";
                     "STin"; "STi2"; "STi3"; "STi4"]%string)
    /\ length mid = 6%nat
    /\ buf = sig ++ mid ++ lit "rLau" ++ rest.

Definition spec_sit5_banner (buf : bytes) : Prop :=
  exists year crlf rest,
    length year = 4%nat /\ length crlf = 2%nat
    /\ buf = lit "StuffIt (c)1997-" ++ year
             ++ lit " Aladdin Systems, Inc., http://www.aladdinsys.com/StuffIt/"
             ++ crlf ++ rest.

Definition spec_begins_with_stuffit_signature (buf : bytes) : Prop :=
  spec_classic_signature buf \/ spec_sit5_banner buf.

(** [unwrapped g k s cur]: [cur] is what is left of [s] after [k] turns of
    the wrapper loop of [peel_depth], each of which found a wrapper format
    and peeled it. *)
Inductive unwrapped (g_formats : list Peeler.peel_format_t)
  : nat -> bytes -> bytes -> Prop :=
  | unwrapped_none s : unwrapped g_formats O s s
  | unwrapped_layer k s cur fmt peel_wrapper decoded :
      unwrapped g_formats k s cur ->
      Peeler.detect_format g_formats cur = Some fmt ->
      Peeler.kind fmt = Peeler.PEEL_FMT_WRAPPER peel_wrapper ->
      peel_wrapper cur = Some (Ok decoded) ->
      unwrapped g_formats (S k) s decoded.

(** [f] is a file that an archive decoder of the table returned. *)
Definition from_archive (g_formats : list Peeler.peel_format_t)
    (f : peel_file_t) : Prop :=
  exists fmt peel_archive buf files,
    In fmt g_formats
    /\ Peeler.kind fmt = Peeler.PEEL_FMT_ARCHIVE peel_archive
    /\ peel_archive buf = Some (Ok files)
    /\ In f files.

(** Every peel function of the table returns on every buffer. *)
Definition handlers_return (g_formats : list Peeler.peel_format_t) : Prop :=
  forall fmt,
    In fmt g_formats ->
    match Peeler.kind fmt with
    | Peeler.PEEL_FMT_WRAPPER peel_wrapper => forall s, peel_wrapper s <> None
    | Peeler.PEEL_FMT_ARCHIVE peel_archive => forall s, peel_archive s <> None
    end.

(** What [build_file_list] makes of one entry, given the fork decompressor:
    the metadata copied, the name cut to 255 bytes, and each fork either
    decompressed or, when its declared length is zero (or the entry has no
    resource fork), empty. *)
Definition file_of_entry (decompress_fork : Sit.sit_fork_info_t -> result bytes)
    (ent : Sit.sit_entry_t) (f : peel_file_t) : Prop :=
  meta f = {| name := take 255 (Sit.ent_name ent);
              mac_type := Sit.ent_mac_type ent;
              mac_creator := Sit.ent_mac_creator ent;
              finder_flags := Sit.ent_finder_flags ent |}
  /\ (if 0 <? Sit.raw_len (Sit.ent_data_fork ent)
      then decompress_fork (Sit.ent_data_fork ent) = Ok (data_fork f)
      else data_fork f = [])
  /\ (if Sit.has_rsrc ent && (0 <? Sit.raw_len (Sit.ent_rsrc_fork ent))
      then decompress_fork (Sit.ent_rsrc_fork ent) = Ok (resource_fork f)
      else resource_fork f = []).

(** A fork descriptor whose packed bytes lie inside the archive: [data]
    holds at least [packed_len] bytes, and the fields have the ranges of
    their C types. *)
Definition fork_in_archive (fi : Sit.sit_fork_info_t) : Prop :=
  0 <= Sit.packed_len fi <= len (Sit.data fi)
  /\ 0 <= Sit.raw_len fi < 4294967296
  /\ 0 <= Sit.crc fi < 65536
  /\ 0 <= Sit.method fi <= 15.

(** An entry of a classic archive whose two forks lie inside the archive,
    the data fork right after the resource fork, and whose path fits in
    [char name[512]]. *)
Definition classic_entry_ok (e : Sit.sit_entry_t) : Prop :=
  fork_in_archive (Sit.ent_data_fork e)
  /\ fork_in_archive (Sit.ent_rsrc_fork e)
  /\ Sit.data (Sit.ent_data_fork e)
     = advance (Sit.data (Sit.ent_rsrc_fork e))
               (Sit.packed_len (Sit.ent_rsrc_fork e))
  /\ len (Sit.ent_name e) <= 511.

(** The characters of a BinHex payload that the decoder looks at: all but
    CR, LF, TAB and space. *)
Definition hqx_visible (p : bytes) : bytes :=
  filter (fun c => Hqx.is_space c = false) p.

(** Two decoder states that differ at most in the white space of the input
    still to be read. *)
Definition hqx_same_but_spaces (d d' : Hqx.hqx_decoder_t) : Prop :=
  hqx_visible (Hqx.src d) = hqx_visible (Hqx.src d')
  /\ Hqx.accum d = Hqx.accum d'
  /\ Hqx.accum_bits d = Hqx.accum_bits d'
  /\ Hqx.rle_marker_seen d = Hqx.rle_marker_seen d'
  /\ Hqx.rle_prev d = Hqx.rle_prev d'
  /\ Hqx.rle_pending d = Hqx.rle_pending d'.

(** Two outcomes of a decoding step: the same error, or the same value with
    decoder states that differ at most in white space. *)
Definition hqx_same_outcome {A} (r r' : result (A * Hqx.hqx_decoder_t))
  : Prop :=
  match r, r' with
  | Ok (a, d), Ok (a', d') => a = a' /\ hqx_same_but_spaces d d'
  | Err e, Err e' => e = e'
  | _, _ => False
  end.

(** One turn of the loop of [cp_rle_read]: the byte stored and the state
    after it, or the state in which the loop returns because the byte
    supplier had no byte to give ([cp_rle_read_turn] relates the two). *)
Definition cp_rle_turn {Src : Type} `{Cpt.ByteSource Src}
    (r : @Cpt.cp_rle_t Src) : @Cpt.cp_rle_t Src + Z * @Cpt.cp_rle_t Src :=
  let stop (r' : @Cpt.cp_rle_t Src) :=
    @inl (@Cpt.cp_rle_t Src) (Z * @Cpt.cp_rle_t Src) r' in
  let emit (b : Z) (r' : @Cpt.cp_rle_t Src) :=
    @inr (@Cpt.cp_rle_t Src) (Z * @Cpt.cp_rle_t Src) (b, r') in
  if 0 <? Cpt.run_left r then
    emit (Cpt.prev_byte r)
         {| Cpt.src_ctx := Cpt.src_ctx r; Cpt.prev_byte := Cpt.prev_byte r;
            Cpt.run_left := Cpt.run_left r - 1;
            Cpt.escape_pending := Cpt.escape_pending r |}
  else
    let fetched :=
      if Cpt.escape_pending r
      then (Some 0x81,
            {| Cpt.src_ctx := Cpt.src_ctx r;
               Cpt.prev_byte := Cpt.prev_byte r;
               Cpt.run_left := Cpt.run_left r;
               Cpt.escape_pending := false |})
      else let '(b, ctx) := Cpt.next (Cpt.src_ctx r) in
           (b, {| Cpt.src_ctx := ctx;
                  Cpt.prev_byte := Cpt.prev_byte r;
                  Cpt.run_left := Cpt.run_left r;
                  Cpt.escape_pending := Cpt.escape_pending r |}) in
    match fetched with
    | (None, r1) => stop r1
    | (Some byte_val, r1) =>
        if negb (byte_val =? 0x81) then
          emit byte_val
               {| Cpt.src_ctx := Cpt.src_ctx r1; Cpt.prev_byte := byte_val;
                  Cpt.run_left := Cpt.run_left r1;
                  Cpt.escape_pending := Cpt.escape_pending r1 |}
        else
          match Cpt.next (Cpt.src_ctx r1) with
          | (None, ctx2) =>
              stop {| Cpt.src_ctx := ctx2;
                      Cpt.prev_byte := Cpt.prev_byte r1;
                      Cpt.run_left := Cpt.run_left r1;
                      Cpt.escape_pending := Cpt.escape_pending r1 |}
          | (Some nxt, ctx2) =>
              if nxt =? 0x82 then
                match Cpt.next ctx2 with
                | (None, ctx3) =>
                    stop {| Cpt.src_ctx := ctx3;
                            Cpt.prev_byte := Cpt.prev_byte r1;
                            Cpt.run_left := Cpt.run_left r1;
                            Cpt.escape_pending := Cpt.escape_pending r1 |}
                | (Some count, ctx3) =>
                    if count =? 0 then
                      emit 0x81
                           {| Cpt.src_ctx := ctx3; Cpt.prev_byte := 0x82;
                              Cpt.run_left := 1;
                              Cpt.escape_pending := Cpt.escape_pending r1 |}
                    else
                      emit (Cpt.prev_byte r1)
                           {| Cpt.src_ctx := ctx3;
                              Cpt.prev_byte := Cpt.prev_byte r1;
                              Cpt.run_left :=
                                if 2 <=? count then count - 2 else 0;
                              Cpt.escape_pending := Cpt.escape_pending r1 |}
                end
              else if nxt =? 0x81 then
                emit 0x81
                     {| Cpt.src_ctx := ctx2; Cpt.prev_byte := 0x81;
                        Cpt.run_left := Cpt.run_left r1;
                        Cpt.escape_pending := true |}
              else
                emit 0x81
                     {| Cpt.src_ctx := ctx2; Cpt.prev_byte := nxt;
                        Cpt.run_left := 1;
                        Cpt.escape_pending := Cpt.escape_pending r1 |}
          end
    end.

(** A directory entry of a Compact Pro archive as the walk leaves it: a
    name that fits [char name[256]], without NUL, and 32-bit fork
    fields. *)
Definition cp_entry_ok (e : Cpt.cp_entry_t) : Prop :=
  len (Cpt.cp_name e) <= 255
  /\ Forall (fun c => c <> 0) (Cpt.cp_name e)
  /\ 0 <= Cpt.file_offset e < 4294967296
  /\ 0 <= Cpt.rsrc_uncomp e < 4294967296
  /\ 0 <= Cpt.data_uncomp e < 4294967296
  /\ 0 <= Cpt.rsrc_comp e < 4294967296
  /\ 0 <= Cpt.data_comp e < 4294967296.

(** What [peel_cpt] makes of one entry of the archive [s]: the metadata
    copied, no encryption flag, both packed forks inside the archive, the
    resource fork first, and each fork decompressed or, when its declared
    length is zero, empty.  [decompress] is [cp_decompress_fork] on [s]. *)
Definition cpt_file_of_entry (decompress : Z -> Z -> Z -> bool -> bytes)
    (s : bytes) (e : Cpt.cp_entry_t) (f : peel_file_t) : Prop :=
  meta f = {| name := Cpt.cp_name e; mac_type := Cpt.type e;
              mac_creator := Cpt.creator e;
              finder_flags := Cpt.cp_finder_flags e |}
  /\ Z.land (Cpt.flags e) Cpt.CP_FLAG_ENCRYPT = 0
  /\ Cpt.file_offset e + Cpt.rsrc_comp e + Cpt.data_comp e <= len s
  /\ resource_fork f
     = (if 0 <? Cpt.rsrc_uncomp e
        then decompress (Cpt.file_offset e) (Cpt.rsrc_comp e)
               (Cpt.rsrc_uncomp e)
               (negb (Z.land (Cpt.flags e) Cpt.CP_FLAG_RSRC_LZH =? 0))
        else [])
  /\ data_fork f
     = (if 0 <? Cpt.data_uncomp e
        then decompress (Cpt.file_offset e + Cpt.rsrc_comp e)
               (Cpt.data_comp e) (Cpt.data_uncomp e)
               (negb (Z.land (Cpt.flags e) Cpt.CP_FLAG_DATA_LZH =? 0))
        else []).

End Reach.

Module Vectors.

Definition be16 (x : Z) : bytes := [Z.shiftr x 8 mod 256; x mod 256].

Definition be32 (x : Z) : bytes :=
  [Z.shiftr x 24 mod 256; Z.shiftr x 16 mod 256; Z.shiftr x 8 mod 256;
   x mod 256].

Definition zeros (n : Z) : bytes := replicate (Z.to_nat n) 0.

(** The 22-byte header of a classic StuffIt archive. *)
Definition classic_top (file_count : Z) : bytes :=
  lit "SIT!" ++ be16 file_count ++ be32 0 ++ lit "rLau" ++ [1] ++ zeros 7.

(** A 112-byte entry header: method bytes, name, fork lengths and CRCs. *)
Definition classic_entry (rm dm : Z) (nm : bytes)
    (rulen dulen rclen dclen rcrc dcrc : Z) : bytes :=
  [rm; dm; len nm] ++ nm ++ zeros (63 - len nm) ++ zeros 18
  ++ be32 rulen ++ be32 dulen ++ be32 rclen ++ be32 dclen
  ++ be16 rcrc ++ be16 dcrc ++ zeros 8.

(** One file "a" whose data fork, the byte 'x' stored raw, carries the
    encryption flag in its method byte. *)
Definition encrypted_classic : bytes :=
  classic_top 1
  ++ classic_entry 0 0x10 (lit "a") 0 1 0 1 0 (Sit.sit_crc (lit "x"))
  ++ lit "x".

(** Three entries announced; the archive ends 111 bytes into the second
    entry header. *)
Definition truncated_classic : bytes :=
  classic_top 3
  ++ classic_entry 0 0 (lit "a") 0 1 0 1 0 (Sit.sit_crc (lit "x"))
  ++ lit "x" ++ zeros 111.

Definition file_a_x : peel_file_t :=
  {| meta := {| name := lit "a"; mac_type := 0; mac_creator := 0;
                finder_flags := 0 |};
     data_fork := lit "x"; resource_fork := [] |}.

(** A decoder whose dictionary is full, about to read the code 65 from
    three input bytes; the arrays are left zero-filled. *)
Definition lzw_full : Sit.lzw_state_t :=
  {| Sit.src := [65; 0; 1]; Sit.src_bytes := 3; Sit.bit_pos := 0;
     Sit.prev_code := ∅; Sit.suffix := ∅; Sit.head := ∅;
     Sit.chain_len := ∅;
     Sit.tbl_next := Sit.LZW_TABLE_CAP; Sit.code_bits := 14;
     Sit.prev := 66; Sit.block_count := 0;
     Sit.stage := []; Sit.stage_rd := 0 |}.

(** The entry that the walk over [truncated_classic] pushes. *)
Definition truncated_entry : Sit.sit_entry_t :=
  {| Sit.ent_name := lit "a"; Sit.ent_mac_type := 0; Sit.ent_mac_creator := 0;
     Sit.ent_finder_flags := 0;
     Sit.ent_data_fork :=
       {| Sit.raw_len := 1; Sit.packed_len := 1;
          Sit.crc := Sit.sit_crc (lit "x"); Sit.method := 0;
          Sit.data := lit "x" ++ zeros 111 |};
     Sit.ent_rsrc_fork :=
       {| Sit.raw_len := 0; Sit.packed_len := 0; Sit.crc := 0;
          Sit.method := 0; Sit.data := lit "x" ++ zeros 111 |};
     Sit.has_rsrc := false |}.

Definition rle90_input : bytes := [0x41; 0x42; 0x42; 0x90; 0x05; 0x90; 0x00; 0x43].

Definition rle90_output : bytes :=
  [0x41; 0x42; 0x42; 0x42; 0x42; 0x42; 0x42; 0x90; 0x43].

(** The parametric decoders, for inputs that never reach them. *)
Definition no_fork_engine : bytes -> Z -> Z -> result bytes :=
  fun _ _ _ => Err (EngineError "fork decoder not embedded").

Definition no_cpt : bytes -> option (result peel_file_list_t) :=
  fun _ => Some (Err (EngineError "Compact Pro extraction not embedded")).

Definition g_formats : list Peeler.peel_format_t :=
  Peeler.g_formats no_fork_engine no_fork_engine no_cpt.

(** A SIT5 archive of 150 bytes: the 80-byte banner, an entry count of 1
    and the first entry at offset 100.  The entry has the entry magic,
    version 1, a header 1 of length 0 whose stored CRC is 0, and the data
    length 0xFFFFFFFF that marks an entry to skip. *)
Definition sit5_stuck : bytes :=
  lit "StuffIt (c)1997-" ++ lit "2002"
  ++ lit " Aladdin Systems, Inc., http://www.aladdinsys.com/StuffIt/"
  ++ [13; 10]
  ++ zeros 12 ++ be16 1 ++ be32 100 ++ zeros 2
  ++ be32 0xA5A5A5A5 ++ [1] ++ zeros 29 ++ be32 0xFFFFFFFF ++ zeros 12.

(** A SIT5 archive of 186 bytes with one file "a": a header 1 of 49 bytes
    at offset 100 (header CRC 0xB0DA, data length 1, packed length 1, data
    CRC 0x2200, method 0, name length 1), a header 2 of 36 bytes without
    resource fork, and the data byte 'x'. *)
Definition sit5_one_file : bytes :=
  lit "StuffIt (c)1997-" ++ lit "2002"
  ++ lit " Aladdin Systems, Inc., http://www.aladdinsys.com/StuffIt/"
  ++ [13; 10]
  ++ zeros 12 ++ be16 1 ++ be32 100 ++ zeros 2
  ++ be32 0xA5A5A5A5 ++ [1; 0] ++ be16 49 ++ zeros 18 ++ be32 0 ++ be16 1
  ++ be16 0xB0DA ++ be32 1 ++ be32 1 ++ be16 0x2200 ++ zeros 4 ++ lit "a"
  ++ zeros 36 ++ lit "x".

(** The walk of [parse_sit5] on [sit5_stuck] as the loop is entered. *)
Definition sit5_stuck_walk : Sit.sit5_walk_t :=
  {| Sit.walk_cursor := 100; Sit.walk_remaining := 1; Sit.walk_dmap := [];
     Sit.walk_entries := [] |}.

(** The six-to-eight layer run backwards: bytes to BinHex characters. *)
Definition bits_of_byte (b : Z) : list bool :=
  map (fun i => Z.testbit b i) [7; 6; 5; 4; 3; 2; 1; 0].

Fixpoint sextets (bits : list bool) (n : nat) : bytes :=
  match n with
  | O => []
  | S n' =>
      match bits with
      | [] => []
      | _ =>
          let six := take 6 (bits ++ replicate 5 false) in
          at_ Hqx.hqx_alphabet
              (fold_left (fun acc (b : bool) => 2 * acc + (if b then 1 else 0))
                         six 0)
          :: sextets (drop 6 bits) n'
      end
  end.

Definition six_bit_encode (payload : bytes) : bytes :=
  let bits := concat (map bits_of_byte payload) in
  sextets bits (length bits).

(** A BinHex file around [payload]: preamble line, colon, characters,
    colon. *)
Definition hqx_text (payload : bytes) : bytes :=
  Hqx.HQX_PREAMBLE ++ lit " 4.0)" ++ [10; 58] ++ six_bit_encode payload ++ [58].

(** The container header of a file "a" with both forks empty, with its
    CRC. *)
Definition hqx_header_a : bytes :=
  let h := [1; 97; 0] ++ lit "TEXT" ++ lit "ttxt" ++ be16 0
           ++ be32 0 ++ be32 0 in
  h ++ be16 (Crc16.crc16_ccitt h).

(** Both forks empty, both fork CRC fields 0x0000. *)
Definition hqx_empty_ok : bytes :=
  hqx_text (hqx_header_a ++ [0; 0] ++ [0; 0]).

(** The CRC field of the empty data fork holds 0x0001. *)
Definition hqx_empty_bad_data_crc : bytes :=
  hqx_text (hqx_header_a ++ [0; 1] ++ [0; 0]).

(** The CRC field of the empty resource fork holds 0x0100. *)
Definition hqx_empty_bad_rsrc_crc : bytes :=
  hqx_text (hqx_header_a ++ [0; 0] ++ [1; 0]).

(** A MacBinary II file record around two forks: the 128-byte header with
    its CRC, then each fork padded to a multiple of 128 bytes. *)
Definition macbinary (nm data rsrc : bytes) : bytes :=
  let h := [0; len nm] ++ nm ++ zeros (63 - len nm)
           ++ lit "TEXT" ++ lit "ttxt" ++ [0; 0] ++ zeros 8
           ++ be32 (len data) ++ be32 (len rsrc) ++ zeros 33 in
  h ++ be16 (Crc16.crc16_ccitt h) ++ zeros 2
  ++ data ++ zeros (Bin.pad128 (len data))
  ++ rsrc ++ zeros (Bin.pad128 (len rsrc)).

(** A text in the data fork, three bytes in the resource fork. *)
Definition bin_text_and_rsrc : bytes :=
  macbinary (lit "a") (lit "hello") [1; 2; 3].

(** A BinHex preamble that no colon follows, and its RLE90 packing with
    the no-op escape 90 01 after the fifth byte, so that the preamble is
    not a substring of the archive below. *)
Definition broken_hqx : bytes := Hqx.HQX_PREAMBLE.




(** A handler table whose only format detects on every buffer and peels
    it to the same buffer with one more byte in front. *)
Definition spinning_formats : list Peeler.peel_format_t :=
  [ {| Peeler.fmt_name := "spin";
       Peeler.kind := Peeler.PEEL_FMT_WRAPPER (fun s => Some (Ok (0 :: s)));
       Peeler.detect := fun _ => true |} ].

(** [bin_text_and_rsrc] with every Finder flag bit set in the header bytes
    73 and 101.  Byte 82 is zero, so the header passes as MacBinary I
    although its CRC field no longer matches. *)
Definition bin_all_flags : bytes :=
  <[73%nat := 0xFF]> (<[101%nat := 0xFF]> bin_text_and_rsrc).

(** [hqx_text] with CR LF after every character of the payload. *)
Definition hqx_text_spaced (payload : bytes) : bytes :=
  Hqx.HQX_PREAMBLE ++ lit " 4.0)" ++ [10; 58]
  ++ concat (map (fun c => [c; 13; 10]) (six_bit_encode payload)) ++ [58].

(** A BinHex file "a" with every Finder flag set in the header, the data
    fork "hello" and no resource fork. *)
Definition hqx_hello : bytes :=
  let h := [1; 97; 0] ++ lit "TEXT" ++ lit "ttxt" ++ be16 0xFFFF
           ++ be32 5 ++ be32 0 in
  hqx_text (h ++ be16 (Crc16.crc16_ccitt h)
            ++ lit "hello" ++ be16 (Crc16.crc16_ccitt (lit "hello"))
            ++ [0; 0]).

Definition file_hello : peel_file_t :=
  {| meta := {| name := lit "a"; mac_type := 1413830740;
                mac_creator := 1953790068; finder_flags := 0xBF7B |};
     data_fork := lit "hello"; resource_fork := [] |}.




(** An LZH decoder at its end, for inputs without LZH forks. *)
Definition no_lzh : bytes -> bytes := fun _ => [].

(** A byte supplier that has no byte to give at every second call and is
    changed by that call, as a decoder is that gives up in the middle of a
    code and finds a code at the next call: the bytes of [m], each followed
    by one call that fails. *)
#[global] Instance cp_gaps : Cpt.ByteSource (list (option Z)) := {|
  Cpt.next l := match l with [] => (None, []) | x :: rest => (x, rest) end
|}.

Definition lzh_with_gaps (m : bytes) : list (option Z) :=
  flat_map (fun b => [Some b; None]) m.

(** A Compact Pro archive: the folder "d" holding the file "a", whose data
    fork "ABCD" is stored at offset 8 without LZH; the directory is at
    offset 12. *)
Definition cpt_entry_a (file_flags : Z) : bytes :=
  [1; 97] ++ [1] ++ be32 8 ++ lit "TEXT" ++ lit "ttxt" ++ be32 0 ++ be32 0
  ++ be16 0 ++ be32 0 ++ be16 file_flags
  ++ be32 0 ++ be32 4 ++ be32 0 ++ be32 4.

Definition cpt_folder (file_flags : Z) : bytes :=
  [1; 1; 0; 0] ++ be32 12 ++ lit "ABCD"
  ++ be32 0 ++ be16 2 ++ [0]
  ++ [0x81; 100] ++ be16 1 ++ cpt_entry_a file_flags.

Definition file_d_a : peel_file_t :=
  {| meta := {| name := lit "d/a"; mac_type := 1413830740;
                mac_creator := 1953790068; finder_flags := 0 |};
     data_fork := lit "ABCD"; resource_fork := [] |}.

End Vectors.

(** * Theorems *)

(** ** StuffIt: RLE90 *)

Lemma rle90_literal_0x90 (rest : bytes) (raw_len : Z) (out : bytes) (last : Z) :
  Sit.rle90 (0x90 :: 0 :: rest) raw_len out last
  = if len out <? raw_len
    then Sit.rle90 rest raw_len (out ++ [0x90]) last
    else out.
Proof.
  simpl. destruct (len out <? raw_len); reflexivity.
Qed.

(** C4. With method 1 and a declared length of 9, the eight input bytes
    41 42 42 90 05 90 00 43 decode to the nine bytes
    41 42 42 42 42 42 42 90 43, whatever follows the fork in the archive
    and whatever the other decoders are; and the escape 90 00 stores one
    0x90 and hands the remembered last byte on as it was. *)
Theorem C4_rle90_decodes_example :
  Sit.rle90 Vectors.rle90_input 9 [] 0 = Vectors.rle90_output
  /\ (forall s13 s15 (tail : bytes),
        Sit.decompress_fork s13 s15
          {| Sit.raw_len := 9; Sit.packed_len := 8;
             Sit.crc := Sit.sit_crc Vectors.rle90_output;
             Sit.method := 1; Sit.data := Vectors.rle90_input ++ tail |}
        = Ok Vectors.rle90_output)
  /\ (forall rest raw_len out last,
        Sit.rle90 (0x90 :: 0 :: rest) raw_len out last
        = if len out <? raw_len
          then Sit.rle90 rest raw_len (out ++ [0x90]) last
          else out).
Proof.
  split; [reflexivity|]. split.
  - intros. reflexivity.
  - apply rle90_literal_0x90.
Qed.

(** ** StuffIt: the classic directory walk *)

(** C1. The archive [Vectors.encrypted_classic] holds one entry whose data
    method byte is 0x10: encryption flag set, method 0.  [peel_sit] does
    not fail on it: it extracts the data fork as a raw copy. *)
Theorem C1_encrypted_fork_is_extracted :
  Z.testbit (at_ Vectors.encrypted_classic (22 + 1)) 4 = true
  /\ forall s13 s15,
       Sit.peel_sit s13 s15 Vectors.encrypted_classic
       = Some (Ok [Vectors.file_a_x]).
Proof.
  split; [reflexivity|]. intros. vm_compute. reflexivity.
Qed.

Lemma classic_walk_loop (blob : bytes) (ao : Z) (todo : nat) (cursor : Z)
    (dirs : list bytes) (entries : list Sit.sit_entry_t) :
  Reach.classic_walk blob ao todo cursor dirs entries ->
  Sit.parse_classic_loop
    (Z.to_nat (rd16be (advance (advance blob ao) 4))) blob ao
    Sit.SIT_CLASSIC_HDR_SIZE [] []
  = Sit.parse_classic_loop todo blob ao cursor dirs entries.
Proof.
  induction 1 as [|todo cursor dirs entries cursor' dirs' entries' _ IH Hturn].
  - reflexivity.
  - rewrite IH. simpl. rewrite Hturn. reflexivity.
Qed.

Lemma classic_turn_break (blob : bytes) (ao cursor : Z) (dirs : list bytes)
    (entries : list Sit.sit_entry_t) :
  len blob - ao < cursor + Sit.SIT_ENTRY_HDR_SIZE ->
  Sit.classic_turn blob ao cursor dirs entries = Sit.TurnBreak.
Proof.
  intros Hcut. unfold Sit.classic_turn.
  destruct (Z.ltb_spec (len blob - ao) (cursor + Sit.SIT_ENTRY_HDR_SIZE));
    [reflexivity | lia].
Qed.

(** C10. Let the classic archive at [ao] be the one [peel_sit] chooses, and
    let the walk over its entry headers have reached [cursor] with entries
    still to come ([S todo] of them) when fewer than 112 bytes are left
    for the next header.  Then parsing ends there without an error:
    [parse_classic] returns the entries pushed so far, and [peel_sit]
    returns what [build_file_list] makes of them. *)
Theorem C10_classic_truncated_header_stops_quietly
    (s13 s15 : bytes -> Z -> Z -> result bytes)
    (blob : bytes) (ao : Z) (todo : nat) (cursor : Z) (dirs : list bytes)
    (entries : list Sit.sit_entry_t) :
  Sit.find_classic_magic blob = Some ao ->
  (forall f, Sit.find_sit5_magic blob = Some f -> ao <= f) ->
  Sit.SIT_CLASSIC_HDR_SIZE <= len blob - ao ->
  Reach.classic_walk blob ao (S todo) cursor dirs entries ->
  len blob - ao < cursor + Sit.SIT_ENTRY_HDR_SIZE ->
  Sit.parse_classic blob ao [] = Ok entries
  /\ Sit.peel_sit s13 s15 blob
     = Some (Sit.build_file_list s13 s15 entries).
Proof.
  intros Hmagic Hfirst Hsize Hwalk Hcut.
  assert (Hparse : Sit.parse_classic blob ao [] = Ok entries).
  { unfold Sit.parse_classic.
    destruct (Z.ltb_spec (len blob - ao) Sit.SIT_CLASSIC_HDR_SIZE); [lia|].
    rewrite (classic_walk_loop _ _ _ _ _ _ Hwalk). simpl.
    rewrite classic_turn_break by assumption. reflexivity. }
  split; [exact Hparse|].
  unfold Sit.peel_sit. rewrite Hmagic.
  destruct (Sit.find_sit5_magic blob) as [f|] eqn:Hf.
  - destruct (Z.leb_spec ao f) as [_|Hlt];
      [| specialize (Hfirst f eq_refl); lia].
    rewrite Hparse. reflexivity.
  - rewrite Hparse. reflexivity.
Qed.

Lemma C10_witness :
  Sit.find_classic_magic Vectors.truncated_classic = Some 0
  /\ Reach.classic_walk Vectors.truncated_classic 0 2 135 [] [Vectors.truncated_entry]
  /\ len Vectors.truncated_classic - 0 < 135 + Sit.SIT_ENTRY_HDR_SIZE
  /\ Sit.parse_classic Vectors.truncated_classic 0 [] = Ok [Vectors.truncated_entry]
  /\ Sit.peel_sit Vectors.no_fork_engine Vectors.no_fork_engine
       Vectors.truncated_classic
     = Some (Ok [Vectors.file_a_x]).
Proof.
  assert (Hmagic : Sit.find_classic_magic Vectors.truncated_classic = Some 0)
    by (vm_compute; reflexivity).
  assert (Hwalk : Reach.classic_walk Vectors.truncated_classic 0 2 135 []
                    [Vectors.truncated_entry]).
  { eapply (Reach.walk_turn _ _ 2 22 [] []).
    - exact (Reach.walk_start Vectors.truncated_classic 0).
    - vm_compute. reflexivity. }
  assert (Hcut : len Vectors.truncated_classic - 0 < 135 + Sit.SIT_ENTRY_HDR_SIZE)
    by (vm_compute; reflexivity).
  destruct (C10_classic_truncated_header_stops_quietly
              Vectors.no_fork_engine Vectors.no_fork_engine
              Vectors.truncated_classic 0 1 135 [] [Vectors.truncated_entry]
              Hmagic
              ltac:(intros f Hf; vm_compute in Hf; discriminate)
              ltac:(vm_compute; intros; discriminate)
              Hwalk Hcut) as [Hparse Hpeel].
  repeat split; assumption.
Defined.

(** ** StuffIt: LZW *)

Import Reach.

Lemma lzw_create_ok (s : bytes) (n : Z) : lzw_ok (Sit.lzw_create s n).
Proof.
  unfold lzw_ok. simpl.
  change Sit.LZW_FIRST_NEW with 257. change Sit.LZW_TABLE_CAP with 16384.
  change Sit.LZW_MAX_BITS with 14. lia.
Qed.

Lemma lzw_add_entry_ok (z : Sit.lzw_state_t) (p b : Z) :
  lzw_ok z -> lzw_ok (Sit.lzw_add_entry z p b).
Proof.
  unfold lzw_ok, Sit.lzw_add_entry.
  unfold Sit.LZW_FIRST_NEW, Sit.LZW_TABLE_CAP, Sit.LZW_MAX_BITS.
  change (Z.shiftl 1 14) with 16384.
  intros (Ht & Hc & Hs).
  destruct (Z.leb_spec 16384 (Sit.tbl_next z)); simpl; [lia|].
  destruct (Z.ltb_spec (Sit.tbl_next z + 1) 16384); simpl;
    [| lia].
  destruct (Z.land (Sit.tbl_next z + 1) (Sit.tbl_next z + 1 - 1) =? 0);
    simpl; [| lia].
  destruct (Z.ltb_spec (Sit.code_bits z) 14); simpl; lia.
Qed.

Lemma lzw_add_entry_bit_pos (z : Sit.lzw_state_t) (p b : Z) :
  Sit.bit_pos (Sit.lzw_add_entry z p b) = Sit.bit_pos z
  /\ Sit.src_bytes (Sit.lzw_add_entry z p b) = Sit.src_bytes z.
Proof.
  unfold Sit.lzw_add_entry.
  destruct (Sit.LZW_TABLE_CAP <=? Sit.tbl_next z); split; reflexivity.
Qed.

Lemma lzw_add_entry_full (z : Sit.lzw_state_t) (p b : Z) :
  Sit.LZW_TABLE_CAP <= Sit.tbl_next z -> Sit.lzw_add_entry z p b = z.
Proof.
  intros Hfull. unfold Sit.lzw_add_entry.
  destruct (Z.leb_spec Sit.LZW_TABLE_CAP (Sit.tbl_next z)); [reflexivity|lia].
Qed.

Lemma lzw_next_code_fields (z z1 : Sit.lzw_state_t) (code : Z) :
  Sit.lzw_next_code z = Some (code, z1) ->
  Sit.tbl_next z1 = Sit.tbl_next z /\ Sit.code_bits z1 = Sit.code_bits z
  /\ Sit.stage_rd z1 = Sit.stage_rd z /\ Sit.prev z1 = Sit.prev z
  /\ Sit.src_bytes z1 = Sit.src_bytes z
  /\ Sit.bit_pos z1 = Sit.bit_pos z + Sit.code_bits z
  /\ Sit.bit_pos z < 8 * Sit.src_bytes z
  /\ Sit.prev_code z1 = Sit.prev_code z /\ Sit.suffix z1 = Sit.suffix z
  /\ Sit.head z1 = Sit.head z /\ Sit.chain_len z1 = Sit.chain_len z.
Proof.
  unfold Sit.lzw_next_code.
  destruct (Z.leb_spec (Sit.src_bytes z) (Z.shiftr (Sit.bit_pos z) 3))
    as [|Hlt]; [discriminate|].
  intros [= <- <-]. simpl. repeat split; try reflexivity.
  rewrite Z.shiftr_div_pow2 in Hlt by lia.
  change (2 ^ 3) with 8 in Hlt.
  pose proof (Z.mul_div_le (Sit.bit_pos z) 8 ltac:(lia)).
  pose proof (Z.mod_pos_bound (Sit.bit_pos z) 8 ltac:(lia)).
  pose proof (Z.div_mod (Sit.bit_pos z) 8 ltac:(lia)). lia.
Qed.

(** One turn of the decoding loop keeps the bounds. *)
Lemma lzw_decode_iter_ok (z z' : Sit.lzw_state_t) (room : Z) (chunk : bytes) :
  lzw_ok z -> 0 < room ->
  Sit.lzw_decode_iter z room = Some (z', chunk) -> lzw_ok z'.
Proof.
  intros Hok Hroom. unfold Sit.lzw_decode_iter.
  destruct (Z.ltb_spec (Sit.stage_rd z) (Sit.stage_len z)) as [Hrd|Hrd].
  - intros [= <- <-]. destruct Hok as (Ht & Hc & Hs).
    unfold lzw_ok. simpl. repeat split; try lia.
  - destruct (Sit.lzw_next_code z) as [[code z1]|] eqn:Hnext; [|discriminate].
    apply lzw_next_code_fields in Hnext.
    destruct Hnext as (Ht1 & Hc1 & Hs1 & _).
    assert (Hok1 : lzw_ok z1).
    { destruct Hok as (Ht & Hc & Hs). unfold lzw_ok.
      rewrite Ht1, Hc1, Hs1. auto. }
    destruct (code =? Sit.LZW_CLEAR_CODE).
    { intros [= <- <-]. unfold lzw_ok. simpl.
      unfold Sit.LZW_FIRST_NEW, Sit.LZW_TABLE_CAP, Sit.LZW_MAX_BITS.
      change (Z.shiftl 1 14) with 16384.
      destruct Hok1 as (_ & _ & Hs). lia. }
    destruct (Sit.prev z1 <? 0).
    { intros [= <- <-]. exact Hok1. }
    intros [= <- <-].
    pose proof (lzw_add_entry_ok z1 (Sit.prev z1)
      (if code <? Sit.tbl_next z1 then Sit.aget (Sit.head z1) code
       else Sit.aget (Sit.head z1) (Sit.prev z1)) Hok1) as (Ht2 & Hc2 & Hs2).
    destruct (code <? Sit.tbl_next (Sit.lzw_add_entry z1 _ _));
      unfold lzw_ok; simpl; repeat split; lia.
Qed.

Lemma lzw_reachable_ok (s : bytes) (n : Z) (z : Sit.lzw_state_t) :
  Reach.lzw_reachable s n z -> lzw_ok z.
Proof.
  induction 1 as [|z room z' chunk _ IH Hroom Hiter].
  - apply lzw_create_ok.
  - eapply lzw_decode_iter_ok; eassumption.
Qed.

Lemma land_7_bounds (a : Z) : 0 <= Z.land a 7 <= 7.
Proof.
  change 7 with (Z.ones 3) at 1 2. rewrite Z.land_ones by lia.
  pose proof (Z.mod_pos_bound a (2 ^ 3) ltac:(lia)).
  change (2 ^ 3) with 8 in *. lia.
Qed.

Lemma len_app {A} (a b : list A) : len (a ++ b) = len a + len b.
Proof. unfold len. rewrite length_app. lia. Qed.

Lemma len_span_advance (p : bytes) (rd n : Z) :
  0 <= rd -> 0 <= n -> rd + n <= len p -> len (span (advance p rd) n) = n.
Proof.
  unfold len, span, advance. intros Hrd Hn Hle.
  rewrite length_take, length_drop. lia.
Qed.

(** Every turn of the decoding loop stores a byte or moves the bit cursor
    forward while it is inside the input. *)
Lemma lzw_decode_iter_progress (z z' : Sit.lzw_state_t) (room : Z)
    (chunk : bytes) :
  lzw_ok z -> 0 < room ->
  Sit.lzw_decode_iter z room = Some (z', chunk) ->
  Sit.src_bytes z' = Sit.src_bytes z
  /\ Z.max 0 (8 * Sit.src_bytes z - Sit.bit_pos z') + 1
     <= Z.max 0 (8 * Sit.src_bytes z - Sit.bit_pos z) + len chunk
  /\ len chunk <= room.
Proof.
  intros (Ht & Hc & Hs) Hroom. unfold Sit.lzw_decode_iter.
  destruct (Z.ltb_spec (Sit.stage_rd z) (Sit.stage_len z)) as [Hrd|Hrd].
  - intros [= <- <-]. simpl. unfold Sit.stage_len in *.
    rewrite len_span_advance by lia. lia.
  - destruct (Sit.lzw_next_code z) as [[code z1]|] eqn:Hnext; [|discriminate].
    apply lzw_next_code_fields in Hnext.
    destruct Hnext as (Ht1 & Hc1 & Hs1 & Hp1 & Hsb1 & Hbp1 & Hin & _).
    destruct (code =? Sit.LZW_CLEAR_CODE).
    { intros [= <- <-]. simpl. change (len (@nil Z)) with 0.
      pose proof (land_7_bounds (Sit.block_count z1)).
      destruct (Z.land (Sit.block_count z1) 7 =? 0); simpl; nia. }
    destruct (Sit.prev z1 <? 0).
    { intros [= <- <-]. simpl.
      destruct (code <? 256); [change (len [u8 code]) with 1
                              | change (len (@nil Z)) with 0]; lia. }
    intros [= <- <-].
    set (fc := if code <? Sit.tbl_next z1 then Sit.aget (Sit.head z1) code
               else Sit.aget (Sit.head z1) (Sit.prev z1)).
    destruct (lzw_add_entry_bit_pos z1 (Sit.prev z1) fc) as [Hbp2 Hsb2].
    change (len (@nil Z)) with 0.
    destruct (code <? Sit.tbl_next (Sit.lzw_add_entry z1 (Sit.prev z1) fc));
      simpl; rewrite Hbp2, Hsb2; lia.
Qed.

Lemma lzw_decode_loop_enough (fuel : nat) :
  forall (z : Sit.lzw_state_t) (want : Z) (out : bytes),
    lzw_ok z ->
    (want - len out) + Z.max 0 (8 * Sit.src_bytes z - Sit.bit_pos z)
      <= Z.of_nat fuel ->
    exists r, Sit.lzw_decode_loop fuel z want out = Some r.
Proof.
  induction fuel as [|fuel IH]; intros z want out Hok Hfuel; simpl.
  - destruct (Z.ltb_spec (len out) want); [lia | eauto].
  - destruct (Z.ltb_spec (len out) want) as [Hlt|]; [|eauto].
    destruct (Sit.lzw_decode_iter z (want - len out)) as [[z' chunk]|] eqn:Hiter;
      [|eauto].
    assert (Hpos : 0 < want - len out) by lia.
    pose proof (lzw_decode_iter_ok _ _ _ _ Hok Hpos Hiter) as Hok'.
    pose proof (lzw_decode_iter_progress _ _ _ _ Hok Hpos Hiter)
      as (Hsb & Hstep & Hroom).
    apply IH; [exact Hok'|]. rewrite len_app, Hsb. lia.
Qed.

(** [lzw_decode] on a fresh decoder always comes to the end of its loop. *)
Lemma lzw_decode_defined (s : bytes) (n want : Z) :
  exists r, Sit.lzw_decode (Sit.lzw_create s n) want = Some r.
Proof.
  unfold Sit.lzw_decode. apply lzw_decode_loop_enough.
  - apply lzw_create_ok.
  - unfold Sit.lzw_fuel. change (len (@nil Z)) with 0. lia.
Qed.

(** C9. (1) In every state the LZW decoder reaches, the dictionary has at
    most 16384 entries and codes are at most 14 bits wide.  (2) On a full
    dictionary [lzw_add_entry] changes nothing.  (3) A turn of the decoding
    loop that reads a code while the dictionary is full does not stop the
    decoding: a clear code (256) resets the dictionary to 257 entries and
    9-bit codes, any other code leaves the four dictionary arrays, the
    entry count and the code width as they were. *)
Theorem C9_lzw_dictionary_bounded_and_frozen_when_full :
  (forall s n z,
      Reach.lzw_reachable s n z ->
      Sit.tbl_next z <= 16384 /\ Sit.code_bits z <= 14)
  /\ (forall z p b,
        Sit.LZW_TABLE_CAP <= Sit.tbl_next z -> Sit.lzw_add_entry z p b = z)
  /\ (forall z room code z1,
        Sit.tbl_next z = Sit.LZW_TABLE_CAP ->
        Sit.stage_len z <= Sit.stage_rd z ->
        Sit.lzw_next_code z = Some (code, z1) ->
        exists z' chunk,
          Sit.lzw_decode_iter z room = Some (z', chunk)
          /\ if code =? Sit.LZW_CLEAR_CODE
             then Sit.tbl_next z' = Sit.LZW_FIRST_NEW /\ Sit.code_bits z' = 9
             else Sit.tbl_next z' = Sit.LZW_TABLE_CAP
                  /\ Sit.code_bits z' = Sit.code_bits z
                  /\ Sit.prev_code z' = Sit.prev_code z
                  /\ Sit.suffix z' = Sit.suffix z
                  /\ Sit.head z' = Sit.head z
                  /\ Sit.chain_len z' = Sit.chain_len z).
Proof.
  split; [|split].
  - intros s n z Hz. apply lzw_reachable_ok in Hz.
    destruct Hz as (Ht & Hc & _). revert Ht Hc.
    change Sit.LZW_TABLE_CAP with 16384. change Sit.LZW_MAX_BITS with 14. lia.
  - apply lzw_add_entry_full.
  - intros z room code z1 Hfull Hdrained Hnext.
    unfold Sit.lzw_decode_iter.
    destruct (Z.ltb_spec (Sit.stage_rd z) (Sit.stage_len z)); [lia|].
    rewrite Hnext. apply lzw_next_code_fields in Hnext.
    destruct Hnext as (Ht1 & Hc1 & _ & _ & _ & _ & _ & Hpc & Hsf & Hhd & Hcl).
    destruct (code =? Sit.LZW_CLEAR_CODE).
    { eexists _, _. split; [reflexivity|]. simpl. split; reflexivity. }
    destruct (Sit.prev z1 <? 0).
    { eexists _, _. split; [reflexivity|]. simpl.
      rewrite Ht1, Hc1, Hpc, Hsf, Hhd, Hcl. repeat split; assumption. }
    eexists _, _. split; [reflexivity|].
    rewrite lzw_add_entry_full by lia.
    destruct (code <? Sit.tbl_next z1); simpl;
      rewrite Ht1, Hc1, Hpc, Hsf, Hhd, Hcl; repeat split; assumption.
Qed.


Lemma C9_witness :
  (Sit.tbl_next (Sit.lzw_create [65] 1) <= 16384
   /\ Sit.code_bits (Sit.lzw_create [65] 1) <= 14)
  /\ Sit.lzw_add_entry Vectors.lzw_full 66 65 = Vectors.lzw_full
  /\ exists z' chunk,
       Sit.lzw_decode_iter Vectors.lzw_full 1 = Some (z', chunk)
       /\ Sit.tbl_next z' = Sit.LZW_TABLE_CAP
       /\ Sit.code_bits z' = 14.
Proof.
  destruct C9_lzw_dictionary_bounded_and_frozen_when_full as (Ha & Hb & Hc).
  split; [|split].
  - exact (Ha [65] 1 _ (Reach.lzw_start [65] 1)).
  - apply Hb. vm_compute; discriminate.
  - assert (Hnext : exists z1, Sit.lzw_next_code Vectors.lzw_full = Some (65, z1)).
    { eexists; vm_compute; reflexivity. }
    destruct Hnext as [z1 Hnext].
    destruct (Hc Vectors.lzw_full 1 65 z1 eq_refl
                ltac:(vm_compute; discriminate) Hnext)
      as (z' & chunk & Hiter & Hrest).
    exists z', chunk. split; [exact Hiter|].
    change (65 =? Sit.LZW_CLEAR_CODE) with false in Hrest; cbv iota in Hrest.
    destruct Hrest as (Ht & Hcb & _). split; [exact Ht|].
    rewrite Hcb. reflexivity.
Defined.

(** ** BinHex *)

(** Six bits come in at every turn of the loop of [hqx_raw_byte]: after two
    turns without an end of input, a byte is there. *)
Lemma hqx_fill_two_turns (dec d : Hqx.hqx_decoder_t) :
  0 <= Hqx.accum_bits dec ->
  Hqx.hqx_fill 2 dec = Ok (false, d) -> 8 <= Hqx.accum_bits d.
Proof.
  intros Hbits. simpl.
  destruct (Z.ltb_spec (Hqx.accum_bits dec) 8) as [H1|H1];
    [|intros [= <-]; lia].
  destruct (Hqx.hqx_next_char (Hqx.src dec)) as [[ch|] rest];
    [|discriminate].
  destruct (63 <? Hqx.hqx_rev ch); [discriminate|]. simpl.
  destruct (Z.ltb_spec (Hqx.accum_bits dec + 6) 8) as [H2|H2];
    [|intros [= <-]; simpl; lia].
  destruct (Hqx.hqx_next_char rest) as [[ch2|] rest2]; [|discriminate].
  destruct (63 <? Hqx.hqx_rev ch2); [discriminate|]. simpl.
  destruct (Z.ltb_spec (Hqx.accum_bits dec + 6 + 6) 8) as [H3|H3];
    intros [= <-]; simpl; lia.
Qed.

(** So [hqx_raw_byte] never leaves a negative bit count behind. *)
Lemma hqx_raw_byte_bits (dec d : Hqx.hqx_decoder_t) (b : option Z) :
  0 <= Hqx.accum_bits dec ->
  Hqx.hqx_raw_byte dec = Ok (b, d) -> 0 <= Hqx.accum_bits d.
Proof.
  intros Hbits. unfold Hqx.hqx_raw_byte.
  destruct (Hqx.hqx_fill 2 dec) as [[[|] d']|e] eqn:Hfill; simpl;
    [| |discriminate].
  - intros [= <- <-]. revert Hfill. simpl.
    destruct (Hqx.accum_bits dec <? 8); [|discriminate].
    destruct (Hqx.hqx_next_char (Hqx.src dec)) as [[ch|] rest].
    + destruct (63 <? Hqx.hqx_rev ch); [discriminate|]. simpl.
      destruct (Hqx.accum_bits dec + 6 <? 8); [|discriminate].
      destruct (Hqx.hqx_next_char rest) as [[ch2|] rest2].
      * destruct (63 <? Hqx.hqx_rev ch2); [discriminate|]. simpl.
        destruct (Hqx.accum_bits dec + 6 + 6 <? 8); discriminate.
      * intros [= <-]. simpl. lia.
    + intros [= <-]. simpl. exact Hbits.
  - intros [= <- <-]. simpl.
    pose proof (hqx_fill_two_turns dec d' Hbits Hfill). lia.
Qed.

Lemma hqx_read_fork_empty (dec : Hqx.hqx_decoder_t) (fork_name : string) :
  Hqx.hqx_read_fork dec 0 fork_name
  = rbind (Hqx.hqx_read_bytes dec 2) (fun r =>
      if negb (rd16be (fst r) =? 0) then Err (HqxEmptyForkCrc fork_name)
      else Ok ([], snd r)).
Proof. reflexivity. Qed.

(** C8. A fork of declared length 0 is read as a two-byte CRC field.
    (1) If [hqx_read_fork] succeeds on it, the two bytes were read and the
    field is 0x0000 (and the fork is empty).  (2) If the two bytes are
    there and the field is not 0x0000, [hqx_read_fork] aborts with the
    empty-fork CRC mismatch.  (3), (4) That abort is the result of the
    whole decode, for the data fork and for the resource fork. *)
Theorem C8_hqx_empty_fork_needs_zero_crc :
  (forall dec fork_name buf dec',
      Hqx.hqx_read_fork dec 0 fork_name = Ok (buf, dec') ->
      buf = []
      /\ exists crc_bytes,
           Hqx.hqx_read_bytes dec 2 = Ok (crc_bytes, dec')
           /\ rd16be crc_bytes = 0)
  /\ (forall dec fork_name crc_bytes dec',
        Hqx.hqx_read_bytes dec 2 = Ok (crc_bytes, dec') ->
        rd16be crc_bytes <> 0 ->
        Hqx.hqx_read_fork dec 0 fork_name = Err (HqxEmptyForkCrc fork_name))
  /\ (forall s after payload hdr dec1 crc_bytes dec2,
        Hqx.hqx_find_preamble s = Some after ->
        Hqx.hqx_find_start_colon after = Some payload ->
        Hqx.hqx_parse_header (Hqx.hqx_decoder_init payload) = Ok (hdr, dec1) ->
        Hqx.data_len hdr = 0 ->
        Hqx.hqx_read_bytes dec1 2 = Ok (crc_bytes, dec2) ->
        rd16be crc_bytes <> 0 ->
        Hqx.hqx_decode s = Err (HqxEmptyForkCrc "data")
        /\ Hqx.peel_hqx s = Err (HqxEmptyForkCrc "data"))
  /\ (forall s after payload hdr dec1 d dec2 crc_bytes dec3,
        Hqx.hqx_find_preamble s = Some after ->
        Hqx.hqx_find_start_colon after = Some payload ->
        Hqx.hqx_parse_header (Hqx.hqx_decoder_init payload) = Ok (hdr, dec1) ->
        Hqx.hqx_read_fork dec1 (Hqx.data_len hdr) "data" = Ok (d, dec2) ->
        Hqx.rsrc_len hdr = 0 ->
        Hqx.hqx_read_bytes dec2 2 = Ok (crc_bytes, dec3) ->
        rd16be crc_bytes <> 0 ->
        Hqx.hqx_decode s = Err (HqxEmptyForkCrc "resource")
        /\ Hqx.peel_hqx s = Err (HqxEmptyForkCrc "resource")).
Proof.
  assert (Hbad : forall dec fork_name crc_bytes dec',
             Hqx.hqx_read_bytes dec 2 = Ok (crc_bytes, dec') ->
             rd16be crc_bytes <> 0 ->
             Hqx.hqx_read_fork dec 0 fork_name
             = Err (HqxEmptyForkCrc fork_name)).
  { intros dec fork_name crc_bytes dec' Hread Hcrc.
    rewrite hqx_read_fork_empty, Hread. simpl.
    destruct (Z.eqb_spec (rd16be crc_bytes) 0); [contradiction|reflexivity]. }
  split; [|split; [exact Hbad|split]].
  - intros dec fork_name buf dec'. rewrite hqx_read_fork_empty.
    destruct (Hqx.hqx_read_bytes dec 2) as [[crc_bytes d]|e]; simpl;
      [|discriminate].
    destruct (Z.eqb_spec (rd16be crc_bytes) 0) as [Hz|Hnz]; simpl;
      [|discriminate].
    intros [= <- <-]. split; [reflexivity|]. exists crc_bytes. auto.
  - intros s after payload hdr dec1 crc_bytes dec2
           Hpre Hcolon Hhdr Hlen Hread Hcrc.
    assert (Hdec : Hqx.hqx_decode s = Err (HqxEmptyForkCrc "data")).
    { unfold Hqx.hqx_decode. rewrite Hpre, Hcolon, Hhdr. simpl.
      rewrite Hlen, (Hbad _ _ _ _ Hread Hcrc). reflexivity. }
    split; [exact Hdec|]. unfold Hqx.peel_hqx. rewrite Hdec. reflexivity.
  - intros s after payload hdr dec1 d dec2 crc_bytes dec3
           Hpre Hcolon Hhdr Hdata Hlen Hread Hcrc.
    assert (Hdec : Hqx.hqx_decode s = Err (HqxEmptyForkCrc "resource")).
    { unfold Hqx.hqx_decode. rewrite Hpre, Hcolon, Hhdr. simpl.
      rewrite Hdata. simpl.
      rewrite Hlen, (Hbad _ _ _ _ Hread Hcrc). reflexivity. }
    split; [exact Hdec|]. unfold Hqx.peel_hqx. rewrite Hdec. reflexivity.
Qed.

Lemma C8_witness :
  (exists dec',
      Hqx.hqx_read_fork (Hqx.hqx_decoder_init (lit "!!!:")) 0 "data"
      = Ok ([], dec')
      /\ exists crc_bytes,
           Hqx.hqx_read_bytes (Hqx.hqx_decoder_init (lit "!!!:")) 2
           = Ok (crc_bytes, dec')
           /\ rd16be crc_bytes = 0)
  /\ Hqx.hqx_read_fork (Hqx.hqx_decoder_init (lit "!!%:")) 0 "data"
     = Err (HqxEmptyForkCrc "data")
  /\ Hqx.peel_hqx Vectors.hqx_empty_bad_data_crc
     = Err (HqxEmptyForkCrc "data")
  /\ Hqx.peel_hqx Vectors.hqx_empty_bad_rsrc_crc
     = Err (HqxEmptyForkCrc "resource").
Proof.
  destruct C8_hqx_empty_fork_needs_zero_crc as (H1 & H2 & H3 & H4).
  split; [|split; [|split]].
  - eexists. split; [vm_compute; reflexivity|].
    refine (proj2 (H1 _ "data"%string _ _ _)). vm_compute. reflexivity.
  - eapply H2; [vm_compute; reflexivity | vm_compute; discriminate].
  - eapply H3;
      [ vm_compute; reflexivity | vm_compute; reflexivity
      | vm_compute; reflexivity | reflexivity
      | vm_compute; reflexivity | vm_compute; discriminate ].
  - eapply H4;
      [ vm_compute; reflexivity | vm_compute; reflexivity
      | vm_compute; reflexivity | vm_compute; reflexivity | reflexivity
      | vm_compute; reflexivity | vm_compute; discriminate ].
Defined.

(** ** MacBinary *)

Lemma bytes_eqb_true (a b : bytes) : bytes_eqb a b = true <-> a = b.
Proof. unfold bytes_eqb. apply bool_decide_eq_true. Qed.

Lemma take_drop_split (l : bytes) (n m : nat) :
  drop n l = take m (drop n l) ++ drop (n + m) l.
Proof. rewrite <- drop_drop. symmetry. apply take_drop. Qed.

Lemma looks_like_sit_classic (buf : bytes) :
  Reach.spec_classic_signature buf -> Bin.looks_like_sit buf = true.
Proof.
  intros (sig & mid & rest & Hsig & Hmid & ->).
  do 7 (destruct mid as [|? mid]; try discriminate). clear Hmid.
  unfold Bin.looks_like_sit.
  match goal with |- (if ?c then _ else _) = _ => destruct c end;
    [reflexivity|].
  assert (Hlen : length sig = 4%nat).
  { simpl in Hsig. intuition (subst; reflexivity). }
  match goal with |- context [14 <=? ?x] =>
    destruct (Z.leb_spec 14 x) as [_|Hshort] end.
  - apply existsb_exists. exists sig. split; [exact Hsig|].
    apply andb_true_iff. split; apply bytes_eqb_true.
    + unfold span. change (Z.to_nat 4) with 4%nat.
      apply take_app_length'. symmetry. exact Hlen.
    + unfold span, advance. change (Z.to_nat 4) with 4%nat.
      change (Z.to_nat 10) with 10%nat.
      rewrite drop_app_ge by lia. rewrite Hlen. reflexivity.
  - unfold len in Hshort. rewrite !length_app, Hlen in Hshort.
    simpl in Hshort. lia.
Qed.

Lemma looks_like_sit_sit5 (buf : bytes) :
  Reach.spec_sit5_banner buf -> Bin.looks_like_sit buf = true.
Proof.
  intros (year & crlf & rest & Hyear & Hcrlf & ->).
  do 5 (destruct year as [|? year]; try discriminate). clear Hyear.
  do 3 (destruct crlf as [|? crlf]; try discriminate). clear Hcrlf.
  unfold Bin.looks_like_sit.
  match goal with |- (if ?c then _ else _) = _ =>
    assert (Hc : c = true); [|rewrite Hc; reflexivity] end.
  apply andb_true_iff. split; [apply andb_true_iff; split|].
  - apply Z.leb_le. unfold len. rewrite !length_app. simpl. lia.
  - apply bytes_eqb_true. reflexivity.
  - apply bytes_eqb_true. reflexivity.
Qed.

Lemma classic_of_existsb (buf : bytes) :
  14 <= len buf ->
  existsb (fun sig => bytes_eqb (span buf 4) sig
                      && bytes_eqb (span (advance buf 10) 4) (lit "rLau"))
          Bin.sigs = true ->
  Reach.spec_classic_signature buf.
Proof.
  intros H14 Hex. apply existsb_exists in Hex.
  destruct Hex as (sig & Hsig & Hboth).
  apply andb_true_iff in Hboth. destruct Hboth as [H4 Hr].
  apply bytes_eqb_true in H4. apply bytes_eqb_true in Hr.
  unfold span, advance in H4, Hr.
  change (Z.to_nat 4) with 4%nat in *.
  change (Z.to_nat 10) with 10%nat in *.
  exists sig, (take 6 (drop 4 buf)), (drop 14 buf).
  unfold len in *.
  split; [exact Hsig|].
  split; [rewrite length_take, length_drop; lia|].
  rewrite <- H4, <- Hr.
  change (drop 14 buf) with (drop (10 + 4) buf).
  rewrite <- (take_drop_split buf 10 4).
  change (drop 10 buf) with (drop (4 + 6) buf).
  rewrite <- (take_drop_split buf 4 6).
  symmetry. apply take_drop.
Qed.

Lemma sit5_of_tests (buf : bytes) :
  80 <= len buf ->
  bytes_eqb (span buf 16) Bin.sit5_banner_16 = true ->
  bytes_eqb (span (advance buf 20) 58) Bin.sit5_banner_58 = true ->
  Reach.spec_sit5_banner buf.
Proof.
  intros H80 H16 H58.
  apply bytes_eqb_true in H16. apply bytes_eqb_true in H58.
  unfold span, advance in H16, H58.
  change (Z.to_nat 16) with 16%nat in H16.
  change (Z.to_nat 58) with 58%nat in H58.
  change (Z.to_nat 20) with 20%nat in H58.
  exists (take 4 (drop 16 buf)), (take 2 (drop 78 buf)), (drop 80 buf).
  unfold len in H80.
  split; [rewrite length_take, length_drop; lia|].
  split; [rewrite length_take, length_drop; lia|].
  change Bin.sit5_banner_16 with (lit "StuffIt (c)1997-") in H16.
  change Bin.sit5_banner_58 with
    (lit " Aladdin Systems, Inc., http://www.aladdinsys.com/StuffIt/") in H58.
  rewrite <- H16, <- H58.
  change (drop 80 buf) with (drop (78 + 2) buf).
  rewrite <- (take_drop_split buf 78 2).
  change (drop 78 buf) with (drop (20 + 58) buf).
  rewrite <- (take_drop_split buf 20 58).
  change (drop 20 buf) with (drop (16 + 4) buf).
  rewrite <- (take_drop_split buf 16 4).
  symmetry. apply take_drop.
Qed.

(** [looks_like_sit] decides what the spec calls a recognized StuffIt
    signature at the start of the buffer. *)
Lemma looks_like_sit_spec (buf : bytes) :
  Bin.looks_like_sit buf = true
  <-> Reach.spec_begins_with_stuffit_signature buf.
Proof.
  split.
  - unfold Bin.looks_like_sit.
    match goal with |- (if ?c then _ else _) = _ -> _ =>
      destruct c eqn:H5 end.
    + intros _. right.
      apply andb_true_iff in H5. destruct H5 as [H5 H58].
      apply andb_true_iff in H5. destruct H5 as [H80 H16].
      apply Z.leb_le in H80. apply sit5_of_tests; assumption.
    + destruct (Z.leb_spec 14 (len buf)); [|discriminate].
      intros Hex. left. apply classic_of_existsb; assumption.
  - intros [Hc|H5]; [apply looks_like_sit_classic | apply looks_like_sit_sit5];
      assumption.
Qed.

(** C7. When [bin_decode] yields a file, [peel_bin] returns one of its two
    forks: the resource fork if the data fork does not begin with a
    recognized StuffIt signature and the resource fork is not empty, and
    the data fork in every other case. *)
Theorem C7_peel_bin_fork_selection (s : bytes) (file : peel_file_t) :
  Bin.bin_decode s = Ok file ->
  (~ Reach.spec_begins_with_stuffit_signature (data_fork file)
   /\ resource_fork file <> []
   /\ Bin.peel_bin s = Ok (resource_fork file))
  \/ (~ (~ Reach.spec_begins_with_stuffit_signature (data_fork file)
         /\ resource_fork file <> [])
      /\ Bin.peel_bin s = Ok (data_fork file)).
Proof.
  intros Hdec. unfold Bin.peel_bin. rewrite Hdec. simpl.
  destruct (Bin.looks_like_sit (data_fork file)) eqn:Hsit.
  - right.
    assert (Hspec : Reach.spec_begins_with_stuffit_signature (data_fork file))
      by (apply looks_like_sit_spec; exact Hsit).
    split; [tauto|].
    destruct (Z.eqb_spec (len (data_fork file)) 0) as [Hz|Hnz]; simpl.
    + destruct (len (resource_fork file) =? 0); [reflexivity|].
      destruct (data_fork file); [|discriminate Hz]. discriminate Hsit.
    + reflexivity.
  - assert (Hspec : ~ Reach.spec_begins_with_stuffit_signature (data_fork file)).
    { intros Hs. apply looks_like_sit_spec in Hs. congruence. }
    rewrite andb_false_r. simpl.
    destruct (Z.eqb_spec (len (resource_fork file)) 0) as [Hz|Hnz].
    + right. split; [|reflexivity]. intros [_ Hne]. apply Hne.
      destruct (resource_fork file); [reflexivity|discriminate Hz].
    + left. split; [exact Hspec|]. split; [|reflexivity].
      intros Heq. rewrite Heq in Hnz. apply Hnz. reflexivity.
Qed.

Lemma C7_witness :
  Bin.bin_decode Vectors.bin_text_and_rsrc
  = Ok {| meta := {| name := lit "a"; mac_type := 1413830740;
                     mac_creator := 1953790068; finder_flags := 0 |};
          data_fork := lit "hello"; resource_fork := [1; 2; 3] |}
  /\ Bin.peel_bin Vectors.bin_text_and_rsrc = Ok [1; 2; 3].
Proof.
  assert (Hdec : Bin.bin_decode Vectors.bin_text_and_rsrc
                 = Ok {| meta := {| name := lit "a"; mac_type := 1413830740;
                                    mac_creator := 1953790068;
                                    finder_flags := 0 |};
                         data_fork := lit "hello";
                         resource_fork := [1; 2; 3] |})
    by (vm_compute; reflexivity).
  split; [exact Hdec|].
  destruct (C7_peel_bin_fork_selection _ _ Hdec) as [(_ & _ & Hr)|(_ & Hd)].
  - exact Hr.
  - rewrite Hd. vm_compute in Hd. discriminate Hd.
Defined.

(** ** Compact Pro: run-length stage *)

(** C3 as stated fails: read to its end, the input 41 81 82 03 gives three
    bytes 41 and the input 41 81 82 05 gives five; neither 41 41 nor
    41 41 41 41 is what the decoder produces. *)
Lemma C3_counterexample :
  fst (Cpt.cp_rle_read 4 (Cpt.cp_rle_init [0x41; 0x81; 0x82; 0x03]))
    = [0x41; 0x41; 0x41]
  /\ bytes_eqb
       (fst (Cpt.cp_rle_read 4 (Cpt.cp_rle_init [0x41; 0x81; 0x82; 0x03])))
       [0x41; 0x41] = false
  /\ fst (Cpt.cp_rle_read 6 (Cpt.cp_rle_init [0x41; 0x81; 0x82; 0x05]))
       = [0x41; 0x41; 0x41; 0x41; 0x41]
  /\ bytes_eqb
       (fst (Cpt.cp_rle_read 6 (Cpt.cp_rle_init [0x41; 0x81; 0x82; 0x05])))
       [0x41; 0x41; 0x41; 0x41] = false.
Proof.
  repeat split; vm_compute; reflexivity.
Qed.

(** C3, amended.  The count byte N of 81 82 N is the length of the whole
    run, the byte before the escape included: 41 81 82 03 decodes to three
    bytes 41 and 41 81 82 05 to five.  A call that may store at most [max]
    bytes stores the first [max] of them. *)
Theorem C3_cp_rle_run_length_is_count (max : nat) :
  fst (Cpt.cp_rle_read max (Cpt.cp_rle_init [0x41; 0x81; 0x82; 0x03]))
    = take max [0x41; 0x41; 0x41]
  /\ fst (Cpt.cp_rle_read max (Cpt.cp_rle_init [0x41; 0x81; 0x82; 0x05]))
       = take max [0x41; 0x41; 0x41; 0x41; 0x41].
Proof.
  do 6 (destruct max as [|max]; [split; reflexivity|]).
  split; reflexivity.
Qed.

(** ** The driver *)

Section DriverFacts.

Variable g_formats : list Peeler.peel_format_t.

Abbreviation detect_format := (Peeler.detect_format g_formats).
Abbreviation peel_depth_loop := (Peeler.peel_depth_loop g_formats).
Abbreviation recursive_peel_loop := (Peeler.recursive_peel_loop g_formats).
Abbreviation recursive_peel_files := (Peeler.recursive_peel_files g_formats).
Abbreviation peel_depth := (Peeler.peel_depth g_formats).
Abbreviation peel := (Peeler.peel g_formats).
Abbreviation unwrapped := (Reach.unwrapped g_formats).
Abbreviation from_archive := (Reach.from_archive g_formats).

Lemma detect_format_in (s : bytes) (fmt : Peeler.peel_format_t) :
  detect_format s = Some fmt -> In fmt g_formats.
Proof.
  unfold Peeler.detect_format. intros H. apply find_some in H. tauto.
Qed.

(** How the wrapper loop ends, in terms of the layers it peeled; it does
    not end when a peel function it calls does not return. *)
Lemma peel_depth_loop_layers (turns : nat) :
  forall s,
    match peel_depth_loop turns s with
    | Some (Peeler.LoopDone cur) =>
        exists k, (k <= turns)%nat /\ unwrapped k s cur
                  /\ (k = turns \/ detect_format cur = None)
    | Some (Peeler.LoopArchive files) =>
        exists k cur fmt peel_archive,
          (k < turns)%nat /\ unwrapped k s cur
          /\ detect_format cur = Some fmt
          /\ Peeler.kind fmt = Peeler.PEEL_FMT_ARCHIVE peel_archive
          /\ peel_archive cur = Some (Ok files)
    | Some (Peeler.LoopFailed e) =>
        exists k cur fmt,
          (k < turns)%nat /\ unwrapped k s cur
          /\ detect_format cur = Some fmt
          /\ match Peeler.kind fmt with
             | Peeler.PEEL_FMT_WRAPPER peel_wrapper =>
                 peel_wrapper cur = Some (Err e)
             | Peeler.PEEL_FMT_ARCHIVE peel_archive =>
                 peel_archive cur = Some (Err e)
             end
    | None =>
        exists k cur fmt,
          (k < turns)%nat /\ unwrapped k s cur
          /\ detect_format cur = Some fmt
          /\ match Peeler.kind fmt with
             | Peeler.PEEL_FMT_WRAPPER peel_wrapper => peel_wrapper cur = None
             | Peeler.PEEL_FMT_ARCHIVE peel_archive => peel_archive cur = None
             end
    end.
Proof.
  assert (Hgen : forall n j s0 cur0,
             unwrapped j s0 cur0 ->
             match peel_depth_loop n cur0 with
             | Some (Peeler.LoopDone cur) =>
                 exists k, (k <= j + n)%nat /\ unwrapped k s0 cur
                           /\ (k = (j + n)%nat \/ detect_format cur = None)
             | Some (Peeler.LoopArchive files) =>
                 exists k cur fmt peel_archive,
                   (k < j + n)%nat /\ unwrapped k s0 cur
                   /\ detect_format cur = Some fmt
                   /\ Peeler.kind fmt = Peeler.PEEL_FMT_ARCHIVE peel_archive
                   /\ peel_archive cur = Some (Ok files)
             | Some (Peeler.LoopFailed e) =>
                 exists k cur fmt,
                   (k < j + n)%nat /\ unwrapped k s0 cur
                   /\ detect_format cur = Some fmt
                   /\ match Peeler.kind fmt with
                      | Peeler.PEEL_FMT_WRAPPER peel_wrapper =>
                          peel_wrapper cur = Some (Err e)
                      | Peeler.PEEL_FMT_ARCHIVE peel_archive =>
                          peel_archive cur = Some (Err e)
                      end
             | None =>
                 exists k cur fmt,
                   (k < j + n)%nat /\ unwrapped k s0 cur
                   /\ detect_format cur = Some fmt
                   /\ match Peeler.kind fmt with
                      | Peeler.PEEL_FMT_WRAPPER peel_wrapper =>
                          peel_wrapper cur = None
                      | Peeler.PEEL_FMT_ARCHIVE peel_archive =>
                          peel_archive cur = None
                      end
             end).
  { induction n as [|n IH]; intros j s0 cur0 Hj; simpl.
    - exists j. split; [lia|]. split; [exact Hj|]. left. lia.
    - destruct (detect_format cur0) as [fmt|] eqn:Hdet.
      + destruct (Peeler.kind fmt) as [pw|pa] eqn:Hkind.
        * destruct (pw cur0) as [[decoded|e]|] eqn:Hpw.
          -- specialize (IH (S j) s0 decoded
                           (Reach.unwrapped_layer _ _ _ _ _ _ _ Hj Hdet Hkind
                              Hpw)).
             destruct (peel_depth_loop n decoded) as [[e|files|cur]|].
             ++ destruct IH as (k & c & f & Hk & Hrest).
                exists k, c, f. split; [lia|exact Hrest].
             ++ destruct IH as (k & c & f & pa & Hk & Hrest).
                exists k, c, f, pa. split; [lia|exact Hrest].
             ++ destruct IH as (k & Hk & Hu & Hend).
                exists k. split; [lia|]. split; [exact Hu|].
                destruct Hend as [->|Hnone]; [left; lia|right; exact Hnone].
             ++ destruct IH as (k & c & f & Hk & Hrest).
                exists k, c, f. split; [lia|exact Hrest].
          -- exists j, cur0, fmt. split; [lia|]. split; [exact Hj|].
             split; [exact Hdet|]. rewrite Hkind. exact Hpw.
          -- exists j, cur0, fmt. split; [lia|]. split; [exact Hj|].
             split; [exact Hdet|]. rewrite Hkind. exact Hpw.
        * destruct (pa cur0) as [[files|e]|] eqn:Hpa.
          -- exists j, cur0, fmt, pa. split; [lia|]. auto.
          -- exists j, cur0, fmt. split; [lia|]. split; [exact Hj|].
             split; [exact Hdet|]. rewrite Hkind. exact Hpa.
          -- exists j, cur0, fmt. split; [lia|]. split; [exact Hj|].
             split; [exact Hdet|]. rewrite Hkind. exact Hpa.
      + exists j. split; [lia|]. split; [exact Hj|]. right. exact Hdet. }
  intros s. exact (Hgen turns O s s (Reach.unwrapped_none _ s)).
Qed.


(** [recursive_peel_loop] never answers with an error. *)
Lemma recursive_peel_loop_no_error
    (rec : bytes -> Z -> option (result peel_file_list_t))
    (files : list peel_file_t) (depth : Z) (e : peel_err_t) :
  forall res, recursive_peel_loop rec files depth res <> Some (Err e).
Proof.
  induction files as [|f rest IH]; intros res; simpl; [discriminate|].
  destruct (Peeler.wrapper_in g_formats f); [|apply IH].
  destruct (rec (data_fork f) (depth + 1)) as [[sub|e']|];
    [apply IH|apply IH|discriminate].
Qed.

(** With a [rec] that answers on the data forks it is given,
    [recursive_peel_loop] answers. *)
Lemma recursive_peel_loop_succeeds
    (rec : bytes -> Z -> option (result peel_file_list_t))
    (files : list peel_file_t) (depth : Z) :
  (forall f, In f files -> Peeler.wrapper_in g_formats f <> None ->
             exists r, rec (data_fork f) (depth + 1) = Some r) ->
  forall res, exists l, recursive_peel_loop rec files depth res = Some (Ok l).
Proof.
  induction files as [|f rest IH]; intros Hrec res; simpl.
  - eauto.
  - assert (Hrest : forall g, In g rest ->
                      Peeler.wrapper_in g_formats g <> None ->
                      exists r, rec (data_fork g) (depth + 1) = Some r)
      by (intros g Hg; apply Hrec; right; exact Hg).
    destruct (Peeler.wrapper_in g_formats f) eqn:Hw; [|apply IH; exact Hrest].
    destruct (Hrec f (or_introl eq_refl)) as [[sub|e] ->];
      [rewrite Hw; discriminate| |]; apply IH; exact Hrest.
Qed.

Lemma recursive_peel_files_succeeds
    (rec : bytes -> Z -> option (result peel_file_list_t))
    (files : list peel_file_t) (depth : Z) :
  (forall f, In f files -> Peeler.wrapper_in g_formats f <> None ->
             exists r, rec (data_fork f) (depth + 1) = Some r) ->
  exists l, recursive_peel_files rec files depth = Some (Ok l).
Proof.
  intros Hrec. unfold Peeler.recursive_peel_files.
  destruct files as [|f0 files0] eqn:Hf; [eauto|]. rewrite <- Hf in *.
  apply recursive_peel_loop_succeeds. exact Hrec.
Qed.

Lemma peel_depth_S (fuel : nat) (s : bytes) (depth : Z) :
  peel_depth (S fuel) s depth
  = if Peeler.MAX_PEEL_DEPTH <=? depth
    then Some (Ok (Peeler.wrap_single_file s))
    else match peel_depth_loop 32 s with
         | None => None
         | Some (Peeler.LoopFailed e) => Some (Err e)
         | Some (Peeler.LoopArchive files) =>
             recursive_peel_files (peel_depth fuel) files depth
         | Some (Peeler.LoopDone cur) =>
             Some (Ok (Peeler.wrap_single_file cur))
         end.
Proof. reflexivity. Qed.

(** When every peel function of the table returns, the wrapper loop ends
    and [peel_depth] answers as soon as its fuel covers the depths left. *)
Lemma peel_depth_loop_returns (turns : nat) :
  Reach.handlers_return g_formats ->
  forall s, exists x, peel_depth_loop turns s = Some x.
Proof.
  intros Hret. induction turns as [|turns IH]; intros s; simpl; [eauto|].
  destruct (detect_format s) as [fmt|] eqn:Hdet; [|eauto].
  pose proof (Hret fmt (detect_format_in s fmt Hdet)) as Hfmt.
  destruct (Peeler.kind fmt) as [pw|pa].
  - destruct (pw s) as [[decoded|e]|] eqn:Hpw; [apply IH|eauto|].
    exfalso. exact (Hfmt s Hpw).
  - destruct (pa s) as [[files|e]|] eqn:Hpa; [eauto|eauto|].
    exfalso. exact (Hfmt s Hpa).
Qed.

Lemma peel_depth_total (fuel : nat) :
  Reach.handlers_return g_formats ->
  forall s depth,
    (1 <= fuel)%nat ->
    Peeler.MAX_PEEL_DEPTH + 1 - depth <= Z.of_nat fuel ->
    exists r, peel_depth fuel s depth = Some r.
Proof.
  intros Hret.
  induction fuel as [|fuel IH]; intros s depth H1 Hfuel; [lia|].
  rewrite peel_depth_S.
  destruct (Z.leb_spec Peeler.MAX_PEEL_DEPTH depth) as [Hcap|Hlow]; [eauto|].
  destruct (peel_depth_loop_returns 32 Hret s) as [[e|files|cur] ->];
    [eauto| |eauto].
  destruct (recursive_peel_files_succeeds (peel_depth fuel) files depth)
    as [l Hl]; [|eauto].
  intros f _ _. apply IH; unfold Peeler.MAX_PEEL_DEPTH in *; lia.
Qed.

Lemma peel_depth_at_cap (fuel : nat) (s : bytes) (depth : Z) :
  Peeler.MAX_PEEL_DEPTH <= depth ->
  peel_depth (S fuel) s depth = Some (Ok (Peeler.wrap_single_file s)).
Proof.
  intros Hcap. rewrite peel_depth_S.
  destruct (Z.leb_spec Peeler.MAX_PEEL_DEPTH depth); [reflexivity|lia].
Qed.

Lemma peel_of_loop_done (s cur : bytes) :
  peel_depth_loop 32 s = Some (Peeler.LoopDone cur) ->
  peel s = Some (Ok (Peeler.wrap_single_file cur)).
Proof.
  intros Hloop. unfold Peeler.peel.
  change (Z.to_nat (Peeler.MAX_PEEL_DEPTH + 1)) with 33%nat.
  rewrite peel_depth_S, Hloop. reflexivity.
Qed.

(** More fuel never changes an answer of [peel_depth]. *)
Lemma recursive_peel_loop_mono
    (rec1 rec2 : bytes -> Z -> option (result peel_file_list_t))
    (files : list peel_file_t) (depth : Z) :
  (forall s d r, rec1 s d = Some r -> rec2 s d = Some r) ->
  forall res r,
    recursive_peel_loop rec1 files depth res = Some r ->
    recursive_peel_loop rec2 files depth res = Some r.
Proof.
  intros Hmono. induction files as [|f rest IH]; intros res r; simpl;
    [trivial|].
  destruct (Peeler.wrapper_in g_formats f); [|apply IH].
  destruct (rec1 (data_fork f) (depth + 1)) as [sub|] eqn:Hsub;
    [|discriminate].
  rewrite (Hmono _ _ _ Hsub). destruct sub; apply IH.
Qed.

Lemma peel_depth_fuel_mono (fuel : nat) :
  forall s depth r,
    peel_depth fuel s depth = Some r -> peel_depth (S fuel) s depth = Some r.
Proof.
  induction fuel as [|fuel IH]; intros s depth r; [discriminate|].
  rewrite (peel_depth_S (S fuel)), (peel_depth_S fuel).
  destruct (Peeler.MAX_PEEL_DEPTH <=? depth); [trivial|].
  destruct (peel_depth_loop 32 s) as [[e|files|cur]|]; [trivial| |trivial|trivial].
  unfold Peeler.recursive_peel_files. destruct files; [trivial|].
  apply recursive_peel_loop_mono. exact IH.
Qed.

(** Fuel beyond the depths left changes nothing at all: when [peel_depth]
    has no answer with [MAX_PEEL_DEPTH + 1 - depth] units, a peel function
    did not return. *)
Lemma recursive_peel_loop_ext
    (rec1 rec2 : bytes -> Z -> option (result peel_file_list_t))
    (files : list peel_file_t) (depth : Z) :
  (forall s, rec1 s (depth + 1) = rec2 s (depth + 1)) ->
  forall res,
    recursive_peel_loop rec1 files depth res
    = recursive_peel_loop rec2 files depth res.
Proof.
  intros Hext. induction files as [|f rest IH]; intros res; simpl;
    [reflexivity|].
  destruct (Peeler.wrapper_in g_formats f); [|apply IH].
  rewrite Hext.
  destruct (rec2 (data_fork f) (depth + 1)) as [[sub|e]|];
    [apply IH|apply IH|reflexivity].
Qed.

Lemma peel_depth_enough (fuel1 : nat) :
  forall (fuel2 : nat) (s : bytes) (depth : Z),
    (1 <= fuel1)%nat -> (1 <= fuel2)%nat ->
    Peeler.MAX_PEEL_DEPTH + 1 - depth <= Z.of_nat fuel1 ->
    Peeler.MAX_PEEL_DEPTH + 1 - depth <= Z.of_nat fuel2 ->
    peel_depth fuel1 s depth = peel_depth fuel2 s depth.
Proof.
  induction fuel1 as [|fuel1 IH]; intros fuel2 s depth H1 H2 He1 He2; [lia|].
  destruct fuel2 as [|fuel2]; [lia|].
  rewrite !peel_depth_S.
  destruct (Z.leb_spec Peeler.MAX_PEEL_DEPTH depth) as [Hcap|Hlow];
    [reflexivity|].
  destruct (peel_depth_loop 32 s) as [[e|files|cur]|]; try reflexivity.
  unfold Peeler.recursive_peel_files. destruct files as [|f files];
    [reflexivity|].
  apply recursive_peel_loop_ext. intros s'.
  apply IH; unfold Peeler.MAX_PEEL_DEPTH in *; lia.
Qed.




(** The depth cap of the driver.  (1) When every peel function of the
    table returns, [peel] returns on every input.  (2) At depth 32 or more,
    [peel_depth] wraps its input as a single file at once, which bounds the
    recursion through re-peeling.  (3) When the wrapper loop ends without an
    archive, at most 32 wrapper layers were peeled, and what is left is
    wrapped as a single file.  (4) An input on which every one of the
    first 32 layers detects as a wrapper that peels is returned as the
    single-file wrap of what is left after exactly 32 layers. *)
Lemma peel_depth_cap :
  (Reach.handlers_return g_formats -> forall s, exists r, peel s = Some r)
  /\ (forall fuel s depth,
        Peeler.MAX_PEEL_DEPTH <= depth ->
        peel_depth (S fuel) s depth = Some (Ok (Peeler.wrap_single_file s)))
  /\ (forall s cur,
        peel_depth_loop 32 s = Some (Peeler.LoopDone cur) ->
        (exists k, (k <= 32)%nat /\ unwrapped k s cur
                   /\ (k = 32%nat \/ detect_format cur = None))
        /\ peel s = Some (Ok (Peeler.wrap_single_file cur)))
  /\ (forall s,
        (forall k cur,
            (k < 32)%nat -> unwrapped k s cur ->
            exists fmt peel_wrapper decoded,
              detect_format cur = Some fmt
              /\ Peeler.kind fmt = Peeler.PEEL_FMT_WRAPPER peel_wrapper
              /\ peel_wrapper cur = Some (Ok decoded)) ->
        exists cur,
          unwrapped 32 s cur
          /\ peel s = Some (Ok (Peeler.wrap_single_file cur))).
Proof.
  split; [|split; [|split]].
  - intros Hret s. unfold Peeler.peel. apply peel_depth_total.
    + exact Hret.
    + unfold Peeler.MAX_PEEL_DEPTH. lia.
    + unfold Peeler.MAX_PEEL_DEPTH. lia.
  - intros fuel s depth. apply peel_depth_at_cap.
  - intros s cur Hloop. split; [|apply peel_of_loop_done; exact Hloop].
    pose proof (peel_depth_loop_layers 32 s) as Hl. rewrite Hloop in Hl.
    exact Hl.
  - intros s Hspin.
    pose proof (peel_depth_loop_layers 32 s) as Hl.
    destruct (peel_depth_loop 32 s) as [[e|files|cur]|] eqn:Hloop.
    + destruct Hl as (k & c & fmt & Hk & Hu & Hdet & Hfail).
      destruct (Hspin k c Hk Hu) as (fmt' & pw & d & Hdet' & Hkind & Hpw).
      rewrite Hdet in Hdet'. injection Hdet' as <-. rewrite Hkind in Hfail.
      congruence.
    + destruct Hl as (k & c & fmt & pa & Hk & Hu & Hdet & Hkind & _).
      destruct (Hspin k c Hk Hu) as (fmt' & pw & d & Hdet' & Hkind' & _).
      rewrite Hdet in Hdet'. injection Hdet' as <-. congruence.
    + destruct Hl as (k & Hk & Hu & Hend).
      exists cur. split; [|apply peel_of_loop_done; exact Hloop].
      destruct Hend as [->|Hnone]; [exact Hu|].
      destruct (Nat.eq_dec k 32) as [->|Hne]; [exact Hu|].
      destruct (Hspin k cur ltac:(lia) Hu) as (fmt & pw & d & Hdet & _).
      congruence.
    + destruct Hl as (k & c & fmt & Hk & Hu & Hdet & Hhang).
      destruct (Hspin k c Hk Hu) as (fmt' & pw & d & Hdet' & Hkind & Hpw).
      rewrite Hdet in Hdet'. injection Hdet' as <-. rewrite Hkind in Hhang.
      congruence.
Qed.


(** Every file [peel_depth] returns is a single-file wrap or a file that an
    archive decoder returned. *)
Lemma peel_depth_files (fuel : nat) :
  forall s depth l,
    peel_depth fuel s depth = Some (Ok l) ->
    Forall (fun f =>
              (meta f = meta Peeler.zero_file /\ resource_fork f = []
               /\ data_fork f <> [])
              \/ f = Peeler.zero_file \/ from_archive f) l.
Proof.
  assert (Hwrap : forall buf,
             Forall (fun f =>
                       (meta f = meta Peeler.zero_file /\ resource_fork f = []
                        /\ data_fork f <> [])
                       \/ f = Peeler.zero_file \/ from_archive f)
                    (Peeler.wrap_single_file buf)).
  { intros buf. constructor; [|constructor].
    destruct buf as [|b buf]; [right; left; reflexivity|].
    left. split; [reflexivity|]. split; [reflexivity|]. discriminate. }
  induction fuel as [|fuel IH]; intros s depth l; [discriminate|].
  rewrite peel_depth_S.
  destruct (Peeler.MAX_PEEL_DEPTH <=? depth).
  { intros [= <-]. apply Hwrap. }
  pose proof (peel_depth_loop_layers 32 s) as Hl.
  destruct (peel_depth_loop 32 s) as [[e|files|cur]|];
    [discriminate| | |discriminate].
  - destruct Hl as (k & c & fmt & pa & _ & _ & Hdet & Hkind & Hpa).
    assert (Hfiles : Forall (fun f => from_archive f) files).
    { apply List.Forall_forall. intros f Hin. exists fmt, pa, c, files.
      split; [eapply detect_format_in; exact Hdet|]. repeat split; assumption. }
    unfold Peeler.recursive_peel_files.
    destruct files as [|f0 files0] eqn:Hf; [intros [= <-]; constructor|].
    rewrite <- Hf in *. clear Hf f0 files0.
    assert (Hgen : forall fs res l',
               Forall (fun f => from_archive f) fs ->
               Forall (fun f =>
                         (meta f = meta Peeler.zero_file
                          /\ resource_fork f = [] /\ data_fork f <> [])
                         \/ f = Peeler.zero_file \/ from_archive f) res ->
               recursive_peel_loop (peel_depth fuel) fs depth res
                 = Some (Ok l') ->
               Forall (fun f =>
                         (meta f = meta Peeler.zero_file
                          /\ resource_fork f = [] /\ data_fork f <> [])
                         \/ f = Peeler.zero_file \/ from_archive f) l').
    { induction fs as [|f fs IHfs]; intros res l' Hfs Hres; simpl.
      - intros [= <-]. exact Hres.
      - inversion Hfs as [|? ? Hf Hfs']; subst.
        assert (Hkeep : Forall (fun f =>
                         (meta f = meta Peeler.zero_file
                          /\ resource_fork f = [] /\ data_fork f <> [])
                         \/ f = Peeler.zero_file \/ from_archive f)
                          (res ++ [f])).
        { apply Forall_app. split; [exact Hres|].
          constructor; [right; right; exact Hf|constructor]. }
        destruct (Peeler.wrapper_in g_formats f); [|apply IHfs; assumption].
        destruct (peel_depth fuel (data_fork f) (depth + 1))
          as [[sub|e]|] eqn:Hsub; [| |discriminate].
        + apply IHfs; [assumption|]. apply Forall_app. split; [exact Hres|].
          eapply IH. exact Hsub.
        + apply IHfs; assumption. }
    apply Hgen; [exact Hfiles|constructor].
  - intros [= <-]. apply Hwrap.
Qed.

(** C2, amended.  A file in a list that [peel] returns is of one of three
    kinds: the single-file wrap of a nonempty buffer, with that buffer as
    its data fork, no resource fork and no metadata; the single-file wrap
    of an empty buffer, both of whose forks are empty; or a file that an
    archive decoder of the handler table returned. *)
Theorem C2_peel_files_are_wraps_or_archive_files
    (s : bytes) (l : peel_file_list_t) (f : peel_file_t) :
  peel s = Some (Ok l) ->
  In f l ->
  (meta f = meta Peeler.zero_file /\ resource_fork f = []
   /\ data_fork f <> [])
  \/ f = Peeler.zero_file
  \/ from_archive f.
Proof.
  intros Hpeel Hin. apply peel_depth_files in Hpeel.
  rewrite List.Forall_forall in Hpeel. apply Hpeel. exact Hin.
Qed.

End DriverFacts.

(** [peel] on the empty input, whatever the parametric decoders are: no
    format detects, and the empty buffer is wrapped as a single file. *)
Lemma peel_empty_input
    (s13 s15 : bytes -> Z -> Z -> result bytes)
    (cpt : bytes -> option (result peel_file_list_t)) :
  Peeler.peel (Peeler.g_formats s13 s15 cpt) []
  = Some (Ok [Peeler.zero_file]).
Proof. reflexivity. Qed.

(** C2 as stated fails: [peel] on the empty input returns a list of one
    file, and both forks of that file have size 0.  So does [peel] on a
    BinHex file whose forks are both empty. *)
Lemma C2_counterexample :
  Peeler.peel Vectors.g_formats [] = Some (Ok [Peeler.zero_file])
  /\ Peeler.peel Vectors.g_formats Vectors.hqx_empty_ok
     = Some (Ok [Peeler.zero_file])
  /\ len (data_fork Peeler.zero_file) = 0
  /\ len (resource_fork Peeler.zero_file) = 0.
Proof.
  split; [reflexivity|]. split; [vm_compute; reflexivity|].
  split; reflexivity.
Qed.

Lemma C2_witness :
  Peeler.peel Vectors.g_formats [] = Some (Ok [Peeler.zero_file])
  /\ In Peeler.zero_file [Peeler.zero_file]
  /\ ((meta Peeler.zero_file = meta Peeler.zero_file
       /\ resource_fork Peeler.zero_file = []
       /\ data_fork Peeler.zero_file <> [])
      \/ Peeler.zero_file = Peeler.zero_file
      \/ Reach.from_archive Vectors.g_formats Peeler.zero_file).
Proof.
  assert (Hpeel : Peeler.peel Vectors.g_formats []
                  = Some (Ok [Peeler.zero_file])) by reflexivity.
  assert (Hin : In Peeler.zero_file [Peeler.zero_file]) by (left; reflexivity).
  split; [exact Hpeel|]. split; [exact Hin|].
  exact (C2_peel_files_are_wraps_or_archive_files
           Vectors.g_formats [] [Peeler.zero_file] Peeler.zero_file Hpeel Hin).
Defined.


Lemma spinning_always_unwraps (k : nat) (s cur : bytes) :
  (k < 32)%nat ->
  Reach.unwrapped Vectors.spinning_formats k s cur ->
  exists fmt peel_wrapper decoded,
    Peeler.detect_format Vectors.spinning_formats cur = Some fmt
    /\ Peeler.kind fmt = Peeler.PEEL_FMT_WRAPPER peel_wrapper
    /\ peel_wrapper cur = Some (Ok decoded).
Proof.
  intros _ _. eexists _, _, _. split; [reflexivity|]. split; reflexivity.
Qed.

(** The depth cap at work: at depth 32 the input is wrapped at once, and a
    table whose one format detects on every buffer is left after 32
    layers. *)
Lemma peel_depth_cap_examples :
  Peeler.peel_depth Vectors.g_formats 1 [7] 32
    = Some (Ok (Peeler.wrap_single_file [7]))
  /\ Peeler.peel Vectors.g_formats [7]
     = Some (Ok (Peeler.wrap_single_file [7]))
  /\ Peeler.peel Vectors.spinning_formats [7]
     = Some (Ok (Peeler.wrap_single_file (replicate 32 0 ++ [7]))).
Proof.
  split; [|split].
  - apply (proj1 (proj2 (peel_depth_cap Vectors.g_formats))).
    vm_compute. discriminate.
  - apply (proj1 (proj2 (proj2 (peel_depth_cap Vectors.g_formats)))).
    vm_compute. reflexivity.
  - destruct (proj2 (proj2 (proj2 (peel_depth_cap Vectors.spinning_formats)))
                [7] (fun k cur => spinning_always_unwraps k [7] cur))
      as (cur & _ & Hpeel).
    rewrite Hpeel. vm_compute in Hpeel. injection Hpeel as <-. reflexivity.
Qed.

(** ** StuffIt: the SIT5 directory walk *)

Lemma parse_sit5_loop_S (fuel : nat) (blob : bytes) (ao : Z)
    (w : Sit.sit5_walk_t) :
  Sit.parse_sit5_loop (S fuel) blob ao w
  = if Sit.sit5_in_loop blob ao w
    then match Sit.sit5_turn blob ao w with
         | Sit.Sit5Fail e => Some (Err e)
         | Sit.Sit5Next w' => Sit.parse_sit5_loop fuel blob ao w'
         end
    else Some (Ok (Sit.walk_entries w)).
Proof. reflexivity. Qed.

(** A turn that leaves the walk as it found it is repeated for ever: the
    loop has not returned after any number of turns. *)
Lemma parse_sit5_loop_stuck (blob : bytes) (ao : Z) (w : Sit.sit5_walk_t) :
  Sit.sit5_in_loop blob ao w = true ->
  Sit.sit5_turn blob ao w = Sit.Sit5Next w ->
  forall fuel, Sit.parse_sit5_loop fuel blob ao w = None.
Proof.
  intros Hin Hturn fuel.
  induction fuel as [| fuel IH]; [simpl; rewrite Hin; reflexivity |].
  rewrite parse_sit5_loop_S, Hin, Hturn. exact IH.
Qed.

(** An answer of the loop does not depend on where it is cut. *)
Lemma parse_sit5_loop_mono (fuel : nat) :
  forall (blob : bytes) (ao : Z) (w : Sit.sit5_walk_t)
         (r : result (list Sit.sit_entry_t)),
    Sit.parse_sit5_loop fuel blob ao w = Some r ->
    Sit.parse_sit5_loop (S fuel) blob ao w = Some r.
Proof.
  induction fuel as [| fuel IH]; intros blob ao w r.
  - simpl. destruct (Sit.sit5_in_loop blob ao w); [discriminate | trivial].
  - rewrite (parse_sit5_loop_S (S fuel)), (parse_sit5_loop_S fuel).
    destruct (Sit.sit5_in_loop blob ao w); [| trivial].
    destruct (Sit.sit5_turn blob ao w) as [e | w']; [trivial |].
    apply IH.
Qed.

(** The walk on a well-formed archive: [Vectors.sit5_one_file] yields its
    one file, and is refused when the stored header CRC is changed. *)
Lemma parse_sit5_one_file (s13 s15 : bytes -> Z -> Z -> result bytes) :
  Sit.peel_sit s13 s15 Vectors.sit5_one_file = Some (Ok [Vectors.file_a_x])
  /\ Sit.peel_sit s13 s15 (<[132%nat := 0]> Vectors.sit5_one_file)
     = Some (Err (Sit5HeaderCrc 100)).
Proof. split; vm_compute; reflexivity. Qed.

(** C6.  [peel] does not return on every input.  The 150 bytes of
    [Vectors.sit5_stuck] are detected as StuffIt by their SIT5 banner, so
    [peel] hands them to [peel_sit] and that to [parse_sit5].  The first
    entry, at offset 100, has a header 1 of length 0 and the data length
    0xFFFFFFFF of an entry to skip: the turn sets the cursor to
    [cursor + 0] and leaves the count of entries due as it is, so the walk
    is where it was, and the loop of [parse_sit5] has not returned after
    any number of turns.  Neither has [peel_sit], nor [peel_depth] with any
    fuel. *)
Theorem C6_peel_never_returns_on_stuck_sit5_walk :
  len Vectors.sit5_stuck = 150
  /\ Sit.find_classic_magic Vectors.sit5_stuck = None
  /\ Sit.find_sit5_magic Vectors.sit5_stuck = Some 0
  /\ Sit.parse_sit5 Vectors.sit5_stuck 0 []
     = Sit.parse_sit5_loop 151 Vectors.sit5_stuck 0 Vectors.sit5_stuck_walk
  /\ Sit.sit5_in_loop Vectors.sit5_stuck 0 Vectors.sit5_stuck_walk = true
  /\ Sit.sit5_turn Vectors.sit5_stuck 0 Vectors.sit5_stuck_walk
     = Sit.Sit5Next Vectors.sit5_stuck_walk
  /\ (forall fuel,
        Sit.parse_sit5_loop fuel Vectors.sit5_stuck 0 Vectors.sit5_stuck_walk
        = None)
  /\ (forall s13 s15, Sit.peel_sit s13 s15 Vectors.sit5_stuck = None)
  /\ (forall s13 s15 cpt,
        Peeler.peel_detect (Peeler.g_formats s13 s15 cpt) Vectors.sit5_stuck
        = Some "sit"%string)
  /\ (forall s13 s15 cpt fuel,
        Peeler.peel_depth (Peeler.g_formats s13 s15 cpt) fuel
          Vectors.sit5_stuck 0 = None)
  /\ (forall s13 s15 cpt,
        Peeler.peel (Peeler.g_formats s13 s15 cpt) Vectors.sit5_stuck = None).
Proof.
  assert (Hclassic : Sit.find_classic_magic Vectors.sit5_stuck = None)
    by (vm_compute; reflexivity).
  assert (Hsit5 : Sit.find_sit5_magic Vectors.sit5_stuck = Some 0)
    by (vm_compute; reflexivity).
  assert (Hstart : Sit.parse_sit5 Vectors.sit5_stuck 0 []
                   = Sit.parse_sit5_loop 151 Vectors.sit5_stuck 0
                       Vectors.sit5_stuck_walk) by reflexivity.
  assert (Hin : Sit.sit5_in_loop Vectors.sit5_stuck 0 Vectors.sit5_stuck_walk
                = true) by (vm_compute; reflexivity).
  assert (Hturn : Sit.sit5_turn Vectors.sit5_stuck 0 Vectors.sit5_stuck_walk
                  = Sit.Sit5Next Vectors.sit5_stuck_walk)
    by (vm_compute; reflexivity).
  pose proof (parse_sit5_loop_stuck _ _ _ Hin Hturn) as Hloop.
  assert (Hpeel_sit : forall s13 s15,
             Sit.peel_sit s13 s15 Vectors.sit5_stuck = None).
  { intros s13 s15. unfold Sit.peel_sit.
    rewrite Hclassic, Hsit5, Hstart, Hloop. reflexivity. }
  assert (Hhqx : Hqx.hqx_detect Vectors.sit5_stuck = false)
    by (vm_compute; reflexivity).
  assert (Hbin : Bin.bin_detect Vectors.sit5_stuck = false)
    by (vm_compute; reflexivity).
  assert (Hsit : Sit.sit_detect Vectors.sit5_stuck = true)
    by (unfold Sit.sit_detect; rewrite Hclassic, Hsit5; reflexivity).
  assert (Hdepth : forall s13 s15 cpt fuel,
             Peeler.peel_depth (Peeler.g_formats s13 s15 cpt) fuel
               Vectors.sit5_stuck 0 = None).
  { intros s13 s15 cpt [| fuel]; [reflexivity |].
    rewrite peel_depth_S.
    change (Peeler.MAX_PEEL_DEPTH <=? 0) with false. cbv iota.
    change 32%nat with (S 31).
    unfold Peeler.g_formats.
    cbn [Peeler.peel_depth_loop Peeler.detect_format List.find Peeler.detect].
    rewrite Hhqx, Hbin, Hsit. cbn [Peeler.kind].
    rewrite Hpeel_sit. reflexivity. }
  split; [reflexivity |]. split; [exact Hclassic |].
  split; [exact Hsit5 |]. split; [exact Hstart |]. split; [exact Hin |].
  split; [exact Hturn |]. split; [exact Hloop |].
  split; [exact Hpeel_sit |]. split; [| split; [exact Hdepth |]].
  - intros s13 s15 cpt.
    unfold Peeler.peel_detect, Peeler.detect_format, Peeler.g_formats.
    cbn [List.find Peeler.detect]. rewrite Hhqx, Hbin, Hsit. reflexivity.
  - intros s13 s15 cpt. apply Hdepth.
Qed.

(** * Further properties of the decoders and the driver *)

(** ** Bits and bytes *)

Lemma bits_below (n x : Z) :
  0 <= n -> (forall i, n <= i -> Z.testbit x i = false) -> 0 <= x < 2 ^ n.
Proof.
  intros Hn Hhigh.
  assert (Hx : x = x mod 2 ^ n).
  { apply Z.bits_inj'. intros i Hi. rewrite Z.testbit_mod_pow2 by lia.
    destruct (Z.ltb_spec i n) as [Hlt | Hge]; simpl; [reflexivity |].
    apply Hhigh. lia. }
  rewrite Hx. apply Z.mod_pos_bound. apply Z.pow_pos_nonneg; lia.
Qed.

Lemma bits_above (n x i : Z) :
  0 <= x < 2 ^ n -> 0 <= n <= i -> Z.testbit x i = false.
Proof.
  intros Hx Hi. rewrite <- (Z.mod_small x (2 ^ n)) by lia.
  apply Z.mod_pow2_bits_high. lia.
Qed.

Lemma at_nil (i : Z) : at_ [] i = 0.
Proof. unfold at_. destruct (Z.to_nat i); reflexivity. Qed.

Lemma at_is_byte (p : bytes) (i : Z) : is_bytes p -> 0 <= at_ p i < 256.
Proof.
  unfold is_bytes, at_. intros Hp.
  destruct (nth_in_or_default (Z.to_nat i) p 0) as [Hin | ->]; [| lia].
  rewrite List.Forall_forall in Hp. apply Hp, Hin.
Qed.

Lemma is_bytes_advance (p : bytes) (n : Z) : is_bytes p -> is_bytes (advance p n).
Proof. unfold is_bytes, advance. apply Forall_drop. Qed.

Lemma is_bytes_span (p : bytes) (n : Z) : is_bytes p -> is_bytes (span p n).
Proof. unfold is_bytes, span. apply Forall_take. Qed.

Lemma rd16be_range (p : bytes) : 0 <= rd16be p < 65536.
Proof. unfold rd16be, u16. apply Z.mod_pos_bound. lia. Qed.

Lemma rd32be_range (p : bytes) : is_bytes p -> 0 <= rd32be p < 4294967296.
Proof.
  intros Hp. unfold rd32be, u32.
  pose proof (at_is_byte p 3 Hp) as H3.
  change 4294967296 with (2 ^ 32). apply bits_below; [lia |].
  intros i Hi. rewrite !Z.lor_spec.
  rewrite !Z.mod_pow2_bits_high by lia.
  rewrite (bits_above 8 (at_ p 3) i) by (change (2 ^ 8) with 256; lia).
  reflexivity.
Qed.

Ltac ltb_decide :=
  repeat match goal with
         | |- context [?a <? ?b] =>
             first [ rewrite (proj2 (Z.ltb_lt a b)) by lia
                   | rewrite (proj2 (Z.ltb_ge a b)) by lia ]
         end.

(** X1 (internal.h, [rd16be], [rd32be], [wr16be], [wr32be]): a value stored
    by a big-endian writer is read back by the matching reader, cut to the
    width of the field, whatever follows in the buffer. *)
Theorem X1_big_endian_write_then_read (v : Z) (rest : bytes) :
  rd16be (wr16be v ++ rest) = u16 v
  /\ rd32be (wr32be v ++ rest) = u32 v.
Proof.
  split.
  - unfold rd16be, wr16be, at_, u16, u8. simpl.
    apply Z.bits_inj'. intros i Hi.
    change 65536 with (2 ^ 16). change 256 with (2 ^ 8).
    rewrite !Z.testbit_mod_pow2 by lia.
    rewrite Z.lor_spec, Z.shiftl_spec by lia.
    rewrite !Z.testbit_mod_pow2 by lia.
    destruct (Z.ltb_spec i 8) as [H8 | H8].
    + rewrite (Z.testbit_neg_r _ (i - 8)) by lia. ltb_decide.
      destruct (Z.testbit v i); reflexivity.
    + rewrite Z.shiftr_spec by lia. replace (i - 8 + 8) with i by lia.
      destruct (Z.ltb_spec i 16) as [H16 | H16]; ltb_decide;
        destruct (Z.testbit v i); reflexivity.
  - unfold rd32be, wr32be, at_, u32, u8. simpl.
    apply Z.bits_inj'. intros i Hi.
    change 4294967296 with (2 ^ 32). change 256 with (2 ^ 8).
    rewrite !Z.lor_spec.
    rewrite !Z.testbit_mod_pow2 by lia.
    rewrite !Z.shiftl_spec by lia.
    rewrite !Z.testbit_mod_pow2 by lia.
    destruct (Z.ltb_spec i 8) as [H8 | H8].
    { rewrite !(Z.testbit_neg_r _ (i - _)) by lia. ltb_decide.
      destruct (Z.testbit v i); reflexivity. }
    destruct (Z.ltb_spec i 16) as [H16 | H16].
    { rewrite (Z.testbit_neg_r _ (i - 16)), (Z.testbit_neg_r _ (i - 24)) by lia.
      rewrite Z.shiftr_spec by lia. replace (i - 8 + 8) with i by lia.
      ltb_decide. destruct (Z.testbit v i); reflexivity. }
    destruct (Z.ltb_spec i 24) as [H24 | H24].
    { rewrite (Z.testbit_neg_r _ (i - 24)) by lia.
      rewrite (Z.shiftr_spec v 16) by lia. replace (i - 16 + 16) with i by lia.
      ltb_decide. destruct (Z.testbit v i); reflexivity. }
    rewrite (Z.shiftr_spec v 24) by lia. replace (i - 24 + 24) with i by lia.
    destruct (Z.ltb_spec i 32) as [H32 | H32]; ltb_decide;
      destruct (Z.testbit v i); reflexivity.
Qed.

(** ** bin.c *)

Lemma at_advance (p : bytes) (n i : Z) :
  0 <= n -> 0 <= i -> at_ (advance p n) i = at_ p (n + i).
Proof.
  intros Hn Hi. unfold at_, advance.
  rewrite !nth_lookup, lookup_drop.
  replace (Z.to_nat n + Z.to_nat i)%nat with (Z.to_nat (n + i)) by lia.
  reflexivity.
Qed.

Lemma at_app_l (a b : bytes) (i : Z) :
  0 <= i < len a -> at_ (a ++ b) i = at_ a i.
Proof.
  unfold len, at_. intros Hi. apply app_nth1. lia.
Qed.

Lemma len_advance (p : bytes) (n : Z) :
  0 <= n -> len (advance p n) = Z.max 0 (len p - n).
Proof. intros Hn. unfold len, advance. rewrite length_drop. lia. Qed.

Lemma len_span (p : bytes) (n : Z) :
  0 <= n <= len p -> len (span p n) = n.
Proof. intros Hn. unfold len, span in *. rewrite length_take. lia. Qed.

Lemma len_span_le (p : bytes) (n : Z) : len (span p n) <= Z.max 0 n.
Proof. unfold len, span. rewrite length_take. lia. Qed.

Lemma pad128_spec (n : Z) :
  0 <= Bin.pad128 n < 128 /\ (n + Bin.pad128 n) mod 128 = 0.
Proof.
  unfold Bin.pad128, Bin.MB_BLOCK.
  pose proof (Z.mod_pos_bound n 128 ltac:(lia)) as Hr.
  pose proof (Z.mod_pos_bound (128 - n mod 128) 128 ltac:(lia)) as Hp.
  split; [exact Hp |].
  rewrite <- Z.add_mod_idemp_l by lia.
  destruct (Z.eq_dec (n mod 128) 0) as [H0 | H0].
  - rewrite H0. reflexivity.
  - rewrite (Z.mod_small (128 - n mod 128) 128) by lia.
    replace (n mod 128 + (128 - n mod 128)) with 128 by lia. reflexivity.
Qed.

(** X2 (bin.c, [pad128]): the padding is the one number below 128 that
    brings a length up to a multiple of the 128-byte block, and it is zero
    exactly on the multiples. *)
Theorem X2_pad128_fills_the_block (n : Z) :
  0 <= Bin.pad128 n < 128
  /\ (n + Bin.pad128 n) mod 128 = 0
  /\ (Bin.pad128 n = 0 <-> n mod 128 = 0).
Proof.
  destruct (pad128_spec n) as [Hr Hm].
  split; [exact Hr |]. split; [exact Hm |].
  pose proof (Z.mod_pos_bound n 128 ltac:(lia)) as Hn.
  split; intros H0.
  - rewrite H0, Z.add_0_r in Hm. exact Hm.
  - unfold Bin.pad128, Bin.MB_BLOCK. rewrite H0. reflexivity.
Qed.

Lemma bin_decode_ok (s : bytes) (f : peel_file_t) :
  Bin.bin_decode s = Ok f ->
  let hdr := Bin.bin_parse_header s in
  let doff := if 0 <? Bin.sec_hdr_len hdr
              then 128 + (Bin.sec_hdr_len hdr + Bin.pad128 (Bin.sec_hdr_len hdr))
              else 128 in
  let roff := doff + (Bin.data_len hdr + Bin.pad128 (Bin.data_len hdr)) in
  128 <= len s /\ Bin.bin_validate s = true
  /\ Bin.data_len hdr <= 0x7FFFFFFF /\ Bin.rsrc_len hdr <= 0x7FFFFFFF
  /\ doff + Bin.data_len hdr <= len s
  /\ roff + Bin.rsrc_len hdr <= len s
  /\ f = {| meta :=
              {| name := c_str (span (Bin.hdr_name hdr) (Bin.name_len hdr));
                 mac_type := Bin.hdr_mac_type hdr;
                 mac_creator := Bin.hdr_mac_creator hdr;
                 finder_flags :=
                   Z.land (Bin.hdr_finder_flags hdr)
                          (u16 (Z.lnot Bin.FINDER_CLEAR_MASK)) |};
            data_fork := if 0 <? Bin.data_len hdr
                         then span (advance s doff) (Bin.data_len hdr) else [];
            resource_fork := if 0 <? Bin.rsrc_len hdr
                             then span (advance s roff) (Bin.rsrc_len hdr)
                             else [] |}.
Proof.
  intros H hdr doff roff. unfold Bin.bin_decode in H.
  fold hdr in H. change Bin.MB_BLOCK with 128 in H.
  destruct (Z.ltb_spec (len s) 128) as [Hs | Hs]; [discriminate |].
  destruct (Bin.bin_validate s) eqn:Hv; [| discriminate]. cbn [negb] in H.
  destruct (Z.ltb_spec 2147483647 (Bin.data_len hdr)) as [Hd | Hd];
    [discriminate |].
  destruct (Z.ltb_spec 2147483647 (Bin.rsrc_len hdr)) as [Hr | Hr];
    [discriminate |].
  cbn [orb] in H. fold doff in H.
  destruct (Z.ltb_spec (len s) (doff + Bin.data_len hdr)) as [Ht | Ht];
    [discriminate |].
  fold roff in H.
  destruct (Z.ltb_spec (len s) (roff + Bin.rsrc_len hdr)) as [Hu | Hu];
    [discriminate |].
  injection H as <-.
  repeat split; try assumption; try lia.
Qed.

Lemma span_zero_or_more (p : bytes) (n : Z) :
  (if 0 <? n then span p n else []) = span p n.
Proof.
  destruct (Z.ltb_spec 0 n) as [Hn | Hn]; [reflexivity |].
  unfold span. replace (Z.to_nat n) with O by lia. reflexivity.
Qed.

(** X3 (bin.c, [bin_decode]): when decoding succeeds, each fork is the run
    of bytes of the length the header declares (offsets 83 and 87) at its
    offset in the input; both offsets are multiples of 128, the data fork
    starts at or after byte 128, the resource fork after the end of the data
    fork, and both runs lie inside the input. *)
Theorem X3_bin_decode_fork_layout (s : bytes) (f : peel_file_t) :
  is_bytes s ->
  Bin.bin_decode s = Ok f ->
  exists doff roff,
    128 <= doff /\ doff mod 128 = 0 /\ roff mod 128 = 0
    /\ doff + rd32be (advance s 83) <= roff
    /\ roff + rd32be (advance s 87) <= len s
    /\ data_fork f = span (advance s doff) (rd32be (advance s 83))
    /\ resource_fork f = span (advance s roff) (rd32be (advance s 87))
    /\ len (data_fork f) = rd32be (advance s 83)
    /\ len (resource_fork f) = rd32be (advance s 87)
    /\ rd32be (advance s 83) <= 0x7FFFFFFF
    /\ rd32be (advance s 87) <= 0x7FFFFFFF.
Proof.
  intros Hb H. apply bin_decode_ok in H. cbv zeta in H.
  set (hdr := Bin.bin_parse_header s) in *.
  change (Bin.data_len hdr) with (rd32be (advance s 83)) in H.
  change (Bin.rsrc_len hdr) with (rd32be (advance s 87)) in H.
  change (Bin.sec_hdr_len hdr) with (rd16be (advance s 120)) in H.
  set (dlen := rd32be (advance s 83)) in *.
  set (rlen := rd32be (advance s 87)) in *.
  set (sec := rd16be (advance s 120)) in *.
  set (doff := if 0 <? sec then 128 + (sec + Bin.pad128 sec) else 128) in *.
  set (roff := doff + (dlen + Bin.pad128 dlen)) in *.
  destruct H as (Hs & Hv & Hd & Hr & Hdo & Hro & ->).
  assert (Hdl : 0 <= dlen < 4294967296)
    by (apply rd32be_range, is_bytes_advance, Hb).
  assert (Hrl : 0 <= rlen < 4294967296)
    by (apply rd32be_range, is_bytes_advance, Hb).
  assert (Hsec : 0 <= sec < 65536) by apply rd16be_range.
  destruct (pad128_spec sec) as [Hps Hpm].
  destruct (pad128_spec dlen) as [Hpd Hpdm].
  assert (Hdoff : 128 <= doff /\ doff mod 128 = 0).
  { subst doff. destruct (Z.ltb_spec 0 sec).
    - split; [lia |].
      rewrite <- Z.add_mod_idemp_r, Hpm by lia. reflexivity.
    - split; [lia | reflexivity]. }
  destruct Hdoff as [Hd1 Hd2].
  assert (Hroff : roff mod 128 = 0).
  { subst roff. rewrite <- Z.add_mod_idemp_r, Hpdm, Z.add_0_r by lia.
    exact Hd2. }
  exists doff, roff. simpl. rewrite !span_zero_or_more.
  repeat split; try assumption; try lia.
  - apply len_span. rewrite len_advance by lia. lia.
  - apply len_span. rewrite len_advance by lia. lia.
Qed.

Lemma is_bytes_forallb (p : bytes) :
  forallb (fun b => (0 <=? b) && (b <? 256)) p = true -> is_bytes p.
Proof.
  unfold is_bytes. rewrite forallb_forall, List.Forall_forall.
  intros H b Hb. specialize (H b Hb). lia.
Qed.

Lemma X3_witness :
  exists doff roff,
    128 <= doff /\ doff mod 128 = 0 /\ roff mod 128 = 0
    /\ doff + rd32be (advance Vectors.bin_text_and_rsrc 83) <= roff
    /\ roff + rd32be (advance Vectors.bin_text_and_rsrc 87)
       <= len Vectors.bin_text_and_rsrc
    /\ lit "hello"
       = span (advance Vectors.bin_text_and_rsrc doff)
              (rd32be (advance Vectors.bin_text_and_rsrc 83))
    /\ [1; 2; 3]
       = span (advance Vectors.bin_text_and_rsrc roff)
              (rd32be (advance Vectors.bin_text_and_rsrc 87))
    /\ len (lit "hello") = rd32be (advance Vectors.bin_text_and_rsrc 83)
    /\ len [1; 2; 3] = rd32be (advance Vectors.bin_text_and_rsrc 87)
    /\ rd32be (advance Vectors.bin_text_and_rsrc 83) <= 0x7FFFFFFF
    /\ rd32be (advance Vectors.bin_text_and_rsrc 87) <= 0x7FFFFFFF.
Proof.
  apply (X3_bin_decode_fork_layout Vectors.bin_text_and_rsrc
           {| meta := {| name := lit "a"; mac_type := 1413830740;
                         mac_creator := 1953790068; finder_flags := 0 |};
              data_fork := lit "hello"; resource_fork := [1; 2; 3] |}).
  - apply is_bytes_forallb. vm_compute. reflexivity.
  - vm_compute. reflexivity.
Defined.

Lemma c_strnlen_le (s : bytes) (n : nat) :
  (c_strnlen s n <= n)%nat /\ (c_strnlen s n <= length s)%nat.
Proof.
  revert s. induction n as [| n IH]; intros s; simpl.
  - destruct s; simpl; lia.
  - destruct s as [| c rest]; simpl; [lia |].
    destruct (c =? 0); simpl; [lia |].
    destruct (IH rest). lia.
Qed.

Lemma c_strnlen_no_nul (s : bytes) (n : nat) :
  Forall (fun c => c <> 0) (take (c_strnlen s n) s).
Proof.
  revert s. induction n as [| n IH]; intros s; simpl.
  - destruct s; constructor.
  - destruct s as [| c rest]; simpl; [constructor |].
    destruct (Z.eqb_spec c 0) as [H0 | H0]; simpl; [constructor |].
    constructor; [exact H0 | apply IH].
Qed.

Lemma len_c_str (s : bytes) : len (c_str s) <= len s.
Proof.
  unfold c_str, len. rewrite length_take.
  destruct (c_strnlen_le s (length s)). lia.
Qed.

Lemma land_clear_mask (x m : Z) :
  Z.land (Z.land x (u16 (Z.lnot m))) m = 0.
Proof.
  apply Z.bits_inj'. intros i Hi.
  rewrite !Z.land_spec, Z.bits_0. unfold u16.
  change 65536 with (2 ^ 16). rewrite Z.testbit_mod_pow2 by lia.
  rewrite Z.lnot_spec by lia.
  destruct (Z.testbit m i); [| rewrite andb_false_r; reflexivity].
  simpl. rewrite !andb_false_r. reflexivity.
Qed.

Lemma land_keep_mask (x m i : Z) :
  0 <= i < 16 -> Z.testbit m i = false ->
  Z.testbit (Z.land x (u16 (Z.lnot m))) i = Z.testbit x i.
Proof.
  intros Hi Hm. rewrite Z.land_spec. unfold u16.
  change 65536 with (2 ^ 16). rewrite Z.testbit_mod_pow2 by lia.
  rewrite Z.lnot_spec, Hm by lia.
  destruct (Z.ltb_spec i 16); [| lia]. simpl. apply andb_true_r.
Qed.

(** X4 (bin.c, [bin_decode], [bin_parse_header]): the metadata of a decoded
    MacBinary file.  The name is the C string in the name field, at most 63
    characters, none of them NUL; the Finder flags are the header's flag
    bytes (73 high, 101 low) with bits 0, 1, 8, 9 and 10 cleared and every
    other bit kept. *)
Theorem X4_bin_decode_metadata (s : bytes) (f : peel_file_t) :
  is_bytes s ->
  Bin.bin_decode s = Ok f ->
  1 <= at_ s 1 <= 63
  /\ name (meta f) = c_str (span (advance s 2) (at_ s 1))
  /\ len (name (meta f)) <= at_ s 1
  /\ Forall (fun c => c <> 0) (name (meta f))
  /\ Z.land (finder_flags (meta f)) 0x0703 = 0
  /\ (forall i, 0 <= i < 16 -> Z.testbit 0x0703 i = false ->
        Z.testbit (finder_flags (meta f)) i
        = Z.testbit (Z.lor (Z.shiftl (at_ s 73) 8) (at_ s 101)) i).
Proof.
  intros Hb H. apply bin_decode_ok in H. cbv zeta in H.
  destruct H as (Hs & Hv & _ & _ & _ & _ & ->). simpl.
  assert (Hn : 1 <= at_ s 1 <= 63).
  { unfold Bin.bin_validate in Hv. change Bin.MB_BLOCK with 128 in *.
    destruct (at_ s 0 =? 0); [| discriminate].
    destruct (at_ s 74 =? 0); [| discriminate]. simpl in Hv.
    change Bin.MB_NAME_MAX with 63 in Hv.
    destruct (Z.eqb_spec (at_ s 1) 0); [discriminate |].
    destruct (Z.ltb_spec 63 (at_ s 1)); [discriminate |].
    pose proof (at_is_byte s 1 Hb). lia. }
  split; [exact Hn |].
  assert (Hname : span (span (advance s 2) (Z.min (at_ s 1) Bin.MB_NAME_MAX))
                       (at_ s 1)
                  = span (advance s 2) (at_ s 1)).
  { change Bin.MB_NAME_MAX with 63. rewrite Z.min_l by lia.
    unfold span. rewrite take_take. f_equal. lia. }
  rewrite Hname.
  split; [reflexivity |].
  split.
  { etransitivity; [apply len_c_str |].
    etransitivity; [apply len_span_le |]. lia. }
  split; [apply c_strnlen_no_nul |].
  split.
  { change 0x0703 with Bin.FINDER_CLEAR_MASK. apply land_clear_mask. }
  intros i Hi Hm.
  rewrite (land_keep_mask _ Bin.FINDER_CLEAR_MASK i Hi Hm).
  unfold u16. change 65536 with (2 ^ 16).
  apply Z.mod_pow2_bits_low. lia.
Qed.

Lemma X4_witness :
  1 <= at_ Vectors.bin_all_flags 1 <= 63
  /\ lit "a"
     = c_str (span (advance Vectors.bin_all_flags 2)
                   (at_ Vectors.bin_all_flags 1))
  /\ len (lit "a") <= at_ Vectors.bin_all_flags 1
  /\ Forall (fun c => c <> 0) (lit "a")
  /\ Z.land 0xF8FC 0x0703 = 0
  /\ (forall i, 0 <= i < 16 -> Z.testbit 0x0703 i = false ->
        Z.testbit 0xF8FC i
        = Z.testbit (Z.lor (Z.shiftl (at_ Vectors.bin_all_flags 73) 8)
                           (at_ Vectors.bin_all_flags 101)) i).
Proof.
  apply (X4_bin_decode_metadata Vectors.bin_all_flags
           {| meta := {| name := lit "a"; mac_type := 1413830740;
                         mac_creator := 1953790068; finder_flags := 0xF8FC |};
              data_fork := lit "hello"; resource_fork := [1; 2; 3] |}).
  - apply is_bytes_forallb. vm_compute. reflexivity.
  - vm_compute. reflexivity.
Defined.

(** X5 (bin.c, [bin_detect], [bin_decode], [peel_bin]): detection and
    decoding agree on the header.  [bin_detect] rejects an input exactly
    when [bin_decode] fails with "input too short" or "invalid header"; on
    an input that [bin_detect] accepts, decoding can only fail on the fork
    lengths. *)
Theorem X5_bin_detect_agrees_with_decode (s : bytes) :
  (Bin.bin_detect s = false
   <-> Bin.bin_decode s = Err (BinTooShort (len s))
       \/ Bin.bin_decode s = Err BinInvalidHeader)
  /\ (Bin.bin_detect s = true ->
      forall e, Bin.peel_bin s = Err e ->
                e = BinForkTooLong \/ e = BinDataTruncated
                \/ e = BinRsrcTruncated).
Proof.
  unfold Bin.bin_detect, Bin.peel_bin, Bin.bin_decode.
  destruct (len s <? Bin.MB_BLOCK).
  { split; [split; [left; reflexivity | reflexivity] | discriminate]. }
  destruct (Bin.bin_validate s); cbn [negb].
  - split.
    + split; [discriminate |].
      intros [H | H]; revert H;
        repeat match goal with
               | |- context [if ?c then _ else _] => destruct c
               end; discriminate.
    + intros _ e.
      repeat match goal with
             | |- context [if ?c then _ else _] => destruct c
             end; cbn [rbind];
        repeat match goal with
               | |- context [if ?c then _ else _] => destruct c
               end; intros H; try discriminate;
        injection H as <-; tauto.
  - split; [split; [right; reflexivity | reflexivity] | discriminate].
Qed.

Lemma X5_witness :
  Bin.bin_detect (take 128 Vectors.bin_text_and_rsrc) = true
  /\ Bin.peel_bin (take 128 Vectors.bin_text_and_rsrc) = Err BinDataTruncated
  /\ (BinDataTruncated = BinForkTooLong
      \/ BinDataTruncated = BinDataTruncated
      \/ BinDataTruncated = BinRsrcTruncated).
Proof.
  assert (Hd : Bin.bin_detect (take 128 Vectors.bin_text_and_rsrc) = true)
    by (vm_compute; reflexivity).
  assert (Hp : Bin.peel_bin (take 128 Vectors.bin_text_and_rsrc)
               = Err BinDataTruncated) by (vm_compute; reflexivity).
  split; [exact Hd |]. split; [exact Hp |].
  destruct (X5_bin_detect_agrees_with_decode
              (take 128 Vectors.bin_text_and_rsrc)) as [_ H].
  exact (H Hd BinDataTruncated Hp).
Defined.

Lemma rd16be_ext (p q : bytes) :
  at_ p 0 = at_ q 0 -> at_ p 1 = at_ q 1 -> rd16be p = rd16be q.
Proof. unfold rd16be. intros -> ->. reflexivity. Qed.

Lemma rd32be_ext (p q : bytes) :
  at_ p 0 = at_ q 0 -> at_ p 1 = at_ q 1 -> at_ p 2 = at_ q 2 ->
  at_ p 3 = at_ q 3 -> rd32be p = rd32be q.
Proof. unfold rd32be. intros -> -> -> ->. reflexivity. Qed.

Lemma at_advance_app (a b : bytes) (k i : Z) :
  0 <= k -> 0 <= i -> k + i < len a ->
  at_ (advance (a ++ b) k) i = at_ (advance a k) i.
Proof.
  intros Hk Hi Hlt. rewrite !at_advance by lia. apply at_app_l. lia.
Qed.

Lemma rd16be_advance_app (a b : bytes) (k : Z) :
  0 <= k -> k + 2 <= len a ->
  rd16be (advance (a ++ b) k) = rd16be (advance a k).
Proof. intros. apply rd16be_ext; apply at_advance_app; lia. Qed.

Lemma rd32be_advance_app (a b : bytes) (k : Z) :
  0 <= k -> k + 4 <= len a ->
  rd32be (advance (a ++ b) k) = rd32be (advance a k).
Proof. intros. apply rd32be_ext; apply at_advance_app; lia. Qed.

Lemma span_app_l (a b : bytes) (n : Z) :
  n <= len a -> span (a ++ b) n = span a n.
Proof. unfold span, len. intros Hn. apply take_app_le. lia. Qed.

Lemma span_app_exact (a b : bytes) : span (a ++ b) (len a) = a.
Proof. unfold span, len. rewrite Nat2Z.id. apply take_app_length. Qed.

Lemma advance_app_exact (a b : bytes) (n : Z) :
  n = len a -> advance (a ++ b) n = b.
Proof.
  intros ->. unfold advance, len. rewrite Nat2Z.id. apply drop_app_length.
Qed.

Lemma bin_validate_app (hdr rest : bytes) :
  len hdr = 128 -> Bin.bin_validate (hdr ++ rest) = Bin.bin_validate hdr.
Proof.
  intros Hl. unfold Bin.bin_validate.
  rewrite !(at_app_l hdr rest) by lia.
  rewrite (span_app_l hdr rest) by lia.
  rewrite (rd16be_advance_app hdr rest) by lia.
  reflexivity.
Qed.

(** X6 (bin.c, [bin_decode], [peel_bin_file]): a MacBinary record is read
    back.  For a valid 128-byte header that declares the lengths of a
    secondary header, a data fork and a resource fork, followed by these
    three parts, the first two padded to multiples of 128 bytes, decoding
    succeeds and returns exactly the two forks.  Nothing need follow the
    resource fork: its padding is not required. *)
Theorem X6_bin_decode_reads_back_record
    (hdr sec secpad data pad rsrc tail : bytes) :
  len hdr = 128 -> Bin.bin_validate hdr = true ->
  rd16be (advance hdr 120) = len sec ->
  rd32be (advance hdr 83) = len data ->
  rd32be (advance hdr 87) = len rsrc ->
  len data <= 0x7FFFFFFF -> len rsrc <= 0x7FFFFFFF ->
  len secpad = Bin.pad128 (len sec) ->
  len pad = Bin.pad128 (len data) ->
  exists f,
    Bin.peel_bin_file (hdr ++ sec ++ secpad ++ data ++ pad ++ rsrc ++ tail)
    = Ok f
    /\ data_fork f = data /\ resource_fork f = rsrc.
Proof.
  intros Hl Hv Hsec Hdl Hrl Hd Hr Hsp Hp.
  set (s := hdr ++ sec ++ secpad ++ data ++ pad ++ rsrc ++ tail).
  unfold Bin.peel_bin_file, Bin.bin_decode.
  assert (Hlen : len s = 128 + len sec + len secpad + len data + len pad
                         + len rsrc + len tail).
  { subst s. rewrite !len_app. lia. }
  assert (Hnn : 0 <= len sec /\ 0 <= len data /\ 0 <= len rsrc
                /\ 0 <= len tail /\ 0 <= len secpad /\ 0 <= len pad)
    by (unfold len; lia).
  change Bin.MB_BLOCK with 128.
  destruct (Z.ltb_spec (len s) 128) as [Hs | Hs]; [lia |].
  unfold s at 1. rewrite bin_validate_app, Hv by exact Hl. cbn [negb].
  assert (Hdata : Bin.data_len (Bin.bin_parse_header s) = len data).
  { simpl. subst s. rewrite rd32be_advance_app by lia. exact Hdl. }
  assert (Hrsrc : Bin.rsrc_len (Bin.bin_parse_header s) = len rsrc).
  { simpl. subst s. rewrite rd32be_advance_app by lia. exact Hrl. }
  assert (Hsech : Bin.sec_hdr_len (Bin.bin_parse_header s) = len sec).
  { simpl. subst s. rewrite rd16be_advance_app by lia. exact Hsec. }
  rewrite Hdata, Hrsrc, Hsech.
  destruct (Z.ltb_spec 2147483647 (len data)) as [? | _]; [lia |].
  destruct (Z.ltb_spec 2147483647 (len rsrc)) as [? | _]; [lia |].
  cbn [orb].
  set (doff := if 0 <? len sec then 128 + (len sec + Bin.pad128 (len sec))
               else 128).
  assert (Hdoff : doff = 128 + len sec + len secpad).
  { subst doff. destruct (Z.ltb_spec 0 (len sec)) as [? | H0]; [lia |].
    assert (Hz : len sec = 0) by lia. rewrite Hsp, Hz. reflexivity. }
  destruct (Z.ltb_spec (len s) (doff + len data)) as [? | _]; [lia |].
  destruct (Z.ltb_spec (len s) (doff + (len data + Bin.pad128 (len data))
                                + len rsrc)) as [? | _]; [lia |].
  eexists. split; [reflexivity |]. cbn [data_fork resource_fork].
  rewrite !span_zero_or_more.
  assert (Hadv1 : advance s doff = data ++ pad ++ rsrc ++ tail).
  { subst s.
    replace (hdr ++ sec ++ secpad ++ data ++ pad ++ rsrc ++ tail)
      with ((hdr ++ sec ++ secpad) ++ data ++ pad ++ rsrc ++ tail)
      by (rewrite <- !app_assoc; reflexivity).
    apply advance_app_exact. rewrite !len_app. lia. }
  assert (Hadv2 : advance s (doff + (len data + Bin.pad128 (len data)))
                  = rsrc ++ tail).
  { subst s.
    replace (hdr ++ sec ++ secpad ++ data ++ pad ++ rsrc ++ tail)
      with ((hdr ++ sec ++ secpad ++ data ++ pad) ++ rsrc ++ tail)
      by (rewrite <- !app_assoc; reflexivity).
    apply advance_app_exact. rewrite !len_app. lia. }
  rewrite Hadv1, Hadv2.
  split; apply span_app_exact.
Qed.

Lemma X6_witness :
  exists f,
    Bin.peel_bin_file
      (take 128 Vectors.bin_text_and_rsrc ++ [] ++ [] ++ lit "hello"
       ++ Vectors.zeros 123 ++ [1; 2; 3] ++ [])
    = Ok f
    /\ data_fork f = lit "hello" /\ resource_fork f = [1; 2; 3].
Proof.
  apply X6_bin_decode_reads_back_record; vm_compute; try reflexivity;
    discriminate.
Defined.

(** ** sit.c: CRC, RLE90, LZW and the fork dispatch *)

Lemma lxor_16 (a b : Z) :
  0 <= a < 65536 -> 0 <= b < 65536 -> 0 <= Z.lxor a b < 65536.
Proof.
  intros Ha Hb. change 65536 with (2 ^ 16) in *.
  apply bits_below; [lia |]. intros i Hi.
  rewrite Z.lxor_spec, (bits_above 16 a i), (bits_above 16 b i) by lia.
  reflexivity.
Qed.

Lemma sit_crc_table_16 (i : Z) : 0 <= at_ Sit.sit_crc_table i < 65536.
Proof.
  assert (Ht : forallb (fun t => (0 <=? t) && (t <? 65536)) Sit.sit_crc_table
               = true) by (vm_compute; reflexivity).
  rewrite forallb_forall in Ht. unfold at_.
  destruct (nth_in_or_default (Z.to_nat i) Sit.sit_crc_table 0) as [Hin | ->];
    [| lia].
  specialize (Ht _ Hin). lia.
Qed.

Lemma sit_crc_update_16 (buf : bytes) :
  forall c, 0 <= c < 65536 -> 0 <= Sit.sit_crc_update c buf < 65536.
Proof.
  unfold Sit.sit_crc_update.
  induction buf as [| b rest IH]; intros c Hc; simpl; [exact Hc |].
  apply IH. apply lxor_16; [apply sit_crc_table_16 |].
  rewrite Z.shiftr_div_pow2 by lia. change (2 ^ 8) with 256.
  split; [apply Z.div_pos; lia |].
  apply Z.div_lt_upper_bound; lia.
Qed.

(** X7 (sit.c, [sit_crc_update], [sit_crc]): the StuffIt CRC of any buffer
    is a 16-bit value, and the CRC of a buffer fed in two pieces, the second
    from the register the first left, is the CRC of the whole. *)
Theorem X7_sit_crc_is_16_bit_and_streams (a b : bytes) :
  0 <= Sit.sit_crc a < 65536
  /\ Sit.sit_crc (a ++ b) = Sit.sit_crc_update (Sit.sit_crc a) b.
Proof.
  split.
  - apply sit_crc_update_16. lia.
  - unfold Sit.sit_crc, Sit.sit_crc_update. apply fold_left_app.
Qed.

Lemma len_replicate {A} (n : Z) (x : A) :
  len (replicate (Z.to_nat n) x) = Z.max 0 n.
Proof. unfold len. rewrite length_replicate. lia. Qed.

Lemma rle90_extends (n : nat) :
  forall src raw_len out last,
    (length src <= n)%nat ->
    exists ext,
      Sit.rle90 src raw_len out last = out ++ ext
      /\ len ext <= Z.max 0 (raw_len - len out).
Proof.
  assert (Hstop : forall (out : bytes) raw_len,
             exists ext, out = out ++ ext
                         /\ len ext <= Z.max 0 (raw_len - len out)).
  { intros out raw_len. exists []. rewrite app_nil_r. split; [reflexivity |].
    unfold len. simpl. lia. }
  assert (Hmore : forall (out mid res : bytes) raw_len,
             len mid <= raw_len - len out ->
             (exists ext, res = (out ++ mid) ++ ext
                          /\ len ext <= Z.max 0 (raw_len - len (out ++ mid))) ->
             exists ext, res = out ++ ext
                         /\ len ext <= Z.max 0 (raw_len - len out)).
  { intros out mid res raw_len Hmid (ext & -> & Hext).
    exists (mid ++ ext). rewrite <- app_assoc. split; [reflexivity |].
    rewrite !len_app in *. unfold len in *. lia. }
  induction n as [| n IH]; intros src raw_len out last Hlen.
  - destruct src; [| simpl in Hlen; lia].
    simpl. destruct (len out <? raw_len); apply Hstop.
  - destruct src as [| b rest]; simpl.
    { destruct (len out <? raw_len); apply Hstop. }
    destruct (Z.ltb_spec (len out) raw_len) as [Hroom | Hfull]; [| apply Hstop].
    simpl in Hlen.
    destruct (b =? 144); simpl.
    + destruct rest as [| cnt rest']; [apply Hstop |].
      simpl in Hlen.
      destruct (cnt =? 0).
      * apply (Hmore out [144]); [unfold len in *; simpl; lia |].
        apply IH. lia.
      * destruct (Z.ltb_spec 1 cnt) as [Hc | Hc].
        -- match goal with
           | |- context [replicate (Z.to_nat ?r) last] => set (repeats := r)
           end.
           apply (Hmore out (replicate (Z.to_nat repeats) last)).
           ++ rewrite len_replicate. subst repeats.
              destruct (Z.ltb_spec raw_len (len out + (cnt - 1))); lia.
           ++ apply IH. lia.
        -- apply IH. lia.
    + apply (Hmore out [b]); [unfold len in *; simpl; lia |].
      apply IH. lia.
Qed.

(** X8 (sit.c, [decompress_fork], method 1): the RLE90 loop only appends
    to its output, and never more than the room left to [raw_len]; started
    on the empty output it yields at most [raw_len] bytes, whatever the
    packed bytes are. *)
Theorem X8_rle90_stays_within_raw_len (src : bytes) (raw_len : Z) :
  (forall out last,
      exists ext,
        Sit.rle90 src raw_len out last = out ++ ext
        /\ len ext <= Z.max 0 (raw_len - len out))
  /\ len (Sit.rle90 src raw_len [] 0) <= Z.max 0 raw_len.
Proof.
  split.
  - intros out last. apply (rle90_extends (length src)). lia.
  - destruct (rle90_extends (length src) src raw_len [] 0 ltac:(lia))
      as (ext & -> & Hext).
    simpl. change (len []) with 0 in Hext. lia.
Qed.

Lemma rle90_no_marker (src : bytes) :
  Forall (fun b => b <> 0x90) src ->
  forall raw_len out last,
    len out <= raw_len ->
    Sit.rle90 src raw_len out last = out ++ span src (raw_len - len out).
Proof.
  induction 1 as [| b rest Hb Hrest IH]; intros raw_len out last Hle.
  - simpl. unfold span. rewrite take_nil, app_nil_r.
    destruct (len out <? raw_len); reflexivity.
  - simpl. destruct (Z.ltb_spec (len out) raw_len) as [Hroom | Hfull].
    + destruct (Z.eqb_spec b 144) as [-> | _]; [contradiction |]. simpl.
      rewrite IH by (rewrite len_app; unfold len in *; simpl; lia).
      rewrite <- app_assoc. f_equal. unfold span.
      rewrite len_app. change (len [b]) with 1.
      replace (Z.to_nat (raw_len - len out))
        with (S (Z.to_nat (raw_len - (len out + 1)))) by lia.
      reflexivity.
    + unfold span. replace (Z.to_nat (raw_len - len out)) with O by lia.
      simpl. rewrite app_nil_r. reflexivity.
Qed.

(** X9 (sit.c, [decompress_fork], method 1): what the RLE90 loop makes of
    its input.  Packed bytes without the marker 0x90 are copied, up to
    [raw_len] of them.  A byte [b] followed by the marker and a count
    [n >= 2] gives [n] copies of [b] in all when they fit below [raw_len];
    when they do not, the run is cut at [raw_len] and decoding ends. *)
Theorem X9_rle90_literals_and_runs :
  (forall src raw_len,
      Forall (fun b => b <> 0x90) src ->
      Sit.rle90 src raw_len [] 0 = span src raw_len)
  /\ (forall b n rest raw_len out last,
        b <> 0x90 -> 2 <= n -> len out + n <= raw_len ->
        Sit.rle90 (b :: 0x90 :: n :: rest) raw_len out last
        = Sit.rle90 rest raw_len (out ++ replicate (Z.to_nat n) b) b)
  /\ (forall b n rest raw_len out last,
        b <> 0x90 -> 2 <= n -> len out < raw_len -> raw_len < len out + n ->
        Sit.rle90 (b :: 0x90 :: n :: rest) raw_len out last
        = out ++ replicate (Z.to_nat (raw_len - len out)) b).
Proof.
  split; [| split].
  - intros src raw_len Hsrc.
    destruct (Z.le_gt_cases 0 raw_len) as [Hr | Hr].
    + rewrite (rle90_no_marker src Hsrc raw_len [] 0) by (unfold len; simpl; lia).
      simpl. change (len []) with 0. rewrite Z.sub_0_r. reflexivity.
    + unfold span. replace (Z.to_nat raw_len) with O by lia. simpl.
      destruct src; simpl;
        (destruct (Z.ltb_spec (len (@nil Z)) raw_len) as [H0 | H0];
         [change (len []) with 0 in H0; lia | reflexivity]).
  - intros b n rest raw_len out last Hb Hn Hfit.
    assert (Hl : 0 <= len out) by (unfold len; lia).
    cbn [Sit.rle90].
    destruct (Z.ltb_spec (len out) raw_len) as [_ | ?]; [| lia].
    destruct (Z.eqb_spec b 144) as [? | _]; [contradiction |]. cbn [negb].
    rewrite len_app. change (len [b]) with 1.
    destruct (Z.ltb_spec (len out + 1) raw_len) as [_ | ?]; [| lia].
    change (144 =? 144) with true. cbn [negb].
    destruct (Z.eqb_spec n 0) as [? | _]; [lia |].
    destruct (Z.ltb_spec 1 n) as [_ | ?]; [| lia].
    destruct (Z.ltb_spec raw_len (len out + 1 + (n - 1))) as [? | _]; [lia |].
    f_equal. rewrite <- app_assoc. f_equal.
    replace (Z.to_nat n) with (S (Z.to_nat (n - 1))) by lia. reflexivity.
  - intros b n rest raw_len out last Hb Hn Hroom Hover.
    assert (Hl : 0 <= len out) by (unfold len; lia).
    cbn [Sit.rle90].
    destruct (Z.ltb_spec (len out) raw_len) as [_ | ?]; [| lia].
    destruct (Z.eqb_spec b 144) as [? | _]; [contradiction |]. cbn [negb].
    rewrite len_app. change (len [b]) with 1.
    destruct (Z.ltb_spec (len out + 1) raw_len) as [Hmore | Hfull].
    + change (144 =? 144) with true. cbn [negb].
      destruct (Z.eqb_spec n 0) as [? | _]; [lia |].
      destruct (Z.ltb_spec 1 n) as [_ | ?]; [| lia].
      destruct (Z.ltb_spec raw_len (len out + 1 + (n - 1))) as [_ | ?]; [| lia].
      set (res := (out ++ [b]) ++ replicate (Z.to_nat (raw_len - (len out + 1))) b).
      assert (Hres : len res = raw_len).
      { subst res. rewrite !len_app, len_replicate. change (len [b]) with 1. lia. }
      assert (Hend : Sit.rle90 rest raw_len res b = res).
      { destruct rest; simpl;
          (destruct (Z.ltb_spec (len res) raw_len); [lia | reflexivity]). }
      rewrite Hend. subst res. rewrite <- app_assoc. f_equal.
      replace (Z.to_nat (raw_len - len out))
        with (S (Z.to_nat (raw_len - (len out + 1)))) by lia.
      reflexivity.
    + replace (Z.to_nat (raw_len - len out)) with 1%nat by lia. reflexivity.
Qed.

Lemma X9_witness :
  Sit.rle90 [0x41; 0x42] 5 [] 0 = span [0x41; 0x42] 5
  /\ Sit.rle90 (0x41 :: 0x90 :: 3 :: [0x42]) 4 [] 0
     = Sit.rle90 [0x42] 4 ([] ++ replicate (Z.to_nat 3) 0x41) 0x41
  /\ Sit.rle90 (0x41 :: 0x90 :: 9 :: [0x42]) 4 [] 0
     = [] ++ replicate (Z.to_nat (4 - len (@nil Z))) 0x41.
Proof.
  destruct X9_rle90_literals_and_runs as (H1 & H2 & H3).
  split; [| split].
  - apply H1. repeat constructor; discriminate.
  - apply H2; [discriminate | lia | vm_compute; discriminate].
  - apply H3; [discriminate | lia | reflexivity | reflexivity].
Defined.

Lemma lzw_decode_loop_extends (fuel : nat) :
  forall z want out z' out',
    lzw_ok z ->
    Sit.lzw_decode_loop fuel z want out = Some (z', out') ->
    lzw_ok z'
    /\ exists ext, out' = out ++ ext
                   /\ len ext <= Z.max 0 (want - len out).
Proof.
  induction fuel as [| fuel IH]; intros z want out z' out' Hok H.
  - simpl in H. destruct (Z.ltb_spec (len out) want); [discriminate |].
    injection H as <- <-. split; [exact Hok |].
    exists []. rewrite app_nil_r. split; [reflexivity |].
    change (len []) with 0. lia.
  - simpl in H. destruct (Z.ltb_spec (len out) want) as [Hroom | Hfull].
    + destruct (Sit.lzw_decode_iter z (want - len out)) as [[z1 chunk] |] eqn:Hit.
      * assert (Hpos : 0 < want - len out) by lia.
        pose proof (lzw_decode_iter_ok z z1 _ chunk Hok Hpos Hit) as Hok1.
        destruct (lzw_decode_iter_progress z z1 _ chunk Hok Hpos Hit)
          as (_ & _ & Hchunk).
        destruct (IH _ _ _ _ _ Hok1 H) as (Hok' & ext & -> & Hext).
        split; [exact Hok' |].
        exists (chunk ++ ext). rewrite <- app_assoc. split; [reflexivity |].
        rewrite !len_app in *. unfold len in *. lia.
      * injection H as <- <-. split; [exact Hok |].
        exists []. rewrite app_nil_r. split; [reflexivity |].
        change (len []) with 0. lia.
    + injection H as <- <-. split; [exact Hok |].
      exists []. rewrite app_nil_r. split; [reflexivity |].
      change (len []) with 0. lia.
Qed.

(** X10 (sit.c, [lzw_decode], [lzw_create]): decoding an LZW stream always
    comes to an end, whatever the packed bytes are, and delivers at most the
    [want] bytes asked for. *)
Theorem X10_lzw_decode_ends_within_want (s : bytes) (n want : Z) :
  exists z out,
    Sit.lzw_decode (Sit.lzw_create s n) want = Some (z, out)
    /\ len out <= Z.max 0 want.
Proof.
  destruct (lzw_decode_defined s n want) as [[z out] H].
  exists z, out. split; [exact H |].
  unfold Sit.lzw_decode in H.
  destruct (lzw_decode_loop_extends _ _ _ _ _ _ (lzw_create_ok s n) H)
    as (_ & ext & -> & Hext).
  simpl. change (len []) with 0 in Hext. lia.
Qed.

Lemma check_fork_crc_ok (expect : Z) (out res : bytes) :
  Sit.check_fork_crc expect out = Ok res ->
  res = out /\ Sit.sit_crc out = expect.
Proof.
  unfold Sit.check_fork_crc.
  destruct (Z.eqb_spec (Sit.sit_crc out) expect) as [He | He]; simpl;
    [| discriminate].
  intros H. injection H as <-. split; [reflexivity | exact He].
Qed.

Lemma check_fork_crc_err (expect : Z) (out : bytes) (e : peel_err_t) :
  Sit.check_fork_crc expect out = Err e ->
  e = SitForkCrc expect (Sit.sit_crc out) /\ Sit.sit_crc out <> expect.
Proof.
  unfold Sit.check_fork_crc.
  destruct (Z.eqb_spec (Sit.sit_crc out) expect) as [He | He]; simpl;
    [discriminate |].
  intros H. injection H as <-. split; [reflexivity | exact He].
Qed.

(** X11 (sit.c, [decompress_fork]): what a successful fork decompression
    guarantees.  For every method but 15 the bytes returned have the CRC
    stored in the entry header.  For the methods decoded in sit.c itself
    (0, 1, 2) the output is never longer than the declared [raw_len], and
    for method 0 it is the first [raw_len] bytes of the fork, which
    [packed_len] covers. *)
Theorem X11_decompress_fork_result_is_checked
    (s13 s15 : bytes -> Z -> Z -> result bytes)
    (fi : Sit.sit_fork_info_t) (out : bytes) :
  Sit.decompress_fork s13 s15 fi = Ok out ->
  (Sit.method fi <> 15 -> Sit.sit_crc out = Sit.crc fi)
  /\ (Sit.method fi = 0 \/ Sit.method fi = 1 \/ Sit.method fi = 2 ->
      len out <= Z.max 0 (Sit.raw_len fi))
  /\ (Sit.method fi = 0 ->
      out = span (Sit.data fi) (Sit.raw_len fi)
      /\ Sit.raw_len fi <= Sit.packed_len fi).
Proof.
  unfold Sit.decompress_fork. intros H.
  destruct (Z.eqb_spec (Sit.method fi) 13) as [H13 | H13].
  { destruct (s13 _ _ _) as [o |]; simpl in H; [| discriminate].
    apply check_fork_crc_ok in H. destruct H as [-> Hc].
    split; [intros _; exact Hc | split; intros; lia]. }
  destruct (Z.eqb_spec (Sit.method fi) 15) as [H15 | H15].
  { split; [intros; lia | split; intros; lia]. }
  destruct (Z.eqb_spec (Sit.method fi) 0) as [H0 | H0].
  { destruct (Z.ltb_spec (Sit.packed_len fi) (Sit.raw_len fi)) as [? | Hp];
      [discriminate |].
    apply check_fork_crc_ok in H. destruct H as [-> Hc].
    split; [intros _; exact Hc |].
    split; [intros _; apply len_span_le |].
    intros _. split; [reflexivity | exact Hp]. }
  destruct (Z.eqb_spec (Sit.method fi) 1) as [H1 | H1].
  { apply check_fork_crc_ok in H. destruct H as [-> Hc].
    split; [intros _; exact Hc |].
    split; [| intros; lia].
    intros _.
    set (packed := span (Sit.data fi) (Sit.packed_len fi)).
    destruct (rle90_extends (length packed) packed (Sit.raw_len fi) [] 0
                ltac:(lia)) as (ext & -> & Hext).
    simpl. change (len []) with 0 in Hext. lia. }
  destruct (Z.eqb_spec (Sit.method fi) 2) as [H2 | H2]; [| discriminate].
  apply check_fork_crc_ok in H. destruct H as [-> Hc].
  split; [intros _; exact Hc |].
  split; [| intros; lia].
  intros _.
  destruct (Sit.lzw_decode _ _) as [[z o] |] eqn:Hd;
    [| change (len []) with 0; lia].
  unfold Sit.lzw_decode in Hd.
  destruct (lzw_decode_loop_extends _ _ _ _ _ _
              (lzw_create_ok _ _) Hd) as (_ & ext & -> & Hext).
  simpl. change (len []) with 0 in Hext. lia.
Qed.

Lemma X11_witness :
  (Sit.method {| Sit.raw_len := 9; Sit.packed_len := 8;
                 Sit.crc := Sit.sit_crc Vectors.rle90_output;
                 Sit.method := 1; Sit.data := Vectors.rle90_input |} <> 15 ->
   Sit.sit_crc Vectors.rle90_output = Sit.sit_crc Vectors.rle90_output)
  /\ (1 = 0 \/ 1 = 1 \/ 1 = 2 -> len Vectors.rle90_output <= Z.max 0 9)
  /\ (1 = 0 ->
      Vectors.rle90_output = span Vectors.rle90_input 9 /\ 9 <= 8).
Proof.
  apply (X11_decompress_fork_result_is_checked
           Vectors.no_fork_engine Vectors.no_fork_engine
           {| Sit.raw_len := 9; Sit.packed_len := 8;
              Sit.crc := Sit.sit_crc Vectors.rle90_output;
              Sit.method := 1; Sit.data := Vectors.rle90_input |}
           Vectors.rle90_output).
  vm_compute. reflexivity.
Defined.

(** X12 (sit.c, [decompress_fork]): how a fork decompression fails.  The
    decoders of methods 0, 1 and 2 have no failure of their own: the only
    errors are a stored fork whose packed length is below its raw length
    and a CRC that does not match.  A method number other than 0, 1, 2, 13
    and 15 is refused with its number. *)
Theorem X12_decompress_fork_failures
    (s13 s15 : bytes -> Z -> Z -> result bytes) (fi : Sit.sit_fork_info_t) :
  (forall e,
      Sit.decompress_fork s13 s15 fi = Err e ->
      Sit.method fi = 0 \/ Sit.method fi = 1 \/ Sit.method fi = 2 ->
      (Sit.method fi = 0 /\ Sit.packed_len fi < Sit.raw_len fi
       /\ e = SitMethod0Short (Sit.packed_len fi) (Sit.raw_len fi))
      \/ (exists actual, e = SitForkCrc (Sit.crc fi) actual
                         /\ actual <> Sit.crc fi))
  /\ (~ In (Sit.method fi) [0; 1; 2; 13; 15] ->
      Sit.decompress_fork s13 s15 fi
      = Err (SitUnsupportedMethod (Sit.method fi))).
Proof.
  unfold Sit.decompress_fork. split.
  - intros e H Hm.
    destruct (Z.eqb_spec (Sit.method fi) 13) as [? | _]; [lia |].
    destruct (Z.eqb_spec (Sit.method fi) 15) as [? | _]; [lia |].
    destruct (Z.eqb_spec (Sit.method fi) 0) as [H0 | H0].
    { destruct (Z.ltb_spec (Sit.packed_len fi) (Sit.raw_len fi)) as [Hp | Hp].
      - injection H as <-. left. repeat split; assumption.
      - apply check_fork_crc_err in H. destruct H as [-> Hne].
        right. eexists. split; [reflexivity | exact Hne]. }
    destruct (Z.eqb_spec (Sit.method fi) 1) as [H1 | H1].
    { apply check_fork_crc_err in H. destruct H as [-> Hne].
      right. eexists. split; [reflexivity | exact Hne]. }
    destruct (Z.eqb_spec (Sit.method fi) 2) as [H2 | H2]; [| lia].
    apply check_fork_crc_err in H. destruct H as [-> Hne].
    right. eexists. split; [reflexivity | exact Hne].
  - intros Hn. simpl in Hn.
    destruct (Z.eqb_spec (Sit.method fi) 13) as [? | _]; [exfalso; apply Hn; lia |].
    destruct (Z.eqb_spec (Sit.method fi) 15) as [? | _]; [exfalso; apply Hn; lia |].
    destruct (Z.eqb_spec (Sit.method fi) 0) as [? | _]; [exfalso; apply Hn; lia |].
    destruct (Z.eqb_spec (Sit.method fi) 1) as [? | _]; [exfalso; apply Hn; lia |].
    destruct (Z.eqb_spec (Sit.method fi) 2) as [? | _]; [exfalso; apply Hn; lia |].
    reflexivity.
Qed.

Lemma X12_witness :
  ((Sit.method {| Sit.raw_len := 2; Sit.packed_len := 1; Sit.crc := 0;
                  Sit.method := 0; Sit.data := [7] |} = 0
    /\ 1 < 2 /\ SitMethod0Short 1 2 = SitMethod0Short 1 2)
   \/ (exists actual, SitMethod0Short 1 2 = SitForkCrc 0 actual
                      /\ actual <> 0))
  /\ Sit.decompress_fork Vectors.no_fork_engine Vectors.no_fork_engine
       {| Sit.raw_len := 1; Sit.packed_len := 1; Sit.crc := 0;
          Sit.method := 5; Sit.data := [7] |}
     = Err (SitUnsupportedMethod 5).
Proof.
  split.
  - destruct (X12_decompress_fork_failures
                Vectors.no_fork_engine Vectors.no_fork_engine
                {| Sit.raw_len := 2; Sit.packed_len := 1; Sit.crc := 0;
                   Sit.method := 0; Sit.data := [7] |}) as [H _].
    apply (H (SitMethod0Short 1 2)); [reflexivity | left; reflexivity].
  - destruct (X12_decompress_fork_failures
                Vectors.no_fork_engine Vectors.no_fork_engine
                {| Sit.raw_len := 1; Sit.packed_len := 1; Sit.crc := 0;
                   Sit.method := 5; Sit.data := [7] |}) as [_ H].
    apply H. simpl. lia.
Defined.

(** ** sit.c: signatures, the classic directory walk, the file list *)

Lemma advance_advance (p : bytes) (a b : Z) :
  0 <= a -> 0 <= b -> advance (advance p a) b = advance p (a + b).
Proof.
  intros Ha Hb. unfold advance. rewrite drop_drop. f_equal. lia.
Qed.

Lemma advance_0 (p : bytes) : advance p 0 = p.
Proof. reflexivity. Qed.

Lemma scan_some (test : bytes -> bool) (n : nat) :
  forall p off k,
    Sit.scan test p off n = Some k ->
    off <= k < off + Z.of_nat n
    /\ test (advance p (k - off)) = true
    /\ forall i, 0 <= i < k - off -> test (advance p i) = false.
Proof.
  induction n as [| n IH]; intros p off k H; simpl in H; [discriminate |].
  destruct (test p) eqn:Ht.
  - injection H as <-. rewrite Z.sub_diag, advance_0.
    split; [lia |]. split; [exact Ht |]. intros i Hi. lia.
  - apply IH in H. destruct H as (Hk & Hm & Hfirst).
    split; [lia |]. split.
    + rewrite advance_advance in Hm by lia.
      replace (1 + (k - (off + 1))) with (k - off) in Hm by lia. exact Hm.
    + intros i Hi. destruct (Z.eq_dec i 0) as [-> | Hnz]; [exact Ht |].
      specialize (Hfirst (i - 1) ltac:(lia)).
      rewrite advance_advance in Hfirst by lia.
      replace (1 + (i - 1)) with i in Hfirst by lia. exact Hfirst.
Qed.

Lemma scan_none (test : bytes -> bool) (n : nat) :
  forall p off,
    Sit.scan test p off n = None ->
    forall i, 0 <= i < Z.of_nat n -> test (advance p i) = false.
Proof.
  induction n as [| n IH]; intros p off H i Hi; [lia |].
  simpl in H. destruct (test p) eqn:Ht; [discriminate |].
  destruct (Z.eq_dec i 0) as [-> | Hnz]; [exact Ht |].
  specialize (IH _ _ H (i - 1) ltac:(lia)).
  rewrite advance_advance in IH by lia.
  replace (1 + (i - 1)) with i in IH by lia. exact IH.
Qed.

Lemma magic_search_first (s : bytes) :
  (forall off,
      Sit.find_classic_magic s = Some off ->
      22 <= len s /\ 0 <= off <= len s - 14
      /\ Sit.classic_magic_at (advance s off) = true
      /\ forall i, 0 <= i < off -> Sit.classic_magic_at (advance s i) = false)
  /\ (Sit.find_classic_magic s = None ->
      22 <= len s ->
      forall i, 0 <= i <= len s - 14 ->
                Sit.classic_magic_at (advance s i) = false)
  /\ (forall off,
        Sit.find_sit5_magic s = Some off ->
        0 <= off <= len s - 80
        /\ Sit.sit5_magic_at (advance s off) = true
        /\ forall i, 0 <= i < off -> Sit.sit5_magic_at (advance s i) = false)
  /\ (Sit.find_sit5_magic s = None ->
      forall i, 0 <= i <= len s - 80 ->
                Sit.sit5_magic_at (advance s i) = false).
Proof.
  unfold Sit.find_classic_magic, Sit.find_sit5_magic.
  change Sit.SIT_CLASSIC_HDR_SIZE with 22.
  split; [| split; [| split]].
  - intros off H.
    destruct (Z.ltb_spec (len s) 22) as [? | Hl]; [discriminate |].
    apply scan_some in H. rewrite Z.sub_0_r in H.
    destruct H as (Hk & Hm & Hfirst).
    split; [exact Hl |]. split; [lia |]. split; assumption.
  - intros H Hl i Hi.
    destruct (Z.ltb_spec (len s) 22) as [? | _]; [lia |].
    apply (scan_none _ _ _ _ H). lia.
  - intros off H.
    destruct (Z.ltb_spec (len s) 80) as [? | Hl]; [discriminate |].
    apply scan_some in H. rewrite Z.sub_0_r in H.
    destruct H as (Hk & Hm & Hfirst).
    split; [lia |]. split; assumption.
  - intros H i Hi.
    destruct (Z.ltb_spec (len s) 80) as [? | _]; [lia |].
    apply (scan_none _ _ _ _ H). lia.
Qed.

(** X13 (sit.c, [find_classic_magic], [find_sit5_magic]): each signature
    search returns the first offset at which its pattern matches.  The
    classic search tries the offsets up to [len - 14] of an input of at least
    22 bytes, the SIT5 search the offsets up to [len - 80]; a search that
    finds nothing has seen the pattern fail at every one of them. *)
Theorem X13_magic_search_returns_first_match (s : bytes) :
  (forall off,
      Sit.find_classic_magic s = Some off ->
      22 <= len s /\ 0 <= off <= len s - 14
      /\ Sit.classic_magic_at (advance s off) = true
      /\ forall i, 0 <= i < off -> Sit.classic_magic_at (advance s i) = false)
  /\ (Sit.find_classic_magic s = None ->
      22 <= len s ->
      forall i, 0 <= i <= len s - 14 ->
                Sit.classic_magic_at (advance s i) = false)
  /\ (forall off,
        Sit.find_sit5_magic s = Some off ->
        0 <= off <= len s - 80
        /\ Sit.sit5_magic_at (advance s off) = true
        /\ forall i, 0 <= i < off -> Sit.sit5_magic_at (advance s i) = false)
  /\ (Sit.find_sit5_magic s = None ->
      forall i, 0 <= i <= len s - 80 ->
                Sit.sit5_magic_at (advance s i) = false).
Proof. exact (magic_search_first s). Qed.

Lemma X13_witness :
  (22 <= len (0 :: Vectors.truncated_classic)
   /\ 0 <= 1 <= len (0 :: Vectors.truncated_classic) - 14
   /\ Sit.classic_magic_at (advance (0 :: Vectors.truncated_classic) 1) = true
   /\ forall i, 0 <= i < 1 ->
        Sit.classic_magic_at (advance (0 :: Vectors.truncated_classic) i)
        = false)
  /\ (forall i, 0 <= i <= len (Vectors.zeros 30) - 14 ->
        Sit.classic_magic_at (advance (Vectors.zeros 30) i) = false)
  /\ (forall i, 0 <= i <= len (Vectors.zeros 90) - 80 ->
        Sit.sit5_magic_at (advance (Vectors.zeros 90) i) = false).
Proof.
  split; [| split].
  - destruct (X13_magic_search_returns_first_match
                (0 :: Vectors.truncated_classic)) as (H & _).
    apply H. vm_compute. reflexivity.
  - destruct (X13_magic_search_returns_first_match (Vectors.zeros 30))
      as (_ & H & _).
    apply H; [vm_compute; reflexivity | vm_compute; discriminate].
  - destruct (X13_magic_search_returns_first_match (Vectors.zeros 90))
      as (_ & _ & _ & H).
    apply H. vm_compute. reflexivity.
Defined.

Lemma classic_sig_length (sig : bytes) :
  In sig Sit.classic_sigs -> length sig = 4%nat.
Proof.
  intros H. simpl in H.
  repeat (destruct H as [<- | H]; [reflexivity |]). contradiction.
Qed.

Lemma classic_magic_at_spec (p : bytes) :
  Sit.classic_magic_at p = true <-> Reach.spec_classic_signature p.
Proof.
  unfold Sit.classic_magic_at. split.
  - intros H. apply andb_prop in H. destruct H as [Hr Hs].
    apply bytes_eqb_true in Hr.
    assert (Hlen : 14 <= len p).
    { assert (Hl : length (span (advance p 10) 4) = 4%nat)
        by (rewrite Hr; reflexivity).
      unfold span, advance in Hl. rewrite length_take, length_drop in Hl.
      unfold len. lia. }
    apply classic_of_existsb; [exact Hlen |].
    apply existsb_exists in Hs. destruct Hs as (sig & Hin & Hsig).
    apply existsb_exists. exists sig. split; [exact Hin |].
    rewrite Hsig. simpl. apply bytes_eqb_true. exact Hr.
  - intros (sig & mid & rest & Hin & Hmid & ->).
    pose proof (classic_sig_length sig Hin) as Hsl.
    apply andb_true_intro. split.
    + apply bytes_eqb_true. unfold span, advance.
      rewrite app_assoc.
      rewrite drop_app_length' by (rewrite length_app; simpl; lia).
      reflexivity.
    + apply existsb_exists. exists sig. split; [exact Hin |].
      apply bytes_eqb_true. unfold span.
      apply take_app_length'. simpl. lia.
Qed.

Lemma sit5_magic_at_spec (p : bytes) :
  80 <= len p ->
  Sit.sit5_magic_at p = true <-> Reach.spec_sit5_banner p.
Proof.
  intros Hlen. unfold Sit.sit5_magic_at. split.
  - intros H. apply andb_prop in H. destruct H as [H16 H58].
    apply sit5_of_tests; assumption.
  - intros (year & crlf & rest & Hy & Hc & ->).
    apply andb_true_intro. split.
    + apply bytes_eqb_true. unfold span. apply take_app_length'. reflexivity.
    + apply bytes_eqb_true. unfold span, advance.
      rewrite app_assoc.
      rewrite drop_app_length' by (rewrite length_app; simpl; lia).
      apply take_app_length'. reflexivity.
Qed.

Lemma spec_classic_signature_len (p : bytes) :
  Reach.spec_classic_signature p -> 14 <= len p.
Proof.
  intros (sig & mid & rest & Hin & Hmid & ->).
  pose proof (classic_sig_length sig Hin) as Hsl.
  unfold len. rewrite !length_app. simpl. lia.
Qed.

Lemma spec_sit5_banner_len (p : bytes) :
  Reach.spec_sit5_banner p -> 80 <= len p.
Proof.
  intros (year & crlf & rest & Hy & Hc & ->).
  unfold len. rewrite !length_app. simpl. lia.
Qed.

Lemma split_at (s : bytes) (i : Z) : s = span s i ++ advance s i.
Proof. unfold span, advance. symmetry. apply take_drop. Qed.

(** X14 (sit.c, [sit_detect], [peel_sit]): [sit_detect] accepts a buffer
    exactly when a StuffIt signature begins somewhere in it: one of the nine
    classic magics with "rLau" ten bytes on, in a buffer of at least 22
    bytes, or the 80-byte SIT5 banner.  On a buffer that [sit_detect]
    rejects, [peel_sit] reports that no signature was found. *)
Theorem X14_sit_detect_finds_a_signature
    (s13 s15 : bytes -> Z -> Z -> result bytes) (s : bytes) :
  (Sit.sit_detect s = true
   <-> (22 <= len s
        /\ exists pre rest,
             s = pre ++ rest /\ Reach.spec_classic_signature rest)
       \/ (exists pre rest,
             s = pre ++ rest /\ Reach.spec_sit5_banner rest))
  /\ (Sit.sit_detect s = false ->
      Sit.peel_sit s13 s15 s = Some (Err SitNoSignature)).
Proof.
  destruct (magic_search_first s) as (Hc1 & Hc2 & Hf1 & Hf2).
  split.
  - unfold Sit.sit_detect. split.
    + intros H.
      destruct (Sit.find_classic_magic s) as [off |] eqn:Hc.
      * destruct (Hc1 off eq_refl) as (Hl & Hoff & Hm & _).
        left. split; [exact Hl |].
        exists (span s off), (advance s off).
        split; [apply split_at | apply classic_magic_at_spec, Hm].
      * destruct (Sit.find_sit5_magic s) as [off |] eqn:Hf; [| discriminate].
        destruct (Hf1 off eq_refl) as (Hoff & Hm & _).
        right. exists (span s off), (advance s off).
        split; [apply split_at |].
        apply sit5_magic_at_spec; [| exact Hm].
        rewrite len_advance by lia. lia.
    + intros [(Hl & pre & rest & -> & Hsig) | (pre & rest & -> & Hsig)].
      * destruct (Sit.find_classic_magic (pre ++ rest)) eqn:Hc;
          [reflexivity |].
        pose proof (spec_classic_signature_len rest Hsig) as Hr.
        assert (Hm : Sit.classic_magic_at (advance (pre ++ rest) (len pre))
                     = false).
        { apply Hc2; [reflexivity | exact Hl |].
          rewrite len_app. unfold len in *. lia. }
        rewrite advance_app_exact in Hm by reflexivity.
        apply classic_magic_at_spec in Hsig. congruence.
      * destruct (Sit.find_classic_magic (pre ++ rest)); [reflexivity |].
        destruct (Sit.find_sit5_magic (pre ++ rest)) eqn:Hf; [reflexivity |].
        pose proof (spec_sit5_banner_len rest Hsig) as Hr.
        assert (Hm : Sit.sit5_magic_at (advance (pre ++ rest) (len pre))
                     = false).
        { apply Hf2; [reflexivity |].
          rewrite len_app. unfold len in *. lia. }
        rewrite advance_app_exact in Hm by reflexivity.
        apply (sit5_magic_at_spec rest Hr) in Hsig. congruence.
  - unfold Sit.sit_detect, Sit.peel_sit. intros H.
    destruct (Sit.find_classic_magic s); [discriminate |].
    destruct (Sit.find_sit5_magic s); [discriminate |].
    reflexivity.
Qed.

Lemma X14_witness :
  Sit.peel_sit Vectors.no_fork_engine Vectors.no_fork_engine (lit "SIT!")
  = Some (Err SitNoSignature).
Proof.
  destruct (X14_sit_detect_finds_a_signature
              Vectors.no_fork_engine Vectors.no_fork_engine
              (lit "SIT!")) as [_ H].
  apply H. vm_compute. reflexivity.
Defined.

Section FileList.

Variable peel_sit13 : bytes -> Z -> Z -> result bytes.
Variable peel_sit15 : bytes -> Z -> Z -> result bytes.

Abbreviation decompress_fork := (Sit.decompress_fork peel_sit13 peel_sit15).
Abbreviation build_file_loop := (Sit.build_file_loop peel_sit13 peel_sit15).
Abbreviation build_file_list := (Sit.build_file_list peel_sit13 peel_sit15).

Abbreviation file_of_entry := (Reach.file_of_entry decompress_fork).

Lemma build_file_loop_ok (entries : list Sit.sit_entry_t) :
  forall fi file_count files res,
    build_file_loop entries fi file_count files = Ok res ->
    fi + len (filter (fun e => Sit.has_fork_data e = true) entries)
      <= file_count ->
    exists new,
      res = files ++ new
      /\ Forall2 file_of_entry
           (filter (fun e => Sit.has_fork_data e = true) entries) new.
Proof.
  induction entries as [| ent rest IH]; intros fi fc files res H Hcount.
  - simpl in H. injection H as <-. exists []. rewrite app_nil_r.
    split; [reflexivity | constructor].
  - simpl in H. rewrite filter_cons in Hcount |- *.
    destruct (decide (Sit.has_fork_data ent = true)) as [Hhas | Hno].
    + rewrite Hhas in H. cbn [negb] in H.
      change (len (ent :: filter (fun e => Sit.has_fork_data e = true) rest))
        with (Z.of_nat (S (length (filter (fun e => Sit.has_fork_data e = true)
                                          rest)))) in Hcount.
      destruct (Z.ltb_spec fi fc) as [_ | Hge]; [| unfold len in *; lia].
      cbn [negb] in H.
      destruct (if 0 <? Sit.raw_len (Sit.ent_data_fork ent)
                then decompress_fork (Sit.ent_data_fork ent) else Ok [])
        as [d |] eqn:Hd; [| discriminate].
      cbn [rbind] in H.
      destruct (if Sit.has_rsrc ent && (0 <? Sit.raw_len (Sit.ent_rsrc_fork ent))
                then decompress_fork (Sit.ent_rsrc_fork ent) else Ok [])
        as [r |] eqn:Hr; [| discriminate].
      cbn [rbind] in H.
      apply IH in H; [| unfold len in *; lia].
      destruct H as (new & -> & Hall).
      eexists. rewrite <- app_assoc. split; [reflexivity |].
      constructor; [| exact Hall].
      unfold Reach.file_of_entry. cbn [meta data_fork resource_fork].
      split; [reflexivity |]. split.
      * destruct (0 <? Sit.raw_len (Sit.ent_data_fork ent));
          [exact Hd | congruence].
      * destruct (Sit.has_rsrc ent && (0 <? Sit.raw_len (Sit.ent_rsrc_fork ent)));
          [exact Hr | congruence].
    + assert (Hf : Sit.has_fork_data ent = false)
        by (destruct (Sit.has_fork_data ent); congruence).
      rewrite Hf in H. cbn [negb] in H.
      destruct (Z.ltb_spec fi fc) as [Hlt | Hge]; cbn [negb] in H.
      * apply (IH _ _ _ _ H Hcount).
      * injection H as <-. exists [].
        rewrite app_nil_r. split; [reflexivity |].
        assert (Hnil : filter (fun e => Sit.has_fork_data e = true) rest = []).
        { destruct (filter _ rest); [reflexivity |].
          exfalso. unfold len in Hcount. simpl in Hcount. lia. }
        rewrite Hnil. constructor.
Qed.

Lemma build_file_loop_err (entries : list Sit.sit_entry_t) :
  forall fi file_count files e,
    build_file_loop entries fi file_count files = Err e ->
    exists ent,
      In ent entries /\ Sit.has_fork_data ent = true
      /\ (decompress_fork (Sit.ent_data_fork ent) = Err e
          \/ decompress_fork (Sit.ent_rsrc_fork ent) = Err e).
Proof.
  induction entries as [| ent rest IH]; intros fi fc files e H.
  - discriminate.
  - simpl in H.
    destruct (negb (fi <? fc)); [discriminate |].
    destruct (Sit.has_fork_data ent) eqn:Hhas; cbn [negb] in H.
    + destruct (if 0 <? Sit.raw_len (Sit.ent_data_fork ent)
                then decompress_fork (Sit.ent_data_fork ent) else Ok [])
        as [d | e1] eqn:Hd.
      * cbn [rbind] in H.
        destruct (if Sit.has_rsrc ent
                     && (0 <? Sit.raw_len (Sit.ent_rsrc_fork ent))
                  then decompress_fork (Sit.ent_rsrc_fork ent) else Ok [])
          as [r | e2] eqn:Hr.
        -- cbn [rbind] in H. apply IH in H.
           destruct H as (ent' & Hin & Hrest).
           exists ent'. split; [right; exact Hin | exact Hrest].
        -- cbn [rbind] in H. injection H as <-.
           exists ent. split; [left; reflexivity |]. split; [exact Hhas |].
           right.
           destruct (Sit.has_rsrc ent
                     && (0 <? Sit.raw_len (Sit.ent_rsrc_fork ent)));
             [exact Hr | discriminate].
      * cbn [rbind] in H. injection H as <-.
        exists ent. split; [left; reflexivity |]. split; [exact Hhas |].
        left.
        destruct (0 <? Sit.raw_len (Sit.ent_data_fork ent));
          [exact Hd | discriminate].
    + apply IH in H. destruct H as (ent' & Hin & Hrest).
      exists ent'. split; [right; exact Hin | exact Hrest].
Qed.

(** X15 (sit.c, [build_file_list]): the file list is the entry list with
    the entries without fork data left out.  On success there is one file
    per entry that declares a nonempty fork, in the order of the entries,
    each with the entry's metadata (the name cut to 255 bytes) and its forks
    decompressed; an error is the error of the first fork that failed. *)
Theorem X15_build_file_list_follows_entries
    (entries : list Sit.sit_entry_t) :
  (forall files,
      build_file_list entries = Ok files ->
      Forall2 file_of_entry
        (filter (fun e => Sit.has_fork_data e = true) entries) files)
  /\ (forall e,
        build_file_list entries = Err e ->
        exists ent,
          In ent entries /\ Sit.has_fork_data ent = true
          /\ (decompress_fork (Sit.ent_data_fork ent) = Err e
              \/ decompress_fork (Sit.ent_rsrc_fork ent) = Err e)).
Proof.
  unfold Sit.build_file_list. split.
  - intros files H. destruct entries as [| ent rest].
    + injection H as <-. constructor.
    + apply build_file_loop_ok in H; [| lia].
      destruct H as (new & -> & Hall). exact Hall.
  - intros e H. destruct entries as [| ent rest]; [discriminate |].
    apply build_file_loop_err in H. exact H.
Qed.

End FileList.

Lemma X15_witness :
  Forall2 (Reach.file_of_entry
             (Sit.decompress_fork Vectors.no_fork_engine
                Vectors.no_fork_engine))
    (filter (fun e => Sit.has_fork_data e = true) [Vectors.truncated_entry])
    [Vectors.file_a_x].
Proof.
  destruct (X15_build_file_list_follows_entries
              Vectors.no_fork_engine Vectors.no_fork_engine
              [Vectors.truncated_entry]) as [H _].
  apply H. vm_compute. reflexivity.
Defined.

Lemma c_strnlen_all (s : bytes) :
  Forall (fun c => c <> 0) s ->
  forall n, (length s <= n)%nat -> c_strnlen s n = length s.
Proof.
  induction 1 as [| c rest Hc Hrest IH]; intros n Hn.
  - destruct n; reflexivity.
  - destruct n as [| n]; [simpl in Hn; lia |]. simpl.
    destruct (Z.eqb_spec c 0) as [? | _]; [contradiction |].
    rewrite IH by (simpl in Hn; lia). reflexivity.
Qed.

Lemma c_str_all (s : bytes) : Forall (fun c => c <> 0) s -> c_str s = s.
Proof.
  intros Hs. unfold c_str. rewrite (c_strnlen_all s Hs) by lia.
  apply firstn_all.
Qed.

Lemma classic_dirs_path_fits (dirs : list bytes) :
  forall path, len path <= 511 -> len (Sit.classic_dirs_path dirs path) <= 511.
Proof.
  induction dirs as [| d rest IH]; intros path Hp; simpl; [exact Hp |].
  destruct (Z.leb_spec 512 (len path + len (c_str d) + 1)) as [? | Hfit];
    [exact Hp |].
  apply IH. rewrite !len_app. change (len [47]) with 1. lia.
Qed.

Lemma classic_dirs_path_joins (dirs : list bytes) :
  Forall (Forall (fun c => c <> 0)) dirs ->
  forall path,
    len path + len (concat (map (fun d => d ++ [47]) dirs)) <= 511 ->
    Sit.classic_dirs_path dirs path
    = path ++ concat (map (fun d => d ++ [47]) dirs).
Proof.
  induction 1 as [| d rest Hd Hrest IH]; intros path Hfit; simpl.
  - rewrite app_nil_r. reflexivity.
  - simpl in Hfit. rewrite !len_app in Hfit. change (len [47]) with 1 in Hfit.
    rewrite (c_str_all d Hd).
    assert (Hn : 0 <= len (concat (map (fun d => d ++ [47]) rest)))
      by (unfold len; lia).
    destruct (Z.leb_spec 512 (len path + len d + 1)) as [? | _]; [lia |].
    rewrite IH by (rewrite !len_app; change (len [47]) with 1; lia).
    rewrite <- !app_assoc. reflexivity.
Qed.

(** X16 (sit.c, [parse_classic], the path loop): the path built for a file
    of a classic archive always fits in [char path[512]] with its
    terminator, whatever the folder stack and the name are.  When the folder
    names and the file name hold no NUL and their total length with one
    separator per folder is at most 511, the path is the folder names, each
    followed by ['/'], and then the file name. *)
Theorem X16_classic_path_fits_and_joins (dirs : list bytes) (fname : bytes) :
  len (Sit.classic_path dirs fname) <= 511
  /\ (Forall (Forall (fun c => c <> 0)) dirs ->
      Forall (fun c => c <> 0) fname ->
      len (concat (map (fun d => d ++ [47]) dirs)) + len fname <= 511 ->
      Sit.classic_path dirs fname
      = concat (map (fun d => d ++ [47]) dirs) ++ fname).
Proof.
  unfold Sit.classic_path. split.
  - pose proof (classic_dirs_path_fits dirs [] ltac:(unfold len; simpl; lia))
      as Hp.
    set (path := Sit.classic_dirs_path dirs []) in *.
    rewrite len_app. unfold len at 2. rewrite length_take.
    destruct (c_strnlen_le fname (Z.to_nat (511 - len path))). lia.
  - intros Hd Hf Hfit.
    assert (Hn : 0 <= len fname) by (unfold len; lia).
    rewrite (classic_dirs_path_joins dirs Hd [])
      by (change (len []) with 0; lia).
    simpl. f_equal.
    rewrite (c_strnlen_all fname Hf) by (unfold len in *; lia).
    apply firstn_all.
Qed.

Lemma X16_witness :
  Sit.classic_path [lit "a"; lit "bc"] (lit "d")
  = concat (map (fun d => d ++ [47]) [lit "a"; lit "bc"]) ++ lit "d".
Proof.
  destruct (X16_classic_path_fits_and_joins [lit "a"; lit "bc"] (lit "d"))
    as [_ H].
  apply H.
  - repeat constructor; discriminate.
  - repeat constructor; discriminate.
  - vm_compute. discriminate.
Defined.

Lemma land_15 (x : Z) : 0 <= Z.land x 15 <= 15.
Proof.
  assert (H : 0 <= Z.land x 15 < 2 ^ 4).
  { apply bits_below; [lia |]. intros i Hi.
    rewrite Z.land_spec, (bits_above 4 15 i) by (simpl; lia).
    apply andb_false_r. }
  simpl in H. lia.
Qed.

Lemma len_nonneg {A} (l : list A) : 0 <= len l.
Proof. unfold len. lia. Qed.

Lemma removelast_length_le {A} (l : list A) :
  (length (removelast l) <= length l)%nat.
Proof.
  induction l as [| x rest IH]; simpl; [lia |].
  destruct rest; simpl in *; lia.
Qed.

Lemma classic_turn_next (blob : bytes) (ao cursor : Z) (dirs : list bytes)
    (entries : list Sit.sit_entry_t) (cursor' : Z) (dirs' : list bytes)
    (entries' : list Sit.sit_entry_t) :
  is_bytes blob -> 0 <= ao -> 0 <= cursor ->
  Sit.classic_turn blob ao cursor dirs entries
  = Sit.TurnNext cursor' dirs' entries' ->
  0 <= cursor'
  /\ (len dirs <= Sit.SIT_MAX_DEPTH -> len dirs' <= Sit.SIT_MAX_DEPTH)
  /\ (entries' = entries
      \/ exists e, entries' = entries ++ [e] /\ Reach.classic_entry_ok e).
Proof.
  intros Hb Hao Hcur H. unfold Sit.classic_turn in H.
  change Sit.SIT_ENTRY_HDR_SIZE with 112 in H.
  change Sit.SIT_MAX_DEPTH with 10 in *.
  assert (Hu : forall x, 0 <= u32 x)
    by (intros x; unfold u32; apply Z.mod_pos_bound; lia).
  destruct (Z.ltb_spec (len blob - ao) (cursor + 112)) as [? | Havail];
    [discriminate |].
  set (hdr := advance (advance blob ao) cursor) in *.
  destruct ((at_ hdr 0 =? Sit.SIT_FOLDER_START)
            || (at_ hdr 1 =? Sit.SIT_FOLDER_START)).
  { injection H as <- <- <-. split; [apply Hu |]. split; [| left; reflexivity].
    intros Hd.
    destruct (Z.ltb_spec (len dirs) 10) as [Hlt | _]; [| exact Hd].
    destruct (at_ hdr 2 <? 64); [| exact Hd]. simpl.
    rewrite len_app. change (len [span (advance hdr 3) (at_ hdr 2)]) with 1.
    lia. }
  destruct ((at_ hdr 0 =? Sit.SIT_FOLDER_END)
            || (at_ hdr 1 =? Sit.SIT_FOLDER_END)).
  { injection H as <- <- <-. split; [apply Hu |]. split; [| left; reflexivity].
    intros Hd. pose proof (removelast_length_le dirs). unfold len in *. lia. }
  destruct (negb (Z.land (at_ hdr 0) 224 =? 0)
            || negb (Z.land (at_ hdr 1) 224 =? 0)).
  { injection H as <- <- <-. split; [apply Hu |]. split; [| left; reflexivity].
    intros Hd. exact Hd. }
  set (rclen := rd32be (advance hdr 92)) in *.
  set (dclen := rd32be (advance hdr 96)) in *.
  destruct (Z.ltb_spec (len blob) (ao + cursor + 112 + rclen + dclen))
    as [? | Hfit]; [discriminate |].
  unfold Sit.entry_list_push in H.
  destruct (Sit.SIT_MAX_FILES <=? len entries); [discriminate |].
  injection H as <- <- <-.
  split; [apply Hu |]. split; [intros Hd; exact Hd |].
  right. eexists. split; [reflexivity |].
  assert (Hhb : is_bytes hdr) by (subst hdr; do 2 apply is_bytes_advance; exact Hb).
  assert (Hrc : 0 <= rclen < 4294967296)
    by (apply rd32be_range, is_bytes_advance, Hhb).
  assert (Hdc : 0 <= dclen < 4294967296)
    by (apply rd32be_range, is_bytes_advance, Hhb).
  assert (Hlr : len (advance (advance blob ao) (cursor + 112))
                = len blob - ao - cursor - 112).
  { rewrite !len_advance by lia. lia. }
  unfold Reach.classic_entry_ok, Reach.fork_in_archive.
  cbn [Sit.ent_data_fork Sit.ent_rsrc_fork Sit.ent_name Sit.packed_len
       Sit.raw_len Sit.crc Sit.method Sit.data].
  split; [| split; [| split]].
  - split; [| split; [| split]].
    + rewrite len_advance, Hlr by lia. lia.
    + apply rd32be_range, is_bytes_advance, Hhb.
    + apply rd16be_range.
    + apply land_15.
  - split; [| split; [| split]].
    + rewrite Hlr. lia.
    + apply rd32be_range, is_bytes_advance, Hhb.
    + apply rd16be_range.
    + apply land_15.
  - reflexivity.
  - pose proof (classic_dirs_path_fits dirs [] ltac:(unfold len; simpl; lia))
      as Hp.
    unfold Sit.classic_path.
    set (path := Sit.classic_dirs_path dirs []) in *.
    rewrite len_app. unfold len at 2. rewrite length_take.
    match goal with
    | |- context [c_strnlen ?f ?n] => destruct (c_strnlen_le f n)
    end. lia.
Qed.

Lemma parse_classic_loop_entries (todo : nat) :
  forall blob ao cursor dirs entries res,
    is_bytes blob -> 0 <= ao -> 0 <= cursor ->
    Sit.parse_classic_loop todo blob ao cursor dirs entries = Ok res ->
    exists new,
      res = entries ++ new
      /\ len new <= Z.of_nat todo
      /\ Forall Reach.classic_entry_ok new.
Proof.
  induction todo as [| todo IH]; intros blob ao cursor dirs entries res
    Hb Hao Hcur H; simpl in H.
  - injection H as <-. exists []. rewrite app_nil_r.
    split; [reflexivity |]. split; [change (len []) with 0; lia | constructor].
  - destruct (Sit.classic_turn blob ao cursor dirs entries)
      as [| e | cursor' dirs' entries'] eqn:Ht.
    + injection H as <-. exists []. rewrite app_nil_r.
      split; [reflexivity |].
      split; [change (len []) with 0; lia | constructor].
    + discriminate.
    + destruct (classic_turn_next _ _ _ _ _ _ _ _ Hb Hao Hcur Ht)
        as (Hc' & _ & Hent).
      apply IH in H; try assumption.
      destruct H as (new & -> & Hlen & Hall).
      destruct Hent as [-> | (e & -> & He)].
      * exists new. split; [reflexivity |]. split; [lia | exact Hall].
      * exists (e :: new). rewrite <- app_assoc. split; [reflexivity |].
        split; [| constructor; assumption].
        unfold len in *. simpl. lia.
Qed.

(** X17 (sit.c, [parse_classic]): the entries parsed from a classic archive
    stay inside it.  There are at most as many as the header's file count;
    each fork descriptor points at [packed_len] bytes that lie within the
    archive, the data fork right after the resource fork; lengths, CRCs and
    method numbers have the ranges of their fields; and every path fits in
    511 bytes. *)
Theorem X17_parse_classic_entries_lie_in_archive
    (blob : bytes) (ao : Z) (entries : list Sit.sit_entry_t) :
  is_bytes blob -> 0 <= ao ->
  Sit.parse_classic blob ao [] = Ok entries ->
  len entries <= rd16be (advance (advance blob ao) 4)
  /\ Forall Reach.classic_entry_ok entries.
Proof.
  intros Hb Hao H. unfold Sit.parse_classic in H.
  destruct (len blob - ao <? Sit.SIT_CLASSIC_HDR_SIZE); [discriminate |].
  apply parse_classic_loop_entries in H;
    [| exact Hb | exact Hao | unfold Sit.SIT_CLASSIC_HDR_SIZE; lia].
  destruct H as (new & -> & Hlen & Hall). simpl.
  pose proof (rd16be_range (advance (advance blob ao) 4)).
  split; [lia | exact Hall].
Qed.

Lemma X17_witness :
  len [Vectors.truncated_entry]
  <= rd16be (advance (advance Vectors.truncated_classic 0) 4)
  /\ Forall Reach.classic_entry_ok [Vectors.truncated_entry].
Proof.
  apply X17_parse_classic_entries_lie_in_archive.
  - apply is_bytes_forallb. vm_compute. reflexivity.
  - lia.
  - vm_compute. reflexivity.
Defined.

(** ** sit.c: the SIT5 directory walk *)

Lemma u32_small (x : Z) : 0 <= x < 4294967296 -> u32 x = x.
Proof. intros H. unfold u32. apply Z.mod_small. exact H. Qed.

Lemma u32_range (x : Z) : 0 <= u32 x < 4294967296.
Proof. unfold u32. apply Z.mod_pos_bound. lia. Qed.

(** [remaining++] followed by [remaining--] on a [uint32_t]. *)
Lemma u32_succ_pred (x : Z) :
  0 <= x < 4294967296 -> u32 (u32 (x + 1) - 1) = x.
Proof.
  intros H. unfold u32.
  destruct (Z.eq_dec x 4294967295) as [-> | Hne]; [reflexivity |].
  rewrite (Z.mod_small (x + 1)) by lia.
  replace (x + 1 - 1) with x by lia. apply Z.mod_small. lia.
Qed.

(** In an archive of less than 4 GiB, a turn of the walk that goes on
    either moves the cursor forward or leaves the whole walk as it was; the
    latter is the turn at a skipped entry whose header 1 has length 0. *)
Lemma sit5_turn_progress (blob : bytes) (ao : Z) (w w' : Sit.sit5_walk_t) :
  is_bytes blob -> 0 <= ao -> len blob < 4294967296 - 512 ->
  0 <= Sit.walk_cursor w -> 0 <= Sit.walk_remaining w < 4294967296 ->
  Sit.sit5_in_loop blob ao w = true ->
  Sit.sit5_turn blob ao w = Sit.Sit5Next w' ->
  (w' = w \/ Sit.walk_cursor w < Sit.walk_cursor w')
  /\ 0 <= Sit.walk_cursor w' /\ 0 <= Sit.walk_remaining w' < 4294967296.
Proof.
  intros Hb Hao Hlen Hc Hr Hin.
  unfold Sit.sit5_in_loop in Hin.
  apply andb_prop in Hin as [Hin Hroom]. apply andb_prop in Hin as [Hpos Hnz].
  apply Z.leb_le in Hroom. apply Z.ltb_lt in Hpos.
  unfold Sit.sit5_turn.
  set (base := advance blob ao).
  set (h1 := advance base (Sit.walk_cursor w)).
  assert (Hbase : is_bytes base) by (apply is_bytes_advance; exact Hb).
  assert (Hh1 : is_bytes h1) by (apply is_bytes_advance; exact Hbase).
  destruct (negb (rd32be h1 =? Sit.SIT5_ENTRY_MAGIC)); [discriminate |].
  destruct (negb (at_ h1 4 =? 1)); [discriminate |].
  set (h1_len := rd16be (advance h1 6)).
  assert (Hh1len : 0 <= h1_len < 65536) by apply rd16be_range.
  destruct (Z.ltb_spec (len blob - ao) (Sit.walk_cursor w + h1_len))
    as [? | Hfit]; [discriminate |].
  match goal with |- context [negb (?a =? ?b)] => destruct (negb (a =? b)) end;
    [discriminate |].
  rewrite (u32_small (Sit.walk_cursor w + h1_len)) by lia.
  set (h2_off := Sit.walk_cursor w + h1_len).
  destruct (Z.ltb_spec (len blob - ao) (h2_off + 32)) as [? | Hh2];
    [discriminate |].
  set (h2 := advance base h2_off).
  set (rsrc_present := negb (Z.land (rd16be h2) 1 =? 0)).
  set (skip_extra := if at_ h1 4 =? 1 then 22 else 18).
  assert (Hskip : 18 <= skip_extra <= 22)
    by (subst skip_extra; destruct (at_ h1 4 =? 1); lia).
  set (after_prefix := h2_off + 14 + skip_extra).
  match goal with
  | |- context [rsrc_present && ?c] => destruct (rsrc_present && c)
  end; [discriminate |].
  set (info := advance base after_prefix).
  assert (Hinfo : is_bytes info) by (apply is_bytes_advance; exact Hbase).
  set (payload := if rsrc_present then after_prefix + 14 + at_ info 13
                  else after_prefix).
  assert (Hpay : h2_off + 32 <= payload <= h2_off + 14 + 22 + 14 + 255).
  { subst payload after_prefix. pose proof (at_is_byte info 13 Hinfo).
    destruct rsrc_present; lia. }
  set (d_raw_len := rd32be (advance h1 34)).
  set (d_packed_len := rd32be (advance h1 38)).
  assert (Hdp : 0 <= d_packed_len < 4294967296)
    by (apply rd32be_range, is_bytes_advance; exact Hh1).
  set (r_packed_len := if rsrc_present then rd32be (advance info 4) else 0).
  assert (Hrp : 0 <= r_packed_len < 4294967296).
  { subst r_packed_len. destruct rsrc_present; [| lia].
    apply rd32be_range, is_bytes_advance; exact Hinfo. }
  assert (Hsame : h1_len = 0 ->
            {| Sit.walk_cursor := h2_off;
               Sit.walk_remaining := Sit.walk_remaining w;
               Sit.walk_dmap := Sit.walk_dmap w;
               Sit.walk_entries := Sit.walk_entries w |} = w).
  { intros H0. subst h2_off. rewrite H0, Z.add_0_r. destruct w; reflexivity. }
  destruct (negb (Z.land (at_ h1 9) 64 =? 0)).
  - destruct (d_raw_len =? 4294967295).
    + intros [= <-]. cbn [Sit.walk_cursor Sit.walk_remaining].
      rewrite (u32_succ_pred _ Hr).
      split; [| lia].
      destruct (Z.eq_dec h1_len 0) as [H0 | Hne];
        [left; apply Hsame; exact H0 | right; lia].
    + intros [= <-]. cbn [Sit.walk_cursor Sit.walk_remaining].
      rewrite (u32_small payload) by lia.
      split; [right; lia |]. split; [lia | apply u32_range].
  - destruct (d_raw_len =? 4294967295).
    + intros [= <-]. cbn [Sit.walk_cursor Sit.walk_remaining].
      split; [| lia].
      destruct (Z.eq_dec h1_len 0) as [H0 | Hne];
        [left; apply Hsame; exact H0 | right; lia].
    + match goal with
      | |- context [if ?c then Sit.Sit5Fail Sit5Encrypted else _] =>
          destruct c
      end; [discriminate |].
      set (d_off := payload + (if rsrc_present then r_packed_len else 0)).
      assert (Hdoff : payload <= d_off)
        by (subst d_off; destruct rsrc_present; lia).
      destruct (Z.ltb_spec (len blob) (ao + d_off + d_packed_len))
        as [? | Hdfit]; [discriminate |].
      match goal with
      | |- context [Sit.entry_list_push ?es ?e] =>
          destruct (Sit.entry_list_push es e)
      end; [| discriminate].
      intros [= <-]. cbn [Sit.walk_cursor Sit.walk_remaining].
      rewrite (u32_small (d_off + d_packed_len)) by lia.
      split; [right; lia |]. split; [lia | apply u32_range].
Qed.

(** So the loop needs no more turns than there are bytes after the cursor:
    with that many it has returned, or it never does. *)
Lemma parse_sit5_loop_enough (fuel : nat) :
  forall (blob : bytes) (ao : Z) (w : Sit.sit5_walk_t),
    is_bytes blob -> 0 <= ao -> len blob < 4294967296 - 512 ->
    0 <= Sit.walk_cursor w -> 0 <= Sit.walk_remaining w < 4294967296 ->
    len blob - ao - Sit.walk_cursor w <= Z.of_nat fuel ->
    Sit.parse_sit5_loop (S fuel) blob ao w
    = Sit.parse_sit5_loop fuel blob ao w.
Proof.
  induction fuel as [| fuel IH]; intros blob ao w Hb Hao Hlen Hc Hr Hfuel.
  - simpl. destruct (Sit.sit5_in_loop blob ao w) eqn:Hin; [| reflexivity].
    unfold Sit.sit5_in_loop in Hin. apply andb_prop in Hin as [_ Hroom].
    apply Z.leb_le in Hroom. lia.
  - rewrite (parse_sit5_loop_S (S fuel)), (parse_sit5_loop_S fuel).
    destruct (Sit.sit5_in_loop blob ao w) eqn:Hin; [| reflexivity].
    destruct (Sit.sit5_turn blob ao w) as [e | w'] eqn:Hturn; [reflexivity |].
    destruct (sit5_turn_progress blob ao w w' Hb Hao Hlen Hc Hr Hin Hturn)
      as ([-> | Hmove] & Hc' & Hr').
    + rewrite !(parse_sit5_loop_stuck blob ao w Hin Hturn). reflexivity.
    + apply IH; try assumption. lia.
Qed.

(** [parse_sit5] cuts the loop where more turns change nothing. *)
Lemma parse_sit5_enough (blob : bytes) (ao : Z)
    (entries : list Sit.sit_entry_t) (more : nat) :
  is_bytes blob -> 0 <= ao -> len blob < 4294967296 - 512 ->
  Sit.SIT5_MIN_SIZE <= len blob - ao ->
  Sit.parse_sit5_loop (Z.to_nat (len blob + 1) + more) blob ao
    {| Sit.walk_cursor := rd32be (advance (advance blob ao) 94);
       Sit.walk_remaining := rd16be (advance (advance blob ao) 92);
       Sit.walk_dmap := []; Sit.walk_entries := entries |}
  = Sit.parse_sit5 blob ao entries.
Proof.
  intros Hb Hao Hlen Hmin. unfold Sit.parse_sit5.
  destruct (Z.ltb_spec (len blob - ao) Sit.SIT5_MIN_SIZE) as [? | _]; [lia |].
  assert (Hc : 0 <= rd32be (advance (advance blob ao) 94) < 4294967296)
    by (apply rd32be_range; do 2 apply is_bytes_advance; exact Hb).
  pose proof (rd16be_range (advance (advance blob ao) 92)) as Hr.
  induction more as [| more IH]; [rewrite Nat.add_0_r; reflexivity |].
  rewrite Nat.add_succ_r, parse_sit5_loop_enough; try assumption;
    cbn [Sit.walk_cursor Sit.walk_remaining]; lia.
Qed.

(** ** hqx.c *)

Lemma hqx_preamble_scan_some (n : nat) :
  forall p r,
    Hqx.hqx_preamble_scan p n = Some r ->
    exists j, 0 <= j < Z.of_nat n
              /\ span (advance p j) (len Hqx.HQX_PREAMBLE) = Hqx.HQX_PREAMBLE.
Proof.
  induction n as [| n IH]; intros p r H; simpl in H; [discriminate |].
  destruct (bytes_eqb (span p (len Hqx.HQX_PREAMBLE)) Hqx.HQX_PREAMBLE) eqn:He.
  - exists 0. split; [lia |]. apply bytes_eqb_true. exact He.
  - apply IH in H. destruct H as (j & Hj & Hm).
    exists (1 + j). split; [lia |].
    rewrite advance_advance in Hm by lia. exact Hm.
Qed.

Lemma hqx_preamble_scan_none (n : nat) :
  forall p,
    Hqx.hqx_preamble_scan p n = None ->
    forall j, 0 <= j < Z.of_nat n ->
              span (advance p j) (len Hqx.HQX_PREAMBLE) <> Hqx.HQX_PREAMBLE.
Proof.
  induction n as [| n IH]; intros p H j Hj; [lia |].
  simpl in H.
  destruct (bytes_eqb (span p (len Hqx.HQX_PREAMBLE)) Hqx.HQX_PREAMBLE) eqn:He;
    [discriminate |].
  destruct (Z.eq_dec j 0) as [-> | Hnz].
  - intros Heq. apply bytes_eqb_true in Heq. rewrite advance_0 in Heq.
    congruence.
  - specialize (IH _ H (j - 1) ltac:(lia)).
    rewrite advance_advance in IH by lia.
    replace (1 + (j - 1)) with j in IH by lia. exact IH.
Qed.

(** X18 (hqx.c, [hqx_detect], [hqx_find_preamble], [peel_hqx]): [hqx_detect]
    accepts a buffer exactly when the preamble text "(This file must be
    converted with BinHex" occurs somewhere in it, and on every other buffer
    [peel_hqx] and [peel_hqx_file] report that the preamble was not
    found. *)
Theorem X18_hqx_detect_is_preamble_search (s : bytes) :
  (Hqx.hqx_detect s = true
   <-> exists pre post, s = pre ++ Hqx.HQX_PREAMBLE ++ post)
  /\ (Hqx.hqx_detect s = false ->
      Hqx.peel_hqx s = Err HqxPreambleNotFound
      /\ Hqx.peel_hqx_file s = Err HqxPreambleNotFound).
Proof.
  unfold Hqx.hqx_detect, Hqx.peel_hqx, Hqx.peel_hqx_file, Hqx.hqx_decode,
    Hqx.hqx_find_preamble.
  split.
  - split.
    + intros H.
      destruct (Z.ltb_spec (len s) (len Hqx.HQX_PREAMBLE)) as [? | Hl];
        [discriminate |].
      destruct (Hqx.hqx_preamble_scan s _) as [r |] eqn:Hs; [| discriminate].
      apply hqx_preamble_scan_some in Hs. destruct Hs as (j & Hj & Hm).
      exists (span s j), (advance (advance s j) (len Hqx.HQX_PREAMBLE)).
      rewrite <- Hm at 1. rewrite <- split_at. apply split_at.
    + intros (pre & post & ->).
      assert (Hlen : len (pre ++ Hqx.HQX_PREAMBLE ++ post)
                     = len pre + len Hqx.HQX_PREAMBLE + len post)
        by (rewrite !len_app; lia).
      pose proof (len_nonneg pre). pose proof (len_nonneg post).
      destruct (Z.ltb_spec (len (pre ++ Hqx.HQX_PREAMBLE ++ post))
                           (len Hqx.HQX_PREAMBLE)) as [? | Hl]; [lia |].
      destruct (Hqx.hqx_preamble_scan _ _) as [r |] eqn:Hs; [reflexivity |].
      exfalso.
      apply (hqx_preamble_scan_none _ _ Hs (len pre)); [lia |].
      rewrite advance_app_exact by reflexivity.
      apply span_app_exact.
  - intros H.
    destruct (len s <? len Hqx.HQX_PREAMBLE); [split; reflexivity |].
    destruct (Hqx.hqx_preamble_scan s _); [discriminate | split; reflexivity].
Qed.

Lemma X18_witness :
  Hqx.peel_hqx (lit "(This file must be converted with BinHe")
  = Err HqxPreambleNotFound
  /\ Hqx.peel_hqx_file (lit "(This file must be converted with BinHe")
     = Err HqxPreambleNotFound.
Proof.
  destruct (X18_hqx_detect_is_preamble_search
              (lit "(This file must be converted with BinHe")) as [_ H].
  apply H. vm_compute. reflexivity.
Defined.

Lemma hqx_next_char_visible (p : bytes) :
  fst (Hqx.hqx_next_char p)
  = match Reach.hqx_visible p with
    | [] => None
    | c :: _ => if c =? 58 then None else Some c
    end
  /\ Reach.hqx_visible (snd (Hqx.hqx_next_char p))
     = tail (Reach.hqx_visible p).
Proof.
  unfold Reach.hqx_visible, bytes in *.
  induction p as [| ch rest IH]; [simpl; split; reflexivity |].
  rewrite filter_cons. cbn [Hqx.hqx_next_char].
  destruct (Z.eqb_spec ch 58) as [-> | Hc].
  - change (Hqx.is_space 58) with false.
    destruct (decide (false = false)) as [_ | ?]; [| congruence].
    simpl. split; reflexivity.
  - destruct (Hqx.is_space ch) eqn:Hs.
    + destruct (decide (true = false)) as [? | _]; [discriminate |].
      exact IH.
    + destruct (decide (false = false)) as [_ | ?]; [| congruence].
      cbn [fst snd tail]. destruct (Z.eqb_spec ch 58); [contradiction |].
      split; reflexivity.
Qed.

Lemma hqx_next_char_same (p p' : bytes) :
  Reach.hqx_visible p = Reach.hqx_visible p' ->
  fst (Hqx.hqx_next_char p) = fst (Hqx.hqx_next_char p')
  /\ Reach.hqx_visible (snd (Hqx.hqx_next_char p))
     = Reach.hqx_visible (snd (Hqx.hqx_next_char p')).
Proof.
  intros H.
  destruct (hqx_next_char_visible p) as [-> ->].
  destruct (hqx_next_char_visible p') as [-> ->].
  rewrite H. split; reflexivity.
Qed.

Lemma hqx_same_outcome_bind {A B}
    (r r' : result (A * Hqx.hqx_decoder_t))
    (k k' : A * Hqx.hqx_decoder_t -> result (B * Hqx.hqx_decoder_t)) :
  Reach.hqx_same_outcome r r' ->
  (forall a d d',
      Reach.hqx_same_but_spaces d d' ->
      Reach.hqx_same_outcome (k (a, d)) (k' (a, d'))) ->
  Reach.hqx_same_outcome (rbind r k) (rbind r' k').
Proof.
  intros Hr Hk.
  destruct r as [[a d] | e], r' as [[a' d'] | e']; simpl in *;
    try contradiction.
  - destruct Hr as [<- Hd]. apply Hk, Hd.
  - exact Hr.
Qed.

Lemma hqx_fill_same (n : nat) :
  forall d d',
    Reach.hqx_same_but_spaces d d' ->
    Reach.hqx_same_outcome (Hqx.hqx_fill n d) (Hqx.hqx_fill n d').
Proof.
  induction n as [| n IH]; intros d d' Hd;
    pose proof Hd as (Hsrc & Hacc & Hbits & Hseen & Hprev & Hpend); simpl;
    rewrite <- Hbits.
  - destruct (Hqx.accum_bits d <? 8); simpl; split; (reflexivity || exact Hd).
  - destruct (Hqx.accum_bits d <? 8); [| simpl; split; [reflexivity | exact Hd]].
    destruct (hqx_next_char_same _ _ Hsrc) as [Hc Hrest].
    destruct (Hqx.hqx_next_char (Hqx.src d)) as [c rest].
    destruct (Hqx.hqx_next_char (Hqx.src d')) as [c' rest'].
    simpl in Hc, Hrest. subst c'.
    destruct c as [ch |].
    + destruct (63 <? Hqx.hqx_rev ch); [reflexivity |].
      apply IH. unfold Reach.hqx_same_but_spaces. simpl.
      rewrite Hacc, Hbits. repeat split; assumption.
    + simpl. split; [reflexivity |].
      unfold Reach.hqx_same_but_spaces. simpl. repeat split; assumption.
Qed.

Lemma hqx_raw_byte_same (d d' : Hqx.hqx_decoder_t) :
  Reach.hqx_same_but_spaces d d' ->
  Reach.hqx_same_outcome (Hqx.hqx_raw_byte d) (Hqx.hqx_raw_byte d').
Proof.
  intros Hd. unfold Hqx.hqx_raw_byte.
  apply hqx_same_outcome_bind; [apply hqx_fill_same, Hd |].
  intros [|] e e' (Hsrc & Hacc & Hbits & Hseen & Hprev & Hpend); simpl.
  - split; [reflexivity |]. repeat split; assumption.
  - rewrite Hacc, Hbits. split; [reflexivity |].
    unfold Reach.hqx_same_but_spaces. simpl. repeat split; assumption.
Qed.

Lemma hqx_after_marker_same (d d' : Hqx.hqx_decoder_t) (raw : Z) :
  Reach.hqx_same_but_spaces d d' ->
  Reach.hqx_same_outcome (Hqx.hqx_after_marker d raw)
                         (Hqx.hqx_after_marker d' raw).
Proof.
  intros (Hsrc & Hacc & Hbits & Hseen & Hprev & Hpend).
  unfold Hqx.hqx_after_marker.
  destruct (raw =? 0).
  { simpl. split; [reflexivity |].
    unfold Reach.hqx_same_but_spaces. simpl. repeat split; assumption. }
  destruct (raw =? 1); [reflexivity |].
  simpl. rewrite Hprev. split; [reflexivity |].
  unfold Reach.hqx_same_but_spaces. simpl. repeat split; assumption.
Qed.

Lemma hqx_decoded_byte_same (d d' : Hqx.hqx_decoder_t) :
  Reach.hqx_same_but_spaces d d' ->
  Reach.hqx_same_outcome (Hqx.hqx_decoded_byte d) (Hqx.hqx_decoded_byte d').
Proof.
  intros Hd. pose proof Hd as (Hsrc & Hacc & Hbits & Hseen & Hprev & Hpend).
  unfold Hqx.hqx_decoded_byte. rewrite <- Hpend.
  destruct (0 <? Hqx.rle_pending d).
  { simpl. rewrite Hprev. split; [reflexivity |].
    unfold Reach.hqx_same_but_spaces. simpl.
    rewrite Hpend. repeat split; assumption. }
  apply hqx_same_outcome_bind; [apply hqx_raw_byte_same, Hd |].
  intros [raw |] e e' He; [| simpl; split; [reflexivity | exact He]].
  pose proof He as (Hsrc1 & Hacc1 & Hbits1 & Hseen1 & Hprev1 & Hpend1).
  rewrite <- Hseen1.
  destruct (Hqx.rle_marker_seen e); [apply hqx_after_marker_same, He |].
  destruct (u8 raw =? Hqx.RLE_MARKER).
  - apply hqx_same_outcome_bind.
    + apply hqx_raw_byte_same.
      unfold Reach.hqx_same_but_spaces. simpl. repeat split; assumption.
    + intros [raw2 |] f f' Hf; [apply hqx_after_marker_same, Hf |].
      simpl. split; [reflexivity | exact Hf].
  - simpl. split; [reflexivity |].
    unfold Reach.hqx_same_but_spaces. simpl. repeat split; assumption.
Qed.

Lemma hqx_read_bytes_same (n : nat) :
  forall d d',
    Reach.hqx_same_but_spaces d d' ->
    Reach.hqx_same_outcome (Hqx.hqx_read_bytes d n) (Hqx.hqx_read_bytes d' n).
Proof.
  induction n as [| n IH]; intros d d' Hd.
  - simpl. split; [reflexivity | exact Hd].
  - cbn [Hqx.hqx_read_bytes].
    apply hqx_same_outcome_bind; [apply hqx_decoded_byte_same, Hd |].
    intros [b |] e e' He; [| reflexivity].
    apply hqx_same_outcome_bind; [apply IH, He |].
    intros bs f f' Hf. simpl. split; [reflexivity | exact Hf].
Qed.

Lemma hqx_parse_header_same (d d' : Hqx.hqx_decoder_t) :
  Reach.hqx_same_but_spaces d d' ->
  Reach.hqx_same_outcome (Hqx.hqx_parse_header d) (Hqx.hqx_parse_header d').
Proof.
  intros Hd. unfold Hqx.hqx_parse_header.
  apply hqx_same_outcome_bind; [apply hqx_read_bytes_same, Hd |].
  intros b0 e e' He. cbn [fst snd].
  destruct ((at_ b0 0 =? 0) || (Hqx.HQX_NAME_MAX <? at_ b0 0)); [reflexivity |].
  apply hqx_same_outcome_bind; [apply hqx_read_bytes_same, He |].
  intros b1 f f' Hf. cbn [fst snd].
  destruct (negb (Crc16.crc16_ccitt (at_ b0 0 :: b1) =? 0)); [reflexivity |].
  simpl. split; [reflexivity | exact Hf].
Qed.

Lemma hqx_read_chunks_same (k : nat) :
  forall d d' remaining acc,
    Reach.hqx_same_but_spaces d d' ->
    Reach.hqx_same_outcome (Hqx.hqx_read_chunks k d remaining acc)
                           (Hqx.hqx_read_chunks k d' remaining acc).
Proof.
  induction k as [| k IH]; intros d d' remaining acc Hd; simpl.
  - destruct (0 <? remaining); simpl; split; (reflexivity || exact Hd).
  - destruct (0 <? remaining); [| simpl; split; [reflexivity | exact Hd]].
    pose proof (hqx_read_bytes_same (Z.to_nat (Z.min remaining 4096)) d d' Hd)
      as Hr.
    destruct (Hqx.hqx_read_bytes d _) as [[bs e] |],
             (Hqx.hqx_read_bytes d' _) as [[bs' e'] |];
      simpl in Hr |- *; try contradiction; [| exact Hr].
    destruct Hr as [<- He]. apply IH, He.
Qed.

Lemma hqx_read_fork_same (d d' : Hqx.hqx_decoder_t) (fork_len : Z)
    (fork_name : string) :
  Reach.hqx_same_but_spaces d d' ->
  Reach.hqx_same_outcome (Hqx.hqx_read_fork d fork_len fork_name)
                         (Hqx.hqx_read_fork d' fork_len fork_name).
Proof.
  intros Hd. unfold Hqx.hqx_read_fork.
  destruct (fork_len =? 0).
  - apply hqx_same_outcome_bind; [apply hqx_read_bytes_same, Hd |].
    intros c e e' He. cbn [fst snd].
    destruct (negb (rd16be c =? 0)); [reflexivity |].
    simpl. split; [reflexivity | exact He].
  - apply hqx_same_outcome_bind; [apply hqx_read_chunks_same, Hd |].
    intros buf e e' He. cbn [fst snd].
    apply hqx_same_outcome_bind; [apply hqx_read_bytes_same, He |].
    intros c f f' Hf. cbn [fst snd].
    destruct (negb (_ =? 0)); [reflexivity |].
    simpl. split; [reflexivity | exact Hf].
Qed.

Lemma hqx_same_outcome_bind_eq {A B}
    (r r' : result (A * Hqx.hqx_decoder_t))
    (k k' : A * Hqx.hqx_decoder_t -> result B) :
  Reach.hqx_same_outcome r r' ->
  (forall a d d', Reach.hqx_same_but_spaces d d' -> k (a, d) = k' (a, d')) ->
  rbind r k = rbind r' k'.
Proof.
  intros Hr Hk.
  destruct r as [[a d] | e], r' as [[a' d'] | e']; simpl in *;
    try contradiction.
  - destruct Hr as [<- Hd]. apply Hk, Hd.
  - rewrite Hr. reflexivity.
Qed.

(** X19 (hqx.c, [hqx_next_char], [hqx_decode]): white space in the payload
    does not matter.  Two BinHex inputs whose payloads after the starting
    colon differ only in CR, LF, TAB and space characters decode to the same
    file, or fail with the same error. *)
Theorem X19_hqx_decode_ignores_white_space
    (s s' after after' payload payload' : bytes) :
  Hqx.hqx_find_preamble s = Some after ->
  Hqx.hqx_find_start_colon after = Some payload ->
  Hqx.hqx_find_preamble s' = Some after' ->
  Hqx.hqx_find_start_colon after' = Some payload' ->
  Reach.hqx_visible payload = Reach.hqx_visible payload' ->
  Hqx.hqx_decode s = Hqx.hqx_decode s'
  /\ Hqx.peel_hqx s = Hqx.peel_hqx s'.
Proof.
  intros Ha Hp Ha' Hp' Hvis.
  assert (Hdec : Hqx.hqx_decode s = Hqx.hqx_decode s').
  { unfold Hqx.hqx_decode. rewrite Ha, Hp, Ha', Hp'.
    apply hqx_same_outcome_bind_eq.
    { apply hqx_parse_header_same. unfold Reach.hqx_same_but_spaces. simpl.
      repeat split; try reflexivity. exact Hvis. }
    intros hdr d d' Hd. cbn [fst snd].
    apply hqx_same_outcome_bind_eq; [apply hqx_read_fork_same, Hd |].
    intros dat e e' He. cbn [fst snd].
    apply hqx_same_outcome_bind_eq; [apply hqx_read_fork_same, He |].
    intros rsr f f' Hf. reflexivity. }
  split; [exact Hdec |]. unfold Hqx.peel_hqx. rewrite Hdec. reflexivity.
Qed.

Lemma X19_witness :
  Hqx.hqx_decode (Vectors.hqx_text (Vectors.hqx_header_a ++ [0; 0; 0; 0]))
  = Hqx.hqx_decode
      (Vectors.hqx_text_spaced (Vectors.hqx_header_a ++ [0; 0; 0; 0]))
  /\ Hqx.peel_hqx (Vectors.hqx_text (Vectors.hqx_header_a ++ [0; 0; 0; 0]))
     = Hqx.peel_hqx
         (Vectors.hqx_text_spaced (Vectors.hqx_header_a ++ [0; 0; 0; 0])).
Proof.
  eapply X19_hqx_decode_ignores_white_space.
  - vm_compute. reflexivity.
  - vm_compute. reflexivity.
  - vm_compute. reflexivity.
  - vm_compute. reflexivity.
  - vm_compute. reflexivity.
Defined.

Lemma u8_range (x : Z) : 0 <= u8 x < 256.
Proof. unfold u8. apply Z.mod_pos_bound. lia. Qed.

Lemma hqx_read_bytes_ok (n : nat) :
  forall dec bs d,
    Hqx.hqx_read_bytes dec n = Ok (bs, d) ->
    length bs = n /\ is_bytes bs.
Proof.
  induction n as [| n IH]; intros dec bs d H.
  - simpl in H. injection H as <- <-. split; [reflexivity | constructor].
  - cbn [Hqx.hqx_read_bytes] in H.
    destruct (Hqx.hqx_decoded_byte dec) as [[[b |] d1] | e]; simpl in H;
      try discriminate.
    destruct (Hqx.hqx_read_bytes d1 n) as [[bs1 d2] | e] eqn:Hr; simpl in H;
      [| discriminate].
    injection H as <- <-.
    destruct (IH _ _ _ Hr) as [Hl Hb].
    split; [simpl; congruence |].
    constructor; [apply u8_range | exact Hb].
Qed.

Lemma is_bytes_app (a b : bytes) : is_bytes a -> is_bytes b -> is_bytes (a ++ b).
Proof. unfold is_bytes. intros. apply Forall_app. split; assumption. Qed.

Lemma hqx_read_chunks_ok (k : nat) :
  forall dec remaining acc buf d,
    Hqx.hqx_read_chunks k dec remaining acc = Ok (buf, d) ->
    remaining <= 4096 * Z.of_nat k ->
    len buf = len acc + Z.max 0 remaining
    /\ (is_bytes acc -> is_bytes buf).
Proof.
  induction k as [| k IH]; intros dec remaining acc buf d H Hk; simpl in H.
  - destruct (Z.ltb_spec 0 remaining) as [? | Hr]; [lia |].
    injection H as <- <-. split; [lia | tauto].
  - destruct (Z.ltb_spec 0 remaining) as [Hr | Hr].
    + destruct (Hqx.hqx_read_bytes dec (Z.to_nat (Z.min remaining 4096)))
        as [[bs d1] | e] eqn:Hb; simpl in H; [| discriminate].
      apply hqx_read_bytes_ok in Hb. destruct Hb as [Hl Hbs].
      apply IH in H; [| lia].
      destruct H as [Hlen Hbytes].
      split.
      * rewrite Hlen, len_app. unfold len at 2. rewrite Hl. lia.
      * intros Hacc. apply Hbytes, is_bytes_app; assumption.
    + injection H as <- <-. split; [lia | tauto].
Qed.

Lemma hqx_read_fork_ok (dec : Hqx.hqx_decoder_t) (fork_len : Z)
    (fork_name : string) (buf : bytes) (d : Hqx.hqx_decoder_t) :
  0 <= fork_len ->
  Hqx.hqx_read_fork dec fork_len fork_name = Ok (buf, d) ->
  len buf = fork_len /\ is_bytes buf.
Proof.
  intros Hn H. unfold Hqx.hqx_read_fork in H.
  destruct (Z.eqb_spec fork_len 0) as [-> | Hnz].
  - destruct (Hqx.hqx_read_bytes dec 2) as [[c d1] | e]; cbn [rbind fst snd] in H;
      [| discriminate].
    destruct (negb (rd16be c =? 0)); [discriminate |].
    injection H as <- <-. split; [reflexivity | constructor].
  - destruct (Hqx.hqx_read_chunks _ dec fork_len []) as [[b d1] | e] eqn:Hc;
      cbn [rbind fst snd] in H; [| discriminate].
    destruct (Hqx.hqx_read_bytes d1 2) as [[c d2] | e]; cbn [rbind fst snd] in H;
      [| discriminate].
    destruct (negb (_ =? 0)); [discriminate |].
    injection H as <- <-.
    apply hqx_read_chunks_ok in Hc.
    + destruct Hc as [Hl Hb]. change (len []) with 0 in Hl.
      split; [lia | apply Hb; constructor].
    + pose proof (Z.div_mod (fork_len + 4095) 4096 ltac:(lia)).
      pose proof (Z.mod_pos_bound (fork_len + 4095) 4096 ltac:(lia)).
      assert (0 <= (fork_len + 4095) / 4096) by (apply Z.div_pos; lia).
      rewrite Z2Nat.id by assumption. lia.
Qed.

Lemma hqx_parse_header_ok (dec : Hqx.hqx_decoder_t) (hdr : Hqx.hqx_header_t)
    (d : Hqx.hqx_decoder_t) :
  Hqx.hqx_parse_header dec = Ok (hdr, d) ->
  1 <= Hqx.name_len hdr <= 63
  /\ len (Hqx.hdr_name hdr) <= Hqx.name_len hdr
  /\ 0 <= Hqx.data_len hdr < 4294967296
  /\ 0 <= Hqx.rsrc_len hdr < 4294967296
  /\ 0 <= Hqx.hdr_mac_type hdr < 4294967296
  /\ 0 <= Hqx.hdr_mac_creator hdr < 4294967296.
Proof.
  intros H. unfold Hqx.hqx_parse_header in H.
  destruct (Hqx.hqx_read_bytes dec 1) as [[b0 d0] | e] eqn:H0; cbn [rbind fst snd] in H;
    [| discriminate].
  apply hqx_read_bytes_ok in H0. destruct H0 as [_ Hb0].
  pose proof (at_is_byte b0 0 Hb0) as Hn.
  change Hqx.HQX_NAME_MAX with 63 in H.
  destruct (Z.eqb_spec (at_ b0 0) 0) as [? | Hnz]; [discriminate |].
  destruct (Z.ltb_spec 63 (at_ b0 0)) as [? | Hle]; [discriminate |].
  cbn [orb] in H.
  destruct (Hqx.hqx_read_bytes d0 _) as [[b1 d1] | e] eqn:H1; cbn [rbind fst snd] in H;
    [| discriminate].
  apply hqx_read_bytes_ok in H1. destruct H1 as [_ Hb1].
  destruct (negb (_ =? 0)); [discriminate |].
  injection H as <- <-. cbn [Hqx.name_len Hqx.hdr_name Hqx.data_len
                             Hqx.rsrc_len Hqx.hdr_mac_type Hqx.hdr_mac_creator].
  assert (Hbuf : is_bytes (at_ b0 0 :: b1)) by (constructor; assumption).
  split; [lia |]. split.
  { etransitivity; [apply len_span_le |]. lia. }
  repeat split; try (apply rd32be_range, is_bytes_advance, Hbuf).
Qed.

(** X20 (hqx.c, [hqx_decode], [hqx_parse_header], [hqx_read_fork]): what a
    successful BinHex decode returns.  Each fork has exactly the length the
    header declares and holds bytes; the name has at most as many characters
    as the header's name length, which lies between 1 and 63, and no NUL;
    the Finder flags are the header's with bits 2, 7 and 14 cleared. *)
Theorem X20_hqx_decode_follows_header (s : bytes) (f : peel_file_t) :
  Hqx.hqx_decode s = Ok f ->
  exists after payload hdr dec1,
    Hqx.hqx_find_preamble s = Some after
    /\ Hqx.hqx_find_start_colon after = Some payload
    /\ Hqx.hqx_parse_header (Hqx.hqx_decoder_init payload) = Ok (hdr, dec1)
    /\ len (data_fork f) = Hqx.data_len hdr
    /\ len (resource_fork f) = Hqx.rsrc_len hdr
    /\ is_bytes (data_fork f) /\ is_bytes (resource_fork f)
    /\ 1 <= Hqx.name_len hdr <= 63
    /\ len (name (meta f)) <= Hqx.name_len hdr
    /\ Forall (fun c => c <> 0) (name (meta f))
    /\ mac_type (meta f) = Hqx.hdr_mac_type hdr
    /\ mac_creator (meta f) = Hqx.hdr_mac_creator hdr
    /\ Z.land (finder_flags (meta f)) 0x4084 = 0
    /\ (forall i, 0 <= i < 16 -> Z.testbit 0x4084 i = false ->
          Z.testbit (finder_flags (meta f)) i
          = Z.testbit (Hqx.hdr_finder_flags hdr) i).
Proof.
  intros H. unfold Hqx.hqx_decode in H.
  destruct (Hqx.hqx_find_preamble s) as [after |] eqn:Ha; [| discriminate].
  destruct (Hqx.hqx_find_start_colon after) as [payload |] eqn:Hp;
    [| discriminate].
  destruct (Hqx.hqx_parse_header _) as [[hdr d1] | e] eqn:Hh; simpl in H;
    [| discriminate].
  destruct (Hqx.hqx_read_fork d1 _ _) as [[dat d2] | e] eqn:Hd; simpl in H;
    [| discriminate].
  destruct (Hqx.hqx_read_fork d2 _ _) as [[rsr d3] | e] eqn:Hr; simpl in H;
    [| discriminate].
  injection H as <-.
  destruct (hqx_parse_header_ok _ _ _ Hh) as (Hn & Hnm & Hdl & Hrl & _ & _).
  apply hqx_read_fork_ok in Hd; [| lia]. apply hqx_read_fork_ok in Hr; [| lia].
  destruct Hd as [Hd1 Hd2]. destruct Hr as [Hr1 Hr2].
  exists after, payload, hdr, d1. simpl.
  repeat (split; [first [reflexivity | assumption | lia] |]).
  split.
  { etransitivity; [apply len_c_str |].
    etransitivity; [apply len_span_le |]. lia. }
  split; [apply c_strnlen_no_nul |].
  split; [reflexivity |]. split; [reflexivity |].
  split.
  { change 0x4084 with Hqx.FINDER_CLEAR_MASK. apply land_clear_mask. }
  intros i Hi Hm. apply (land_keep_mask _ Hqx.FINDER_CLEAR_MASK i Hi Hm).
Qed.

Lemma X20_witness :
  exists after payload hdr dec1,
    Hqx.hqx_find_preamble Vectors.hqx_hello = Some after
    /\ Hqx.hqx_find_start_colon after = Some payload
    /\ Hqx.hqx_parse_header (Hqx.hqx_decoder_init payload) = Ok (hdr, dec1)
    /\ len (data_fork Vectors.file_hello) = Hqx.data_len hdr
    /\ len (resource_fork Vectors.file_hello) = Hqx.rsrc_len hdr
    /\ is_bytes (data_fork Vectors.file_hello)
    /\ is_bytes (resource_fork Vectors.file_hello)
    /\ 1 <= Hqx.name_len hdr <= 63
    /\ len (name (meta Vectors.file_hello)) <= Hqx.name_len hdr
    /\ Forall (fun c => c <> 0) (name (meta Vectors.file_hello))
    /\ mac_type (meta Vectors.file_hello) = Hqx.hdr_mac_type hdr
    /\ mac_creator (meta Vectors.file_hello) = Hqx.hdr_mac_creator hdr
    /\ Z.land (finder_flags (meta Vectors.file_hello)) 0x4084 = 0
    /\ (forall i, 0 <= i < 16 -> Z.testbit 0x4084 i = false ->
          Z.testbit (finder_flags (meta Vectors.file_hello)) i
          = Z.testbit (Hqx.hdr_finder_flags hdr) i).
Proof.
  apply (X20_hqx_decode_follows_header Vectors.hqx_hello Vectors.file_hello).
  vm_compute. reflexivity.
Defined.

(** ** cpt.c: the run-length stage *)

Section RleFacts.

Context {Src : Type} `{Cpt.ByteSource Src}.

Lemma cp_rle_read_length (room : nat) :
  forall r : Cpt.cp_rle_t,
    (length (fst (Cpt.cp_rle_read room r)) <= room)%nat
    /\ is_bytes (fst (Cpt.cp_rle_read room r)).
Proof.
  induction room as [| room IH]; intros r; [split; [simpl; lia | constructor] |].
  assert (Hemit : forall b r',
             (length (fst (let '(out, r'') := Cpt.cp_rle_read room r' in
                           (u8 b :: out, r'')))
              <= S room)%nat
             /\ is_bytes (fst (let '(out, r'') := Cpt.cp_rle_read room r' in
                               (u8 b :: out, r'')))).
  { intros b r'. destruct (IH r') as [Hl Hb].
    destruct (Cpt.cp_rle_read room r') as [out r'']. simpl in *.
    split; [lia | constructor; [apply u8_range | exact Hb]]. }
  assert (Hstop : forall r' : @Cpt.cp_rle_t Src,
             (length (fst (@nil Z, r')) <= S room)%nat
             /\ is_bytes (fst (@nil Z, r')))
    by (intros r'; simpl; split; [lia | constructor]).
  cbn [Cpt.cp_rle_read].
  destruct (0 <? Cpt.run_left r); [apply Hemit |].
  destruct (Cpt.escape_pending r).
  - change (negb (129 =? 129)) with false. cbv iota.
    cbn [Cpt.src_ctx].
    destruct (Cpt.next (Cpt.src_ctx r)) as [[nxt |] ctx2]; [| apply Hstop].
    destruct (nxt =? 130).
    + destruct (Cpt.next ctx2) as [[count |] ctx3]; [| apply Hstop].
      destruct (count =? 0); apply Hemit.
    + destruct (nxt =? 129); apply Hemit.
  - destruct (Cpt.next (Cpt.src_ctx r)) as [[b |] ctx]; [| apply Hstop].
    destruct (negb (b =? 129)); [apply Hemit |].
    cbn [Cpt.src_ctx].
    destruct (Cpt.next ctx) as [[nxt |] ctx2]; [| apply Hstop].
    destruct (nxt =? 130).
    + destruct (Cpt.next ctx2) as [[count |] ctx3]; [| apply Hstop].
      destruct (count =? 0); apply Hemit.
    + destruct (nxt =? 129); apply Hemit.
Qed.

(** X21 (cpt.c, [cp_rle_read]): the run-length decoder never stores more
    than the [max] bytes it was given room for, and what it stores are
    bytes, whatever the byte supplier delivers. *)
Theorem X21_cp_rle_read_stays_within_max (max : nat) (r : Cpt.cp_rle_t) :
  (length (fst (Cpt.cp_rle_read max r)) <= max)%nat
  /\ is_bytes (fst (Cpt.cp_rle_read max r)).
Proof. apply cp_rle_read_length. Qed.

Lemma cp_rle_read_drain (k : nat) :
  forall (room : nat) (r : Cpt.cp_rle_t),
    Cpt.run_left r = Z.of_nat k ->
    fst (Cpt.cp_rle_read room r)
    = take room
        (replicate k (u8 (Cpt.prev_byte r))
         ++ fst (Cpt.cp_rle_read (room - k)
                   {| Cpt.src_ctx := Cpt.src_ctx r;
                      Cpt.prev_byte := Cpt.prev_byte r;
                      Cpt.run_left := 0;
                      Cpt.escape_pending := Cpt.escape_pending r |})).
Proof.
  induction k as [| k IH]; intros room r Hk.
  - simpl. rewrite Nat.sub_0_r.
    replace {| Cpt.src_ctx := Cpt.src_ctx r; Cpt.prev_byte := Cpt.prev_byte r;
               Cpt.run_left := 0; Cpt.escape_pending := Cpt.escape_pending r |}
      with r by (destruct r; simpl in *; subst; reflexivity).
    symmetry. apply take_ge.
    destruct (cp_rle_read_length room r). lia.
  - destruct room as [| room]; [reflexivity |].
    cbn [Cpt.cp_rle_read].
    destruct (Z.ltb_spec 0 (Cpt.run_left r)) as [_ | ?]; [| lia].
    match goal with
    | |- context [Cpt.cp_rle_read room ?r1] =>
        specialize (IH room r1 ltac:(simpl; lia));
        destruct (Cpt.cp_rle_read room r1) as [out r2]
    end.
    simpl in IH |- *. rewrite IH. reflexivity.
Qed.

End RleFacts.

Lemma fst_emit {S : Type} (c : Z) (x : bytes * S) :
  fst (let '(out, r) := x in (c :: out, r)) = c :: fst x.
Proof. destruct x. reflexivity. Qed.

Lemma u8_byte (b : Z) : 0 <= b < 256 -> u8 b = b.
Proof. intros Hb. unfold u8. apply Z.mod_small. exact Hb. Qed.

Lemma cp_rle_read_literals (src : bytes) :
  is_bytes src -> Forall (fun b => b <> 0x81) src ->
  forall (room : nat) (prev : Z),
    fst (Cpt.cp_rle_read room
           {| Cpt.src_ctx := src; Cpt.prev_byte := prev; Cpt.run_left := 0;
              Cpt.escape_pending := false |})
    = take room src.
Proof.
  intros Hb Hs. revert Hb.
  induction Hs as [| b rest Hne Hrest IH]; intros Hb room prev.
  - destruct room; reflexivity.
  - destruct room as [| room]; [reflexivity |].
    inversion Hb as [| ? ? Hb1 Hb2]; subst.
    cbn [Cpt.cp_rle_read Cpt.run_left Cpt.escape_pending Cpt.src_ctx
         Cpt.prev_byte Cpt.next Cpt.cp_memsrc].
    change (0 <? 0) with false. cbv iota.
    destruct (Z.eqb_spec b 129) as [? | _]; [contradiction |].
    cbn [negb]. rewrite fst_emit, u8_byte by exact Hb1.
    rewrite IH by exact Hb2. reflexivity.
Qed.

(** X22 (cpt.c, [cp_rle_read], [cp_rle_init], [cp_memsrc_next]): what the
    run-length decoder makes of its input, cut to the room given.  Bytes
    other than the escape 0x81 are copied.  A byte [b], then 0x81 0x82 and a
    count [n >= 2], gives [n] copies of [b] in all, and decoding goes on
    with [b] as the byte to repeat; a count of 1 gives two copies; a count
    of 0 gives [b] and the literal pair 0x81 0x82. *)
Theorem X22_cp_rle_literals_and_runs :
  (forall (src : bytes) (room : nat),
      is_bytes src -> Forall (fun b => b <> 0x81) src ->
      fst (Cpt.cp_rle_read room (Cpt.cp_rle_init src)) = take room src)
  /\ (forall (b n : Z) (rest : bytes) (room : nat),
        0 <= b < 256 -> b <> 0x81 -> 2 <= n ->
        fst (Cpt.cp_rle_read room
               (Cpt.cp_rle_init (b :: 0x81 :: 0x82 :: n :: rest)))
        = take room
            (replicate (Z.to_nat n) b
             ++ fst (Cpt.cp_rle_read (room - Z.to_nat n)
                       {| Cpt.src_ctx := rest; Cpt.prev_byte := b;
                          Cpt.run_left := 0;
                          Cpt.escape_pending := false |})))
  /\ (forall (b : Z) (rest : bytes) (room : nat),
        0 <= b < 256 -> b <> 0x81 ->
        fst (Cpt.cp_rle_read room
               (Cpt.cp_rle_init (b :: 0x81 :: 0x82 :: 1 :: rest)))
        = take room
            ([b; b]
             ++ fst (Cpt.cp_rle_read (room - 2)
                       {| Cpt.src_ctx := rest; Cpt.prev_byte := b;
                          Cpt.run_left := 0;
                          Cpt.escape_pending := false |})))
  /\ (forall (b : Z) (rest : bytes) (room : nat),
        0 <= b < 256 -> b <> 0x81 ->
        fst (Cpt.cp_rle_read room
               (Cpt.cp_rle_init (b :: 0x81 :: 0x82 :: 0 :: rest)))
        = take room
            ([b; 0x81; 0x82]
             ++ fst (Cpt.cp_rle_read (room - 3)
                       {| Cpt.src_ctx := rest; Cpt.prev_byte := 0x82;
                          Cpt.run_left := 0;
                          Cpt.escape_pending := false |}))).
Proof.
  assert (Hstart : forall (b cnt : Z) (rest : bytes) (room : nat),
             0 <= b < 256 -> b <> 0x81 ->
             fst (Cpt.cp_rle_read (S (S room))
                    (Cpt.cp_rle_init (b :: 0x81 :: 0x82 :: cnt :: rest)))
             = b :: (if cnt =? 0 then 0x81 else b)
                 :: fst (Cpt.cp_rle_read room
                           (if cnt =? 0
                            then {| Cpt.src_ctx := rest; Cpt.prev_byte := 0x82;
                                    Cpt.run_left := 1;
                                    Cpt.escape_pending := false |}
                            else {| Cpt.src_ctx := rest; Cpt.prev_byte := b;
                                    Cpt.run_left :=
                                      if 2 <=? cnt then cnt - 2 else 0;
                                    Cpt.escape_pending := false |}))).
  { intros b cnt rest room Hb Hne. unfold Cpt.cp_rle_init.
    cbn [Cpt.cp_rle_read Cpt.run_left Cpt.escape_pending Cpt.src_ctx
         Cpt.prev_byte Cpt.next Cpt.cp_memsrc].
    change (0 <? 0) with false. cbv iota.
    destruct (Z.eqb_spec b 129) as [? | _]; [contradiction |].
    cbn [negb]. rewrite fst_emit, u8_byte by exact Hb.
    cbn [Cpt.run_left Cpt.escape_pending Cpt.src_ctx Cpt.prev_byte].
    change (0 <? 0) with false. cbv iota.
    change (negb (129 =? 129)) with false. cbv iota.
    change (130 =? 130) with true. cbv iota.
    destruct (cnt =? 0).
    - rewrite fst_emit. reflexivity.
    - rewrite fst_emit, ?u8_byte by exact Hb. reflexivity. }
  assert (Hone : forall (b cnt : Z) (rest : bytes),
             0 <= b < 256 -> b <> 0x81 ->
             fst (Cpt.cp_rle_read 1
                    (Cpt.cp_rle_init (b :: 0x81 :: 0x82 :: cnt :: rest)))
             = [b]).
  { intros b cnt rest Hb Hne. unfold Cpt.cp_rle_init.
    cbn [Cpt.cp_rle_read Cpt.run_left Cpt.escape_pending Cpt.src_ctx
         Cpt.prev_byte Cpt.next Cpt.cp_memsrc].
    change (0 <? 0) with false. cbv iota.
    destruct (Z.eqb_spec b 129) as [? | _]; [contradiction |].
    cbn [negb fst]. rewrite u8_byte by exact Hb. reflexivity. }
  split; [| split; [| split]].
  - intros src room Hb Hs. apply cp_rle_read_literals; assumption.
  - intros b n rest room Hb Hne Hn.
    destruct room as [| [| room]].
    + reflexivity.
    + rewrite Hone by assumption.
      replace (Z.to_nat n) with (S (Z.to_nat (n - 1))) by lia. reflexivity.
    + rewrite Hstart by assumption.
      destruct (Z.eqb_spec n 0) as [? | _]; [lia |].
      destruct (Z.leb_spec 2 n) as [_ | ?]; [| lia].
      rewrite (cp_rle_read_drain (Z.to_nat (n - 2)))
        by (cbn [Cpt.run_left]; lia).
      cbn [Cpt.src_ctx Cpt.prev_byte Cpt.escape_pending].
      rewrite u8_byte by exact Hb.
      replace (Z.to_nat n) with (S (S (Z.to_nat (n - 2)))) by lia.
      cbn [replicate app take].
      replace (S (S room) - S (S (Z.to_nat (n - 2))))%nat
        with (room - Z.to_nat (n - 2))%nat by lia.
      reflexivity.
  - intros b rest room Hb Hne.
    destruct room as [| [| room]].
    + reflexivity.
    + rewrite Hone by assumption. reflexivity.
    + rewrite Hstart by assumption.
      change (1 =? 0) with false. cbv iota.
      change (2 <=? 1) with false. cbv iota.
      cbn [app take]. replace (S (S room) - 2)%nat with room by lia.
      do 2 f_equal. symmetry. apply take_ge.
      match goal with
      | |- context [Cpt.cp_rle_read room ?r] =>
          destruct (cp_rle_read_length room r)
      end. lia.
  - intros b rest room Hb Hne.
    destruct room as [| [| room]].
    + reflexivity.
    + rewrite Hone by assumption. reflexivity.
    + rewrite Hstart by assumption.
      change (0 =? 0) with true. cbv iota.
      rewrite (cp_rle_read_drain 1) by reflexivity.
      cbn [Cpt.src_ctx Cpt.prev_byte Cpt.escape_pending replicate app take].
      change (u8 130) with 130.
      destruct room as [| room]; [reflexivity |].
      cbn [take]. replace (S (S (S room)) - 3)%nat with (S room - 1)%nat by lia.
      reflexivity.
Qed.

Lemma X22_witness :
  fst (Cpt.cp_rle_read 9 (Cpt.cp_rle_init [0x41; 0x42])) = take 9 [0x41; 0x42]
  /\ fst (Cpt.cp_rle_read 9
            (Cpt.cp_rle_init (0x41 :: 0x81 :: 0x82 :: 4 :: [0x42])))
     = take 9
         (replicate (Z.to_nat 4) 0x41
          ++ fst (Cpt.cp_rle_read (9 - Z.to_nat 4)
                    {| Cpt.src_ctx := [0x42]; Cpt.prev_byte := 0x41;
                       Cpt.run_left := 0; Cpt.escape_pending := false |}))
  /\ fst (Cpt.cp_rle_read 9
            (Cpt.cp_rle_init (0x41 :: 0x81 :: 0x82 :: 1 :: [0x42])))
     = take 9
         ([0x41; 0x41]
          ++ fst (Cpt.cp_rle_read (9 - 2)
                    {| Cpt.src_ctx := [0x42]; Cpt.prev_byte := 0x41;
                       Cpt.run_left := 0; Cpt.escape_pending := false |}))
  /\ fst (Cpt.cp_rle_read 9
            (Cpt.cp_rle_init (0x41 :: 0x81 :: 0x82 :: 0 :: [0x42])))
     = take 9
         ([0x41; 0x81; 0x82]
          ++ fst (Cpt.cp_rle_read (9 - 3)
                    {| Cpt.src_ctx := [0x42]; Cpt.prev_byte := 0x82;
                       Cpt.run_left := 0; Cpt.escape_pending := false |})).
Proof.
  destruct X22_cp_rle_literals_and_runs as (H1 & H2 & H3 & H4).
  split; [| split; [| split]].
  - apply H1.
    + apply is_bytes_forallb. reflexivity.
    + repeat constructor; discriminate.
  - apply H2; [lia | discriminate | lia].
  - apply H3; [lia | discriminate].
  - apply H4; [lia | discriminate].
Defined.

(** ** peeler.c *)

Section DriverMore.

Variable g_formats : list Peeler.peel_format_t.

Abbreviation detect_format := (Peeler.detect_format g_formats).
Abbreviation wrapper_in := (Peeler.wrapper_in g_formats).
Abbreviation peel_depth_loop := (Peeler.peel_depth_loop g_formats).
Abbreviation recursive_peel_loop := (Peeler.recursive_peel_loop g_formats).
Abbreviation recursive_peel_files := (Peeler.recursive_peel_files g_formats).
Abbreviation peel_depth := (Peeler.peel_depth g_formats).
Abbreviation peel := (Peeler.peel g_formats).
Abbreviation unwrapped := (Reach.unwrapped g_formats).

Lemma peel_unfold (s : bytes) :
  peel s
  = match peel_depth_loop 32 s with
    | None => None
    | Some (Peeler.LoopFailed e) => Some (Err e)
    | Some (Peeler.LoopArchive files) =>
        recursive_peel_files (peel_depth 32) files 0
    | Some (Peeler.LoopDone cur) => Some (Ok (Peeler.wrap_single_file cur))
    end.
Proof.
  unfold Peeler.peel.
  change (Z.to_nat (Peeler.MAX_PEEL_DEPTH + 1)) with 33%nat.
  rewrite peel_depth_S. reflexivity.
Qed.

(** X23 (peeler.c, [peel_depth], [recursive_peel_files]): [peel] reports
    an error only for the input itself.  An error it returns is the error
    of the handler of the format detected on the input or on what is left of
    it after fewer than 32 wrapper layers; nothing that happens while the
    files of an archive are peeled again can make [peel] fail. *)
Theorem X23_peel_errors_come_from_the_outer_layers
    (s : bytes) (e : peel_err_t) :
  peel s = Some (Err e) ->
  exists k cur fmt,
    (k < 32)%nat /\ unwrapped k s cur
    /\ detect_format cur = Some fmt
    /\ match Peeler.kind fmt with
       | Peeler.PEEL_FMT_WRAPPER peel_wrapper =>
           peel_wrapper cur = Some (Err e)
       | Peeler.PEEL_FMT_ARCHIVE peel_archive =>
           peel_archive cur = Some (Err e)
       end.
Proof.
  intros H. rewrite peel_unfold in H.
  pose proof (peel_depth_loop_layers g_formats 32 s) as Hl.
  destruct (peel_depth_loop 32 s) as [[e' | files | cur] |].
  - injection H as <-. exact Hl.
  - exfalso. revert H. unfold Peeler.recursive_peel_files.
    destruct files as [| f files]; [discriminate |].
    apply recursive_peel_loop_no_error.
  - discriminate.
  - discriminate.
Qed.





End DriverMore.

(** X26 (peeler.c, [peel_detect], [detect_format], [peel]): an input that
    none of the four detectors accepts is not an error.  [peel_detect]
    names no format for it, and [peel] returns it as the data fork of a
    single file without resource fork or metadata. *)
Theorem X26_unrecognised_input_is_returned_as_one_file
    (s13 s15 : bytes -> Z -> Z -> result bytes)
    (cpt : bytes -> option (result peel_file_list_t)) (s : bytes) :
  (Peeler.peel_detect (Peeler.g_formats s13 s15 cpt) s = None
   <-> Hqx.hqx_detect s = false /\ Bin.bin_detect s = false
       /\ Sit.sit_detect s = false /\ Cpt.cpt_detect s = false)
  /\ (Peeler.peel_detect (Peeler.g_formats s13 s15 cpt) s = None ->
      Peeler.peel (Peeler.g_formats s13 s15 cpt) s
      = Some (Ok [ {| meta := {| name := []; mac_type := 0; mac_creator := 0;
                                 finder_flags := 0 |};
                      data_fork := s; resource_fork := [] |} ])).
Proof.
  split.
  - unfold Peeler.peel_detect, Peeler.detect_format, Peeler.g_formats.
    cbn [List.find Peeler.detect].
    destruct (Hqx.hqx_detect s); [split; [discriminate | intros [? _]; discriminate] |].
    destruct (Bin.bin_detect s);
      [split; [discriminate | intros (_ & ? & _); discriminate] |].
    destruct (Sit.sit_detect s);
      [split; [discriminate | intros (_ & _ & ? & _); discriminate] |].
    destruct (Cpt.cpt_detect s);
      [split; [discriminate | intros (_ & _ & _ & ?); discriminate] |].
    split; [intros _; repeat split | reflexivity].
  - intros Hnone. unfold Peeler.peel_detect in Hnone.
    destruct (Peeler.detect_format _ s) eqn:Hd; [discriminate |].
    rewrite peel_unfold.
    change 32%nat with (S 31). cbn [Peeler.peel_depth_loop].
    rewrite Hd. reflexivity.
Qed.

Lemma X26_witness :
  Peeler.peel Vectors.g_formats (lit "plain text")
  = Some (Ok [ {| meta := {| name := []; mac_type := 0; mac_creator := 0;
                             finder_flags := 0 |};
                  data_fork := lit "plain text"; resource_fork := [] |} ]).
Proof.
  destruct (X26_unrecognised_input_is_returned_as_one_file
              Vectors.no_fork_engine Vectors.no_fork_engine
              Vectors.no_cpt (lit "plain text")) as [_ H].
  apply H. vm_compute. reflexivity.
Defined.

Lemma X23_witness :
  exists k cur fmt,
    (k < 32)%nat /\ Reach.unwrapped Vectors.g_formats k Vectors.broken_hqx cur
    /\ Peeler.detect_format Vectors.g_formats cur = Some fmt
    /\ match Peeler.kind fmt with
       | Peeler.PEEL_FMT_WRAPPER peel_wrapper =>
           peel_wrapper cur = Some (Err HqxNoStartColon)
       | Peeler.PEEL_FMT_ARCHIVE peel_archive =>
           peel_archive cur = Some (Err HqxNoStartColon)
       end.
Proof.
  apply X23_peel_errors_come_from_the_outer_layers.
  vm_compute. reflexivity.
Defined.



(** ** cpt.c: fork streams *)

Section ForkFacts.

Context {Src : Type} `{Cpt.ByteSource Src}.

Lemma cp_rle_read_turn (room : nat) (r : Cpt.cp_rle_t) :
  Cpt.cp_rle_read (S room) r
  = match Reach.cp_rle_turn r with
    | inl r' => ([], r')
    | inr (b, r') =>
        let '(out, r'') := Cpt.cp_rle_read room r' in (u8 b :: out, r'')
    end.
Proof.
  unfold Reach.cp_rle_turn. cbn [Cpt.cp_rle_read].
  destruct (0 <? Cpt.run_left r); [reflexivity |].
  destruct (Cpt.escape_pending r).
  - change (negb (129 =? 129)) with false. cbv iota. cbn [Cpt.src_ctx].
    destruct (Cpt.next (Cpt.src_ctx r)) as [[nxt |] ctx2]; [| reflexivity].
    destruct (nxt =? 130).
    + destruct (Cpt.next ctx2) as [[count |] ctx3]; [| reflexivity].
      destruct (count =? 0); reflexivity.
    + destruct (nxt =? 129); reflexivity.
  - destruct (Cpt.next (Cpt.src_ctx r)) as [[b |] ctx]; [| reflexivity].
    destruct (negb (b =? 129)); [reflexivity |]. cbn [Cpt.src_ctx].
    destruct (Cpt.next ctx) as [[nxt |] ctx2]; [| reflexivity].
    destruct (nxt =? 130).
    + destruct (Cpt.next ctx2) as [[count |] ctx3]; [| reflexivity].
      destruct (count =? 0); reflexivity.
    + destruct (nxt =? 129); reflexivity.
Qed.

Lemma cp_rle_read_empty (a : nat) (r r1 : Cpt.cp_rle_t) :
  Cpt.cp_rle_read (S a) r = ([], r1) -> Reach.cp_rle_turn r = inl r1.
Proof.
  rewrite cp_rle_read_turn.
  destruct (Reach.cp_rle_turn r) as [r' | [c r']].
  - intros Heq. injection Heq as ->. reflexivity.
  - destruct (Cpt.cp_rle_read a r'). discriminate.
Qed.

(** A read that fills its room can be cut in two. *)
Lemma cp_rle_read_split_full (a : nat) :
  forall (b : nat) (r : Cpt.cp_rle_t),
    length (fst (Cpt.cp_rle_read a r)) = a ->
    Cpt.cp_rle_read (a + b) r
    = let '(o1, r1) := Cpt.cp_rle_read a r in
      let '(o2, r2) := Cpt.cp_rle_read b r1 in
      (o1 ++ o2, r2).
Proof.
  induction a as [| a IH]; intros b r Hfull.
  - simpl. destruct (Cpt.cp_rle_read b r). reflexivity.
  - change (S a + b)%nat with (S (a + b)).
    rewrite cp_rle_read_turn in Hfull. rewrite !cp_rle_read_turn.
    destruct (Reach.cp_rle_turn r) as [r' | [c r']] eqn:Ht.
    + simpl in Hfull. discriminate.
    + specialize (IH b r'). rewrite IH.
      * destruct (Cpt.cp_rle_read a r') as [o1 r1].
        destruct (Cpt.cp_rle_read b r1) as [o2 r2]. reflexivity.
      * destruct (Cpt.cp_rle_read a r') as [o1 r1]. simpl in *. lia.
Qed.

(** A read that ends early ended at a failed fetch: more room changes
    nothing. *)
Lemma cp_rle_read_split_short (a : nat) :
  forall (b : nat) (r : Cpt.cp_rle_t),
    (length (fst (Cpt.cp_rle_read a r)) < a)%nat ->
    Cpt.cp_rle_read (a + b) r = Cpt.cp_rle_read a r.
Proof.
  induction a as [| a IH]; intros b r Hlt; [simpl in Hlt; lia |].
  change (S a + b)%nat with (S (a + b)).
  rewrite cp_rle_read_turn in Hlt. rewrite !cp_rle_read_turn.
  destruct (Reach.cp_rle_turn r) as [r' | [c r']] eqn:Ht; [reflexivity |].
  rewrite IH; [reflexivity |].
  destruct (Cpt.cp_rle_read a r') as [o1 r1]. simpl in *. lia.
Qed.

(** The loop of [cp_decompress_fork] on any byte supplier: it ends, what
    it collects are at most [remain] bytes, and they begin with what one read
    of [remain] bytes yields. *)
Lemma cp_fork_drain_ends (fuel : nat) :
  forall (f : Cpt.cp_fork_t) (out : bytes),
    0 <= Cpt.remain f -> Cpt.remain f + 1 <= Z.of_nat fuel ->
    exists more : bytes,
      Cpt.cp_fork_drain fuel f out = Some (out ++ more)
      /\ len more <= Cpt.remain f
      /\ is_bytes more
      /\ (Cpt.done f = false ->
          exists tail : bytes,
            more = fst (Cpt.cp_rle_read (Z.to_nat (Cpt.remain f))
                          (Cpt.rle f)) ++ tail).
Proof.
  induction fuel as [| fuel IH]; intros f out Hnn Hfuel; [lia |].
  cbn [Cpt.cp_fork_drain]. unfold Cpt.cp_fork_read.
  destruct (Cpt.done f) eqn:Hd.
  { cbn [orb]. change (len [] <=? 0) with true. cbv iota.
    exists []. rewrite app_nil_r.
    repeat split; [unfold len; simpl; lia | constructor | discriminate]. }
  cbn [orb].
  destruct (Z.eqb_spec (Cpt.remain f) 0) as [H0 | Hnz].
  { change (len [] <=? 0) with true. cbv iota.
    exists []. rewrite app_nil_r.
    repeat split; [unfold len; simpl; lia | constructor |].
    intros _. exists []. rewrite H0. reflexivity. }
  set (max := if Cpt.remain f <? 8192 then Cpt.remain f else 8192).
  assert (Hmax : 1 <= max <= Cpt.remain f).
  { subst max. destruct (Z.ltb_spec (Cpt.remain f) 8192); lia. }
  pose proof (cp_rle_read_split_full (Z.to_nat max)
                (Z.to_nat (Cpt.remain f - max)) (Cpt.rle f)) as Hfull.
  pose proof (cp_rle_read_split_short (Z.to_nat max)
                (Z.to_nat (Cpt.remain f - max)) (Cpt.rle f)) as Hshort.
  replace (Z.to_nat max + Z.to_nat (Cpt.remain f - max))%nat
    with (Z.to_nat (Cpt.remain f)) in Hfull, Hshort by lia.
  destruct (cp_rle_read_length (Z.to_nat max) (Cpt.rle f)) as [Hlen Hbytes].
  destruct (Cpt.cp_rle_read (Z.to_nat max) (Cpt.rle f)) as [o r1] eqn:Hr.
  cbn [fst snd] in Hfull, Hshort, Hlen, Hbytes.
  destruct (Z.leb_spec (len o) 0) as [Hz | Hpos].
  - change (len [] <=? 0) with true. cbv iota.
    assert (Ho : o = [])
      by (destruct o; [reflexivity | unfold len in Hz; simpl in Hz; lia]).
    subst o. exists []. rewrite app_nil_r.
    repeat split; [unfold len; simpl; lia | constructor |].
    intros _. exists []. rewrite Hshort by (simpl; lia). reflexivity.
  - destruct (Z.leb_spec (len o) 0) as [? | _]; [lia |].
    match goal with
    | |- context [Cpt.cp_fork_drain fuel ?f1 (out ++ o)] =>
        destruct (IH f1 (out ++ o)) as (more & Hdrain & Hmlen & Hmb & Hpre)
    end; cbn [Cpt.remain Cpt.rle Cpt.done] in *.
    + unfold len in *. lia.
    + unfold len in *. lia.
    + exists (o ++ more). rewrite Hdrain, app_assoc.
      split; [reflexivity |]. split; [rewrite len_app; lia |].
      split; [apply Forall_app; split; assumption |].
      intros _.
      destruct (Nat.eq_dec (length o) (Z.to_nat max)) as [Hall | Hpart].
      * rewrite (Hfull Hall).
        replace (Z.to_nat (Cpt.remain f - max))
          with (Z.to_nat (Cpt.remain f - len o)) by (unfold len; lia).
        revert Hpre.
        destruct (Cpt.remain f - len o =? 0) eqn:Hleft; intros Hpre.
        -- apply Z.eqb_eq in Hleft. exists more. rewrite Hleft.
           change (Z.to_nat 0) with 0%nat. cbn [Cpt.cp_rle_read fst].
           rewrite app_nil_r. reflexivity.
        -- destruct (Hpre eq_refl) as [tail Htail]. exists tail.
           rewrite Htail.
           destruct (Cpt.cp_rle_read (Z.to_nat (Cpt.remain f - len o)) r1)
             as [o2 r2].
           cbn [fst]. rewrite app_assoc. reflexivity.
      * exists more. rewrite Hshort by lia. reflexivity.
Qed.

(** *** Suppliers that stay at their end

    For a supplier that, once it had no byte to give, has none at any later
    call and is not changed by the call (the memory source is one), the
    chunks of the loop add up to one read. *)
Section AtEnd.

Hypothesis next_at_end :
  forall c : Src,
    fst (Cpt.next c) = None ->
    Cpt.next (snd (Cpt.next c)) = (None, snd (Cpt.next c)).

Lemma cp_rle_turn_stop (r r' : Cpt.cp_rle_t) :
  Reach.cp_rle_turn r = inl r' -> Reach.cp_rle_turn r' = inl r'.
Proof.
  assert (Hend : forall (c c' : Src) (p : Z) (n : Z),
             (0 <? n) = false -> Cpt.next c = (None, c') ->
             Reach.cp_rle_turn
               {| Cpt.src_ctx := c'; Cpt.prev_byte := p; Cpt.run_left := n;
                  Cpt.escape_pending := false |}
             = inl {| Cpt.src_ctx := c'; Cpt.prev_byte := p;
                      Cpt.run_left := n; Cpt.escape_pending := false |}).
  { intros c c' p n Hn Hc.
    pose proof (next_at_end c) as Hs. rewrite Hc in Hs. cbn [fst snd] in Hs.
    unfold Reach.cp_rle_turn.
    cbn [Cpt.run_left Cpt.escape_pending Cpt.src_ctx Cpt.prev_byte].
    rewrite Hn, (Hs eq_refl). reflexivity. }
  unfold Reach.cp_rle_turn at 1.
  destruct (0 <? Cpt.run_left r) eqn:Hrun; [discriminate |].
  destruct (Cpt.escape_pending r) eqn:Hpend.
  - change (negb (129 =? 129)) with false. cbv iota. cbn [Cpt.src_ctx].
    destruct (Cpt.next (Cpt.src_ctx r)) as [[nxt |] ctx2] eqn:Hn.
    + destruct (nxt =? 130).
      * destruct (Cpt.next ctx2) as [[count |] ctx3] eqn:Hc.
        -- destruct (count =? 0); discriminate.
        -- intros Heq. injection Heq as <-.
           cbn [Cpt.run_left Cpt.escape_pending Cpt.prev_byte].
           apply (Hend ctx2); assumption.
      * destruct (nxt =? 129); discriminate.
    + intros Heq. injection Heq as <-.
      cbn [Cpt.run_left Cpt.escape_pending Cpt.prev_byte].
      apply (Hend (Cpt.src_ctx r)); assumption.
  - destruct (Cpt.next (Cpt.src_ctx r)) as [[b |] ctx] eqn:Hn.
    + destruct (negb (b =? 129)); [discriminate |].
      cbn [Cpt.src_ctx Cpt.run_left Cpt.escape_pending Cpt.prev_byte].
      destruct (Cpt.next ctx) as [[nxt |] ctx2] eqn:Hn2.
      * destruct (nxt =? 130).
        -- destruct (Cpt.next ctx2) as [[count |] ctx3] eqn:Hc.
           ++ destruct (count =? 0); discriminate.
           ++ intros Heq. injection Heq as <-. rewrite ?Hpend.
              apply (Hend ctx2); assumption.
        -- destruct (nxt =? 129); discriminate.
      * intros Heq. injection Heq as <-. rewrite ?Hpend.
        apply (Hend ctx); assumption.
    + intros Heq. injection Heq as <-. rewrite ?Hpend.
      apply (Hend (Cpt.src_ctx r)); assumption.
Qed.

Lemma cp_rle_read_stuck (r : Cpt.cp_rle_t) :
  Reach.cp_rle_turn r = inl r -> forall n, Cpt.cp_rle_read n r = ([], r).
Proof.
  intros Hs [| n]; [reflexivity |]. rewrite cp_rle_read_turn, Hs. reflexivity.
Qed.

Lemma cp_rle_read_short (a : nat) :
  forall r : Cpt.cp_rle_t,
    (length (fst (Cpt.cp_rle_read a r)) < a)%nat ->
    Reach.cp_rle_turn (snd (Cpt.cp_rle_read a r))
    = inl (snd (Cpt.cp_rle_read a r)).
Proof.
  induction a as [| a IH]; intros r Hlt; [simpl in Hlt; lia |].
  rewrite cp_rle_read_turn in Hlt |- *.
  destruct (Reach.cp_rle_turn r) as [r' | [b r']] eqn:Ht.
  - simpl. apply (cp_rle_turn_stop r r' Ht).
  - specialize (IH r').
    destruct (Cpt.cp_rle_read a r') as [out r'']. simpl in *.
    apply IH. lia.
Qed.

Lemma cp_fork_drain_reads (fuel : nat) :
  forall (f : Cpt.cp_fork_t) (out : bytes),
    0 <= Cpt.remain f -> Cpt.remain f + 1 <= Z.of_nat fuel ->
    (Cpt.done f = true ->
     Cpt.remain f = 0
     \/ Reach.cp_rle_turn (Cpt.rle f) = inl (Cpt.rle f)) ->
    Cpt.cp_fork_drain fuel f out
    = Some (out ++ fst (Cpt.cp_rle_read (Z.to_nat (Cpt.remain f))
                          (Cpt.rle f))).
Proof.
  induction fuel as [| fuel IH]; intros f out Hnn Hfuel Hdone; [lia |].
  cbn [Cpt.cp_fork_drain]. unfold Cpt.cp_fork_read.
  destruct (Cpt.done f) eqn:Hd.
  { cbn [orb]. change (len [] <=? 0) with true. cbv iota.
    destruct (Hdone eq_refl) as [H0 | Hs].
    - rewrite H0. simpl. rewrite app_nil_r. reflexivity.
    - rewrite (cp_rle_read_stuck _ Hs). simpl. rewrite app_nil_r.
      reflexivity. }
  cbn [orb].
  destruct (Z.eqb_spec (Cpt.remain f) 0) as [H0 | Hnz].
  { change (len [] <=? 0) with true. cbv iota.
    rewrite H0. simpl. rewrite app_nil_r. reflexivity. }
  set (max := if Cpt.remain f <? 8192 then Cpt.remain f else 8192).
  assert (Hmax : 1 <= max <= Cpt.remain f).
  { subst max. destruct (Z.ltb_spec (Cpt.remain f) 8192); lia. }
  pose proof (cp_rle_read_split_full (Z.to_nat max)
                (Z.to_nat (Cpt.remain f - max)) (Cpt.rle f)) as Hfull.
  pose proof (cp_rle_read_split_short (Z.to_nat max)
                (Z.to_nat (Cpt.remain f - max)) (Cpt.rle f)) as Hcut.
  replace (Z.to_nat max + Z.to_nat (Cpt.remain f - max))%nat
    with (Z.to_nat (Cpt.remain f)) in Hfull, Hcut by lia.
  pose proof (cp_rle_read_short (Z.to_nat max) (Cpt.rle f)) as Hshort.
  destruct (cp_rle_read_length (Z.to_nat max) (Cpt.rle f)) as [Hlen _].
  destruct (Cpt.cp_rle_read (Z.to_nat max) (Cpt.rle f)) as [o r1] eqn:Hr.
  cbn [fst snd] in Hshort, Hlen, Hfull, Hcut.
  destruct (Z.leb_spec (len o) 0) as [Hz | Hpos].
  - change (len [] <=? 0) with true. cbv iota.
    assert (Ho : o = [])
      by (destruct o; [reflexivity | unfold len in Hz; simpl in Hz; lia]).
    subst o. rewrite Hcut by (simpl; lia). cbn [fst].
    rewrite app_nil_r. reflexivity.
  - destruct (Z.leb_spec (len o) 0) as [? | _]; [lia |].
    rewrite IH; cbn [Cpt.remain Cpt.rle Cpt.done].
    + rewrite <- app_assoc. do 2 f_equal.
      destruct (Nat.eq_dec (length o) (Z.to_nat max)) as [Hall | Hpart].
      * rewrite (Hfull Hall).
        replace (Z.to_nat (Cpt.remain f - len o))
          with (Z.to_nat (Cpt.remain f - max)) by (unfold len; lia).
        destruct (Cpt.cp_rle_read _ r1). reflexivity.
      * rewrite Hcut by lia.
        rewrite (cp_rle_read_stuck r1) by (apply Hshort; lia).
        cbn [fst]. rewrite app_nil_r. reflexivity.
    + unfold len in *. lia.
    + unfold len in *. lia.
    + intros Hd1. left.
      destruct (Z.eqb_spec (Cpt.remain f - len o) 0) as [? | ?];
        [assumption | discriminate].
Qed.

End AtEnd.

End ForkFacts.

Lemma cp_memsrc_at_end (c : bytes) :
  fst (Cpt.next c) = None ->
  Cpt.next (snd (Cpt.next c)) = (None, snd (Cpt.next c)).
Proof. destruct c; [reflexivity | discriminate]. Qed.

Lemma cp_fork_drain_memsrc (m : bytes) (uncomp_len : Z) :
  0 <= uncomp_len ->
  Cpt.cp_fork_drain (Z.to_nat (uncomp_len + 1))
    (Cpt.cp_fork_init m uncomp_len) []
  = Some (fst (Cpt.cp_rle_read (Z.to_nat uncomp_len) (Cpt.cp_rle_init m))).
Proof.
  intros Hn.
  rewrite (cp_fork_drain_reads cp_memsrc_at_end);
    cbn [Cpt.cp_fork_init Cpt.remain Cpt.rle Cpt.done].
  - reflexivity.
  - exact Hn.
  - lia.
  - intros Hd. left. destruct (Z.eqb_spec uncomp_len 0); [assumption |].
    discriminate.
Qed.

Lemma cp_fork_drain_init {Src : Type} `{Cpt.ByteSource Src}
    (ctx : Src) (uncomp_len : Z) :
  0 <= uncomp_len ->
  exists tail : bytes,
    Cpt.cp_fork_drain (Z.to_nat (uncomp_len + 1))
      (Cpt.cp_fork_init ctx uncomp_len) []
    = Some (fst (Cpt.cp_rle_read (Z.to_nat uncomp_len) (Cpt.cp_rle_init ctx))
            ++ tail)
    /\ len (fst (Cpt.cp_rle_read (Z.to_nat uncomp_len) (Cpt.cp_rle_init ctx))
            ++ tail) <= uncomp_len
    /\ is_bytes (fst (Cpt.cp_rle_read (Z.to_nat uncomp_len)
                        (Cpt.cp_rle_init ctx)) ++ tail).
Proof.
  intros Hn.
  destruct (cp_fork_drain_ends (Z.to_nat (uncomp_len + 1))
              (Cpt.cp_fork_init ctx uncomp_len) [])
    as (more & Hdrain & Hlen & Hb & Hpre);
    cbn [Cpt.cp_fork_init Cpt.remain Cpt.rle Cpt.done] in *; [lia | lia |].
  destruct (Z.eqb_spec uncomp_len 0) as [H0 | Hnz].
  - exists more. subst uncomp_len.
    change (Z.to_nat 0) with 0%nat. cbn [Cpt.cp_rle_read fst app].
    repeat split; assumption.
  - destruct (Hpre eq_refl) as [tail Htail]. exists tail.
    rewrite <- Htail. repeat split; assumption.
Qed.

(** X27 (cpt.c, [cp_decompress_fork], [cp_fork_read], [cp_fork_init_rle],
    [cp_fork_init_lzh], [cp_memsrc_init]): the loop of [cp_decompress_fork]
    ends within [uncomp_len + 1] calls of [cp_fork_read], and a fork is
    bytes, never more than [uncomp_len] of them.  A fork without LZH is
    exactly what the run-length decoder yields in one read of [uncomp_len]
    bytes from the memory source: fetching it in chunks of 8192 bytes changes
    nothing.  A fork with LZH begins with what one read yields from the LZH
    decoder; the loop asks again after a read that came back short, so
    bytes that the decoder then still gives follow. *)
Theorem X27_cp_decompress_fork_reads_in_chunks
    {Lzh : Type} `{Cpt.ByteSource Lzh} (cp_lzh_init : bytes -> Lzh)
    (archive : bytes) (comp_offset comp_len uncomp_len : Z) :
  0 <= uncomp_len ->
  let m := Cpt.cp_memsrc_init archive comp_offset comp_len in
  let fork :=
    Cpt.cp_decompress_fork cp_lzh_init archive comp_offset comp_len
      uncomp_len in
  Cpt.cp_fork_drain (Z.to_nat (uncomp_len + 1))
    (Cpt.cp_fork_init m uncomp_len) [] = Some (fork false)
  /\ Cpt.cp_fork_drain (Z.to_nat (uncomp_len + 1))
       (Cpt.cp_fork_init (cp_lzh_init m) uncomp_len) [] = Some (fork true)
  /\ (forall use_lzh, len (fork use_lzh) <= uncomp_len
                      /\ is_bytes (fork use_lzh))
  /\ fork false
     = fst (Cpt.cp_rle_read (Z.to_nat uncomp_len) (Cpt.cp_rle_init m))
  /\ (exists tail : bytes,
        fork true
        = fst (Cpt.cp_rle_read (Z.to_nat uncomp_len)
                 (Cpt.cp_rle_init (cp_lzh_init m))) ++ tail).
Proof.
  intros Hn m fork.
  pose proof (cp_fork_drain_memsrc m uncomp_len Hn) as Hmem.
  destruct (cp_fork_drain_init (cp_lzh_init m) uncomp_len Hn)
    as (tail & Hlzh & Hlen & Hb).
  assert (Hfalse : fork false
                   = fst (Cpt.cp_rle_read (Z.to_nat uncomp_len)
                            (Cpt.cp_rle_init m))).
  { subst fork. unfold Cpt.cp_decompress_fork. cbv iota. fold m.
    rewrite Hmem. reflexivity. }
  assert (Htrue : fork true
                  = fst (Cpt.cp_rle_read (Z.to_nat uncomp_len)
                           (Cpt.cp_rle_init (cp_lzh_init m))) ++ tail).
  { subst fork. unfold Cpt.cp_decompress_fork. cbv iota. fold m.
    rewrite Hlzh. reflexivity. }
  split; [rewrite Hfalse; exact Hmem |].
  split; [rewrite Htrue; exact Hlzh |].
  split.
  - intros [|]; [rewrite Htrue; split; assumption |].
    rewrite Hfalse.
    destruct (cp_rle_read_length (Z.to_nat uncomp_len) (Cpt.cp_rle_init m))
      as [Hl Hbm].
    split; [unfold len; lia | exact Hbm].
  - split; [exact Hfalse |]. exists tail. exact Htrue.
Qed.

Lemma X27_witness :
  Cpt.cp_decompress_fork Vectors.lzh_with_gaps [0x41; 0x42; 0x43] 0 3 3 false
  = fst (Cpt.cp_rle_read (Z.to_nat 3)
           (Cpt.cp_rle_init (Cpt.cp_memsrc_init [0x41; 0x42; 0x43] 0 3)))
  /\ Cpt.cp_decompress_fork Vectors.lzh_with_gaps [0x41; 0x42; 0x43] 0 3 3
       false = [0x41; 0x42; 0x43]
  /\ Cpt.cp_decompress_fork Vectors.lzh_with_gaps [0x41; 0x42; 0x43] 0 3 3
       true = [0x41; 0x42; 0x43]
  /\ fst (Cpt.cp_rle_read 3
            (Cpt.cp_rle_init (Vectors.lzh_with_gaps [0x41; 0x42; 0x43])))
     = [0x41].
Proof.
  destruct (X27_cp_decompress_fork_reads_in_chunks Vectors.lzh_with_gaps
              [0x41; 0x42; 0x43] 0 3 3) as (_ & _ & _ & Hrle & _);
    [lia |].
  split; [exact Hrle |].
  repeat split; vm_compute; reflexivity.
Defined.

(** ** cpt.c: the directory and [peel_cpt] *)

Lemma land_nonneg_r (a b : Z) : 0 <= b -> 0 <= Z.land a b.
Proof. intros Hb. apply Z.land_nonneg. right. exact Hb. Qed.

Lemma cp_join_path_fits (parent seg : bytes) (seg_len : Z) :
  len (Cpt.cp_join_path parent seg seg_len) <= 255.
Proof.
  unfold Cpt.cp_join_path.
  set (head := match parent with
               | [] => []
               | c :: _ => if c =? 0 then [] else _
               end).
  assert (Hhead : len head <= 255).
  { subst head. destruct parent as [| c rest]; [unfold len; simpl; lia |].
    destruct (c =? 0); [unfold len; simpl; lia |].
    destruct (c_strnlen_le (c :: rest) 255) as [H1 H2].
    rewrite len_app. unfold len at 1. rewrite length_take.
    destruct (Nat.ltb_spec (c_strnlen (c :: rest) 255) 255);
      [change (len [47]) with 1 | change (len (@nil Z)) with 0]; lia. }
  pose proof (len_nonneg head).
  destruct (Z.ltb_spec (255 - len head) seg_len).
  - destruct (0 <? 255 - len head); [| exact Hhead].
    rewrite len_app. pose proof (len_span_le seg (255 - len head)). lia.
  - destruct (0 <? seg_len); [| exact Hhead].
    rewrite len_app. pose proof (len_span_le seg seg_len). lia.
Qed.

Lemma cp_walk_entries_enough (fuel : nat) :
  forall data ar cursor remaining parent,
    is_bytes data ->
    0 <= cursor <= len data ->
    len data - cursor + 1 <= Z.of_nat fuel ->
    exists w,
      Cpt.cp_walk_entries fuel data ar cursor remaining parent = Some w
      /\ forall ar' cursor',
           w = Cpt.WalkOk ar' cursor' ->
           cursor <= cursor' <= len data
           /\ (0 < remaining -> cursor < cursor')
           /\ exists new, ar' = ar ++ new /\ Forall Reach.cp_entry_ok new.
Proof.
  induction fuel as [| fuel IH]; intros data ar cursor remaining parent
    Hb Hcur Hfuel; [lia |].
  cbn [Cpt.cp_walk_entries].
  destruct (Z.leb_spec remaining 0) as [Hrem | Hrem].
  { eexists. split; [reflexivity |]. intros ar' c' Heq.
    injection Heq as <- <-. split; [lia |]. split; [lia |].
    exists []. rewrite app_nil_r. split; [reflexivity | constructor]. }
  destruct (Z.leb_spec (len data) cursor) as [? | Hin].
  { eexists. split; [reflexivity |]. discriminate. }
  set (nlen := Z.land (at_ data cursor) 127).
  assert (Hnlen : 0 <= nlen) by (apply land_nonneg_r; lia).
  destruct (Z.ltb_spec (len data) (cursor + 1 + nlen)) as [? | Hname].
  { eexists. split; [reflexivity |]. discriminate. }
  destruct (negb (Z.land (at_ data cursor) Cpt.CP_DIR_MARKER =? 0)).
  - destruct (Z.ltb_spec (len data) (cursor + 1 + nlen + 2)) as [? | Hcnt].
    { eexists. split; [reflexivity |]. discriminate. }
    match goal with
    | |- context [Cpt.cp_walk_entries fuel data ar ?c ?n ?p] =>
        destruct (IH data ar c n p Hb ltac:(lia) ltac:(lia))
          as (w & -> & Hw)
    end.
    destruct w as [| ar1 c1].
    { eexists. split; [reflexivity |]. discriminate. }
    destruct (Hw ar1 c1 eq_refl) as (Hc1 & _ & new1 & -> & Hok1).
    match goal with
    | |- context [Cpt.cp_walk_entries fuel data ?a c1 ?n ?p] =>
        destruct (IH data a c1 n p Hb ltac:(lia) ltac:(lia))
          as (w2 & -> & Hw2)
    end.
    exists w2. split; [reflexivity |]. intros ar' c' ->.
    destruct (Hw2 ar' c' eq_refl) as (Hc2 & _ & new2 & -> & Hok2).
    split; [lia |]. split; [lia |].
    exists (new1 ++ new2). rewrite app_assoc.
    split; [reflexivity | apply Forall_app; split; assumption].
  - destruct (Z.ltb_spec (len data) (cursor + 1 + nlen + 45)) as [? | Hmeta].
    { eexists. split; [reflexivity |]. discriminate. }
    match goal with
    | |- context [Cpt.cp_walk_entries fuel data (ar ++ [?fe]) ?c ?n ?p] =>
        set (entry := fe);
        destruct (IH data (ar ++ [entry]) c n p Hb ltac:(lia) ltac:(lia))
          as (w2 & -> & Hw2)
    end.
    exists w2. split; [reflexivity |]. intros ar' c' ->.
    destruct (Hw2 ar' c' eq_refl) as (Hc2 & _ & new2 & -> & Hok2).
    split; [lia |]. split; [lia |].
    exists (entry :: new2). rewrite <- app_assoc.
    split; [reflexivity |]. constructor; [| exact Hok2].
    assert (Hm : forall k, is_bytes (advance (advance data (cursor + 1 + nlen)) k))
      by (intros k; do 2 apply is_bytes_advance; exact Hb).
    unfold Reach.cp_entry_ok. subst entry.
    cbn [Cpt.cp_name Cpt.file_offset Cpt.rsrc_uncomp Cpt.data_uncomp
         Cpt.rsrc_comp Cpt.data_comp].
    split.
    { etransitivity; [apply len_c_str | apply cp_join_path_fits]. }
    split; [apply c_strnlen_no_nul |].
    repeat split; apply rd32be_range, Hm.
Qed.

(** X28 (cpt.c, [cp_walk_entries], [cp_join_path]): the directory walk of a
    Compact Pro archive always ends, whatever the entry counts in the
    archive say.  When it succeeds the cursor has moved forward inside the
    archive, the entries found are added after the ones given, and each has
    a name of at most 255 characters without NUL. *)
Theorem X28_cp_walk_entries_ends_inside_the_archive
    (data : bytes) (ar : list Cpt.cp_entry_t) (cursor remaining : Z)
    (parent : bytes) :
  is_bytes data ->
  0 <= cursor <= len data ->
  exists w,
    Cpt.cp_walk_entries (Z.to_nat (len data + 1)) data ar cursor remaining
      parent = Some w
    /\ forall ar' cursor',
         w = Cpt.WalkOk ar' cursor' ->
         cursor <= cursor' <= len data
         /\ (0 < remaining -> cursor < cursor')
         /\ exists new, ar' = ar ++ new /\ Forall Reach.cp_entry_ok new.
Proof.
  intros Hb Hcur. apply cp_walk_entries_enough; [exact Hb | exact Hcur | lia].
Qed.

Lemma X28_witness :
  exists w,
    Cpt.cp_walk_entries (Z.to_nat (len (Vectors.cpt_folder 0) + 1))
      (Vectors.cpt_folder 0) [] 19 2 [] = Some w
    /\ forall ar' cursor',
         w = Cpt.WalkOk ar' cursor' ->
         19 <= cursor' <= len (Vectors.cpt_folder 0)
         /\ (0 < 2 -> 19 < cursor')
         /\ exists new, ar' = [] ++ new /\ Forall Reach.cp_entry_ok new.
Proof.
  apply X28_cp_walk_entries_ends_inside_the_archive.
  - apply is_bytes_forallb. vm_compute. reflexivity.
  - vm_compute. split; discriminate.
Defined.

Lemma cp_parse_directory_ok (s : bytes) (dir_off : Z)
    (entries : list Cpt.cp_entry_t) :
  is_bytes s -> 0 <= dir_off ->
  Cpt.cp_parse_directory s dir_off = Some entries ->
  Forall Reach.cp_entry_ok entries.
Proof.
  intros Hb Hoff H. unfold Cpt.cp_parse_directory in H.
  destruct (len s <? dir_off + 7); [discriminate |].
  pose proof (at_is_byte s (dir_off + 6) Hb) as Hc.
  destruct (Z.ltb_spec (len s) (dir_off + 7 + at_ s (dir_off + 6)))
    as [? | Hcur]; [discriminate |].
  destruct (cp_walk_entries_enough (Z.to_nat (len s + 1)) s []
              (dir_off + 7 + at_ s (dir_off + 6))
              (rd16be (advance s (dir_off + 4))) [] Hb ltac:(lia) ltac:(lia))
    as (w & Hw & Hok).
  rewrite Hw in H. destruct w as [| ar c]; [discriminate |].
  injection H as <-.
  destruct (Hok ar c eq_refl) as (_ & _ & new & -> & Hall). exact Hall.
Qed.


(** X29 (cpt.c, [cpt_detect], [peel_cpt]): detection and extraction agree on
    the header, but for one check.  An input that [cpt_detect] rejects makes
    [peel_cpt] fail with one of its three header errors; an input that it
    accepts, but whose directory offset is not below the input length, is
    refused by [peel_cpt] for that offset; and [peel_cpt] succeeds only on
    inputs that [cpt_detect] accepts. *)
Theorem X29_cpt_detect_and_peel_cpt_agree_on_the_header
    {Lzh : Type} `{Cpt.ByteSource Lzh} (cp_lzh_init : bytes -> Lzh)
    (s : bytes) :
  (Cpt.cpt_detect s = false ->
   Cpt.peel_cpt cp_lzh_init s = inl (Cpt.CptTooShort (len s))
   \/ Cpt.peel_cpt cp_lzh_init s = inl (Cpt.CptBadMagic (at_ s 0) (at_ s 1))
   \/ Cpt.peel_cpt cp_lzh_init s
      = inl (Cpt.CptDirOffset (rd32be (advance s 4))))
  /\ (Cpt.cpt_detect s = true ->
      len s <= rd32be (advance s 4) ->
      Cpt.peel_cpt cp_lzh_init s
      = inl (Cpt.CptDirOffset (rd32be (advance s 4))))
  /\ (forall files,
        Cpt.peel_cpt cp_lzh_init s = inr files ->
        Cpt.cpt_detect s = true /\ rd32be (advance s 4) < len s).
Proof.
  unfold Cpt.cpt_detect, Cpt.peel_cpt.
  change Cpt.CP_MAGIC with 1. change Cpt.CP_VOLUME_SINGLE with 1.
  destruct (len s <? 8).
  { split; [intros _; left; reflexivity |].
    split; [discriminate | discriminate]. }
  destruct (negb (at_ s 0 =? 1) || negb (at_ s 1 =? 1)).
  { split; [intros _; right; left; reflexivity |].
    split; [discriminate | discriminate]. }
  destruct (Z.ltb_spec (rd32be (advance s 4)) 8) as [Hlow | Hlow].
  { cbn [orb].
    split; [intros _; right; right; reflexivity |].
    split; [discriminate | discriminate]. }
  destruct (Z.ltb_spec 268435456 (rd32be (advance s 4))) as [Hhigh | Hhigh].
  { cbn [orb].
    split; [intros _; right; right; reflexivity |].
    split; [discriminate | discriminate]. }
  cbn [orb].
  destruct (Z.leb_spec (len s) (rd32be (advance s 4))) as [Hlen | Hlen].
  { split; [discriminate |]. split; [reflexivity | discriminate]. }
  split; [discriminate |]. split; [intros _ ?; lia |].
  intros files _. split; [reflexivity | exact Hlen].
Qed.

Lemma X29_witness :
  Cpt.peel_cpt Vectors.no_lzh [1; 1; 0; 0; 0; 0; 0; 8]
  = inl (Cpt.CptDirOffset (rd32be (advance [1; 1; 0; 0; 0; 0; 0; 8] 4))).
Proof.
  destruct (X29_cpt_detect_and_peel_cpt_agree_on_the_header Vectors.no_lzh
              [1; 1; 0; 0; 0; 0; 0; 8]) as (_ & H & _).
  apply H; [reflexivity | vm_compute; discriminate].
Defined.

Section CptFiles.

Context {Lzh : Type} {lzh_source : Cpt.ByteSource Lzh}.
Variable cp_lzh_init : bytes -> Lzh.

Abbreviation cp_file_loop := (Cpt.cp_file_loop cp_lzh_init).
Abbreviation cpt_file_of_entry s :=
  (Reach.cpt_file_of_entry (Cpt.cp_decompress_fork cp_lzh_init s) s).

Lemma cp_file_loop_ok (s : bytes) (entries : list Cpt.cp_entry_t) :
  Forall Reach.cp_entry_ok entries ->
  forall fi file_count files res,
    cp_file_loop s entries fi file_count files = inr res ->
    fi + len (List.filter Cpt.cp_has_fork entries) <= file_count ->
    exists new,
      res = files ++ new
      /\ Forall2 (cpt_file_of_entry s)
           (List.filter Cpt.cp_has_fork entries) new.
Proof.
  induction 1 as [| e rest He Hrest IH]; intros fi fc files res H Hcount.
  - simpl in H. injection H as <-. exists []. rewrite app_nil_r.
    split; [reflexivity | constructor].
  - destruct He as (_ & _ & Hfo & Hru & Hdu & Hrc & Hdc).
    cbn [Cpt.cp_file_loop] in H. cbn [List.filter] in Hcount |- *.
    unfold Cpt.cp_has_fork at 1 in Hcount. unfold Cpt.cp_has_fork at 1.
    destruct (Z.ltb_spec 0 (Cpt.data_uncomp e)) as [Hd | Hd];
      destruct (Z.ltb_spec 0 (Cpt.rsrc_uncomp e)) as [Hr | Hr];
      cbn [orb] in Hcount |- *;
      destruct (Z.eqb_spec (Cpt.data_uncomp e) 0) as [Hd0 | Hd0];
      destruct (Z.eqb_spec (Cpt.rsrc_uncomp e) 0) as [Hr0 | Hr0];
      try lia; cbn [andb] in H.
    all: try (destruct (Z.ltb_spec fi fc) as [Hlt | Hge]; cbn [negb] in H;
              [| unfold len in Hcount; simpl in Hcount; lia]).
    all: try (destruct (Z.eqb_spec (Z.land (Cpt.flags e) Cpt.CP_FLAG_ENCRYPT) 0)
                as [Henc | Henc]; cbn [negb] in H; [| discriminate];
              destruct (Z.ltb_spec (len s)
                          (Cpt.file_offset e + Cpt.rsrc_comp e)) as [? | Hrb];
                [discriminate |];
              destruct (Z.ltb_spec (len s)
                          (Cpt.file_offset e + Cpt.rsrc_comp e
                           + Cpt.data_comp e)) as [? | Hdb];
                [discriminate |];
              apply IH in H; [| unfold len in *; simpl in Hcount; lia];
              destruct H as (new & -> & Hall);
              eexists; rewrite <- app_assoc; split; [reflexivity |];
              constructor; [| exact Hall];
              unfold Reach.cpt_file_of_entry;
              cbn [meta data_fork resource_fork];
              repeat split; try assumption;
              repeat match goal with
                     | |- context [0 <? ?x] =>
                         destruct (Z.ltb_spec 0 x); try lia
                     end; reflexivity).
    (* no fork: the entry is skipped *)
    destruct (Z.ltb_spec fi fc) as [Hlt | Hge]; cbn [negb] in H.
    + apply (IH _ _ _ _ H Hcount).
    + injection H as <-. exists []. rewrite app_nil_r.
      split; [reflexivity |].
      destruct (List.filter Cpt.cp_has_fork rest);
        [constructor | unfold len in Hcount; simpl in Hcount; lia].
Qed.

(** X30 (cpt.c, [peel_cpt], [cp_parse_directory]): the files that
    [peel_cpt] returns are the entries of the directory that declare a
    nonempty fork, in directory order.  Each file has the entry's metadata
    and a name of at most 255 characters; its entry does not have the
    encryption flag; both packed forks lie inside the archive, the data
    fork after the resource fork; and each fork is what
    [cp_decompress_fork] yields, or empty when its declared length is
    zero. *)
Theorem X30_peel_cpt_files_follow_the_directory
    (s : bytes) (files : peel_file_list_t) :
  is_bytes s ->
  Cpt.peel_cpt cp_lzh_init s = inr files ->
  exists entries,
    Cpt.cp_parse_directory s (rd32be (advance s 4)) = Some entries
    /\ Forall2 (cpt_file_of_entry s)
         (List.filter Cpt.cp_has_fork entries) files
    /\ Forall (fun f => len (name (meta f)) <= 255) files.
Proof.
  intros Hb H. unfold Cpt.peel_cpt in H.
  destruct (len s <? 8); [discriminate |].
  destruct (negb (at_ s 0 =? Cpt.CP_MAGIC)
            || negb (at_ s 1 =? Cpt.CP_VOLUME_SINGLE)); [discriminate |].
  destruct ((rd32be (advance s 4) <? 8) || (268435456 <? rd32be (advance s 4))
            || (len s <=? rd32be (advance s 4))); [discriminate |].
  destruct (Cpt.cp_parse_directory s (rd32be (advance s 4)))
    as [entries |] eqn:Hp; [| discriminate].
  pose proof (rd32be_range (advance s 4) (is_bytes_advance s 4 Hb)) as Hoff.
  assert (Hoff0 : 0 <= rd32be (advance s 4)) by lia.
  pose proof (cp_parse_directory_ok s _ entries Hb Hoff0 Hp) as Hok.
  exists entries. split; [reflexivity |].
  assert (Hall : Forall2 (cpt_file_of_entry s)
                   (List.filter Cpt.cp_has_fork entries) files).
  { destruct entries as [| e rest].
    - injection H as <-. constructor.
    - apply cp_file_loop_ok in H; [| exact Hok | lia].
      destruct H as (new & -> & Hall). exact Hall. }
  split; [exact Hall |].
  assert (Hnames : Forall Reach.cp_entry_ok
                     (List.filter Cpt.cp_has_fork entries)).
  { rewrite List.Forall_forall in Hok |- *. intros e He.
    apply filter_In in He. apply Hok, He. }
  clear -Hall Hnames.
  induction Hall as [| e f es fs Hef Hrest IH]; [constructor |].
  inversion Hnames as [| ? ? He Hes]; subst.
  constructor; [| apply IH, Hes].
  destruct Hef as (-> & _). destruct He as (Hl & _). exact Hl.
Qed.

End CptFiles.

Lemma X30_witness :
  exists entries,
    Cpt.cp_parse_directory (Vectors.cpt_folder 0)
      (rd32be (advance (Vectors.cpt_folder 0) 4)) = Some entries
    /\ Forall2 (Reach.cpt_file_of_entry
                  (Cpt.cp_decompress_fork Vectors.no_lzh (Vectors.cpt_folder 0))
                  (Vectors.cpt_folder 0))
         (List.filter Cpt.cp_has_fork entries) [Vectors.file_d_a]
    /\ Forall (fun f => len (name (meta f)) <= 255) [Vectors.file_d_a].
Proof.
  apply X30_peel_cpt_files_follow_the_directory.
  - apply is_bytes_forallb. vm_compute. reflexivity.
  - vm_compute. reflexivity.
Defined.
